(** * LLMQ final commitments and the quorum manager

    A shallow embedding of [src/llmq/commitment.cpp], [src/llmq/quorums.cpp]
    and [GetTxPayload] of [src/evo/specialtx.h], and the properties of the
    commitment validator, the quorum caches and the quorum data
    request/response exchange that follow from that code.

    Conventions.
    - 256-bit hashes ([uint256]) and enum values are integers; the null hash
      is [0].
    - Fixed-width C++ integers are [Z] with the conversion written out where
      the code mixes signedness ([to_size_t], [to_uint32]).
    - [std::vector<bool>] is [list bool]; [std::shared_ptr<CQuorum>] is an
      address into the object store of the node state, so that two holders of
      one quorum see each other's writes.
    - A function that can stop by a failed [assert], a null dereference or an
      uncaught exception returns a [Result]. *)

From Stdlib Require Import ZArith Lia Bool List String.
From Stdlib.Strings Require Import Byte.
From stdpp Require Import gmap strings list fin_maps sorting.

Local Open Scope Z_scope.

Abbreviation uint256 := Z (only parsing).
Abbreviation LLMQType := Z (only parsing).
Abbreviation NodeId := Z (only parsing).

(** [uint256::IsNull]. *)
Definition uint256_IsNull (h : uint256) : bool := h =? 0.

(** Conversion of an [int] to [size_t] (64 bit) and to [uint32_t], as the
    usual arithmetic conversions do when the code compares a signed value
    with an unsigned one. *)
Definition to_size_t (i : Z) : Z := i mod 2 ^ 64.
Definition to_uint32 (i : Z) : Z := i mod 2 ^ 32.

(** ** The block index

    A [CBlockIndex] carries its hash, its height and the pointer to its
    predecessor. A [const CBlockIndex*] is an [option CBlockIndex], [None]
    being [nullptr]; two pointers are equal when they denote the same entry,
    which [CBlockIndex_eqb] decides on the entries themselves. *)

#[warnings="-register-all"]
Inductive CBlockIndex : Type :=
  mkBlockIndex { phashBlock : uint256; nHeight : Z; pprev : option CBlockIndex }.

Definition GetBlockHash (p : CBlockIndex) : uint256 := phashBlock p.

Fixpoint CBlockIndex_eqb (a b : CBlockIndex) : bool :=
  match a, b with
  | mkBlockIndex h1 n1 p1, mkBlockIndex h2 n2 p2 =>
      (h1 =? h2) && (n1 =? n2) &&
      match p1, p2 with
      | None, None => true
      | Some q1, Some q2 => CBlockIndex_eqb q1 q2
      | _, _ => false
      end
  end.

Definition ptr_eqb (a b : option CBlockIndex) : bool :=
  match a, b with
  | None, None => true
  | Some x, Some y => CBlockIndex_eqb x y
  | _, _ => false
  end.

Fixpoint walk_back (p : CBlockIndex) (height : Z) : option CBlockIndex :=
  match p with
  | mkBlockIndex _ n pp =>
      if n =? height then Some p
      else match pp with
           | Some q => walk_back q height
           | None => None
           end
  end.

(** Modelled from the spec: [CBlockIndex::GetAncestor] lives in chain.cpp,
    which is not among the sources. Section 4.2 (5) uses it as "the block on
    the same chain at the expected ancestor depth": the entry of the given
    height reached by following [pprev], and [nullptr] when the height is
    negative or above the block's own. *)
Definition GetAncestor (p : CBlockIndex) (height : Z) : option CBlockIndex :=
  if (nHeight p <? height) || (height <? 0) then None else walk_back p height.

(** [LookupBlockIndex] of validation.h: a find in [mapBlockIndex]. *)
Definition LookupBlockIndex (mapBlockIndex : gmap Z CBlockIndex) (hash : uint256)
  : option CBlockIndex :=
  mapBlockIndex !! hash.

(** ** BLS objects *)

(** Modelled from the spec: the BLS wrappers are declared in bls/bls.h, which
    is not among the sources, and are "consumed as a capability" (section 1).
    Each object carries the validity that [IsValid] reports and an opaque
    representation. *)

Record CBLSPublicKey : Type := mkPublicKey { pk_fValid : bool; pk_repr : Z }.
Record CBLSSignature : Type := mkSignature { sig_fValid : bool; sig_repr : Z }.
Record CBLSSecretKey : Type := mkSecretKey { sk_fValid : bool; sk_repr : Z }.

Abbreviation BLSVerificationVector := (list CBLSPublicKey) (only parsing).

(** A default-constructed secret key, also what [Reset] leaves. *)
Definition CBLSSecretKey_default : CBLSSecretKey := mkSecretKey false 0.
Definition CBLSPublicKey_default : CBLSPublicKey := mkPublicKey false 0.

(** [CBLSIESEncryptedObject<CBLSSecretKey>], opaque. *)
Record CBLSIESEncryptedObject : Type := mkEncrypted { enc_repr : Z }.

(** ** Consensus parameters *)

Record LLMQParams : Type := mkLLMQParams {
  llmq_type : LLMQType;
  llmq_size : Z;                      (* int size *)
  llmq_minSize : Z;                   (* int minSize *)
  llmq_threshold : Z;                 (* int threshold *)
  llmq_signingActiveQuorumCount : Z   (* int signingActiveQuorumCount *)
}.

(** A masternode list entry, as far as the quorum code reads it. *)
Record CDeterministicMN : Type := mkMN {
  proTxHash : uint256;
  pubKeyOperator : CBLSPublicKey
}.

(** ** Commitments *)

Record CFinalCommitment : Type := mkFinalCommitment {
  nVersion : Z;                       (* uint16_t *)
  llmqType : LLMQType;
  quorumHash : uint256;
  signers : list bool;
  validMembers : list bool;
  quorumPublicKey : CBLSPublicKey;
  quorumVvecHash : uint256;
  quorumSig : CBLSSignature;
  membersSig : CBLSSignature
}.

Module CFinalCommitmentTxPayload.
Record t : Type := mk {
  nVersion : Z;                     (* uint16_t *)
  nHeight : Z;                      (* uint32_t *)
  commitment : CFinalCommitment
}.
End CFinalCommitmentTxPayload.

(** The collaborators the code calls and the constants it reads from headers
    that are not among the sources. *)
Class Externals : Type := {
  (** [Params().GetConsensus().llmqs] *)
  llmqs : gmap Z LLMQParams;
  (** [CFinalCommitment::CURRENT_VERSION] *)
  CURRENT_VERSION : Z;
  (** [CFinalCommitmentTxPayload::CURRENT_VERSION] *)
  TX_CURRENT_VERSION : Z;
  (** [LLMQ_DATA_MESSAGES_VERSION] *)
  LLMQ_DATA_MESSAGES_VERSION : Z;
  (** the fixed timeout after which a [CQuorumDataRequest] is expired *)
  EXPIRATION_TIMEOUT : Z;
  (** [CLLMQUtils::GetAllQuorumMembers], which the code calls with the type
      or with the parameters of the type *)
  GetAllQuorumMembers : LLMQType -> CBlockIndex -> list CDeterministicMN;
  (** [CLLMQUtils::BuildCommitmentHash] *)
  BuildCommitmentHash :
    LLMQType -> uint256 -> list bool -> CBLSPublicKey -> uint256 -> uint256;
  (** [CBLSSignature::VerifySecureAggregated] and [VerifyInsecure] *)
  VerifySecureAggregated : CBLSSignature -> list CBLSPublicKey -> uint256 -> bool;
  VerifyInsecure : CBLSSignature -> CBLSPublicKey -> uint256 -> bool;
  (** [::SerializeHash] of a verification vector *)
  SerializeHash : list CBLSPublicKey -> uint256;
  (** the [CHashWriter] of [MakeQuorumKey] over type, quorum hash and the
      members' proTxHashes *)
  HashQuorumKey : LLMQType -> uint256 -> list Z -> uint256;
  (** [CBLSWorker::BuildQuorumVerificationVector] ([None]: a null pointer) *)
  BuildQuorumVerificationVector : list (list CBLSPublicKey) -> option (list CBLSPublicKey);
  (** [CBLSWorker::AggregateSecretKeys] *)
  AggregateSecretKeys : list CBLSSecretKey -> CBLSSecretKey;
  (** [CBLSSecretKey::GetPublicKey] *)
  GetPublicKey : CBLSSecretKey -> CBLSPublicKey;
  (** [CBLSWorkerCache::BuildPubKeyShare] *)
  BuildPubKeyShare : uint256 -> list CBLSPublicKey -> uint256 -> CBLSPublicKey;
  (** [CBLSIESEncryptedObject::Decrypt] *)
  Decrypt : Z -> CBLSSecretKey -> CBLSIESEncryptedObject -> option CBLSSecretKey;
  (** [CDKGSessionManager::GetVerifiedContributions] *)
  GetVerifiedContributions :
    LLMQType -> CBlockIndex -> list bool ->
    option (list Z * list (list CBLSPublicKey) * list CBLSSecretKey);
  (** [CDKGSessionManager::GetEncryptedContributions] *)
  GetEncryptedContributions :
    LLMQType -> CBlockIndex -> list bool -> uint256 ->
    option (list CBLSIESEncryptedObject);
  (** [ds >> obj] for a [CFinalCommitmentTxPayload]: [None] when it throws,
      otherwise the object and the bytes left in the stream *)
  Unserialize_qcTx :
    list Byte.byte -> option (CFinalCommitmentTxPayload.t * list Byte.byte)
}.

Section Commitment.
Context {ext : Externals}.

(** [CountValidMembers] and [CountSigners]: [std::count] of [true]. *)
Definition count_true (l : list bool) : Z :=
  Z.of_nat (length (List.filter (fun b : bool => b) l)).
Definition CountValidMembers (c : CFinalCommitment) : Z := count_true (validMembers c).
Definition CountSigners (c : CFinalCommitment) : Z := count_true (signers c).

(** [v[i]] on a [std::vector<bool>]. The code indexes only below the size
    it has checked; out of range the model reads [false]. *)
Definition bit (v : list bool) (i : nat) : bool := nth i v false.

Definition VerifySizes (c : CFinalCommitment) (params : LLMQParams) : bool :=
  if negb (Z.of_nat (length (signers c)) =? to_size_t (llmq_size params)) then false
  else if negb (Z.of_nat (length (validMembers c)) =? to_size_t (llmq_size params)) then false
  else true.

(** The loop [for (size_t i = members.size(); i < llmq_params.size; i++)]:
    [n] iterations are left when [i] is reached. *)
Fixpoint no_bits_from (vm sg : list bool) (i : nat) (n : nat) : bool :=
  match n with
  | O => true
  | S n' =>
      if bit vm i then false
      else if bit sg i then false
      else no_bits_from vm sg (S i) n'
  end.

(** The loop that collects the operator keys of the signing members. *)
Fixpoint memberPubKeys (members : list CDeterministicMN) (sg : list bool) (i : nat)
  : list CBLSPublicKey :=
  match members with
  | [] => []
  | m :: rest =>
      if negb (bit sg i) then memberPubKeys rest sg (S i)
      else pubKeyOperator m :: memberPubKeys rest sg (S i)
  end.

Definition Verify (c : CFinalCommitment) (pQuorumBaseBlockIndex : CBlockIndex)
    (checkSigs : bool) : bool :=
  if (nVersion c =? 0) || (CURRENT_VERSION <? nVersion c) then false
  else match llmqs !! llmqType c with
  | None => false
  | Some llmq_params =>
    if negb (VerifySizes c llmq_params) then false
    else if CountValidMembers c <? llmq_minSize llmq_params then false
    else if CountSigners c <? llmq_minSize llmq_params then false
    else if negb (pk_fValid (quorumPublicKey c)) then false
    else if uint256_IsNull (quorumVvecHash c) then false
    else if negb (sig_fValid (membersSig c)) then false
    else if negb (sig_fValid (quorumSig c)) then false
    else
      let members := GetAllQuorumMembers (llmq_type llmq_params) pQuorumBaseBlockIndex in
      let first := length members in
      let count := Z.to_nat (to_size_t (llmq_size llmq_params) - Z.of_nat first) in
      if negb (no_bits_from (validMembers c) (signers c) first count) then false
      else if checkSigs then
        let commitmentHash :=
          BuildCommitmentHash (llmq_type llmq_params) (quorumHash c) (validMembers c)
                              (quorumPublicKey c) (quorumVvecHash c) in
        if negb (VerifySecureAggregated (membersSig c)
                   (memberPubKeys members (signers c) 0) commitmentHash) then false
        else if negb (VerifyInsecure (quorumSig c) (quorumPublicKey c) commitmentHash)
        then false
        else true
      else true
  end.

(** Modelled from the spec: [CFinalCommitment::IsNull] is declared in
    llmq/commitment.h, which is not among the sources. Sections 3 and 4.1
    describe the null form as "all bits zero, no valid key" and "all bits
    clear, aggregated key absent". *)
Definition IsNull (c : CFinalCommitment) : bool :=
  if (0 <? count_true (signers c)) || (0 <? count_true (validMembers c)) then false
  else if pk_fValid (quorumPublicKey c) then false
  else true.

Definition VerifyNull (c : CFinalCommitment) : bool :=
  match llmqs !! llmqType c with
  | None => false
  | Some params =>
      if negb (IsNull c) || negb (VerifySizes c params) then false else true
  end.

(** The constructor [CFinalCommitment(params, quorumHash)]: the type, the
    quorum hash and two bitsets of [params.size] clear bits. [params.size] is
    an [int] where the bitsets take a [size_t]: a negative size becomes a
    count of nearly 2^64 bits, and what a [std::vector<bool>] of that size
    is depends on the standard library (an exception, or an object that
    reports that many bits without holding them). The embedding does not
    follow the constructor there: that is [None], and covers no behaviour.
    The members that the initialiser list leaves out keep what a
    default-constructed commitment [dflt] has. *)
Definition CFinalCommitment_new (dflt : CFinalCommitment) (params : LLMQParams)
    (_quorumHash : uint256) : option CFinalCommitment :=
  if llmq_size params <? 0 then None
  else
    let n := Z.to_nat (to_size_t (llmq_size params)) in
    Some {| nVersion := nVersion dflt;
            llmqType := llmq_type params;
            quorumHash := _quorumHash;
            signers := repeat false n;
            validMembers := repeat false n;
            quorumPublicKey := quorumPublicKey dflt;
            quorumVvecHash := quorumVvecHash dflt;
            quorumSig := quorumSig dflt;
            membersSig := membersSig dflt |}.

(** ** The commitment transaction check *)

(** [GetTxPayload] of evo/specialtx.h, for any payload type [T] with its
    [ds >> obj]: the exception is caught and gives [false]; otherwise the
    result is [ds.empty()]. [None] is the [false] return. *)
Definition GetTxPayload {T : Type}
    (unserialize : list Byte.byte -> option (T * list Byte.byte))
    (payload : list Byte.byte) : option T :=
  match unserialize payload with
  | None => None
  | Some (obj, rest) =>
      match rest with
      | [] => Some obj
      | _ :: _ => None
      end
  end.

Record CTransaction : Type := mkTransaction { vExtraPayload : list Byte.byte }.

(** [SetTxPayload] of evo/specialtx.h, for any payload type [T] with its
    [ds << payload]: the extra payload of the transaction becomes the bytes
    written. *)
Definition SetTxPayload {T : Type} (serialize : T -> list Byte.byte)
    (tx : CTransaction) (payload : T) : CTransaction :=
  mkTransaction (serialize payload).

(** Modelled from the spec: [CValidationState] is declared in
    consensus/validation.h, which is not among the sources. Section 7 (a):
    a rejection carries "a machine-readable reason string and a
    misbehavior-score increment". *)
Record CValidationState : Type := mkValidationState {
  nDoS : Z;
  chRejectCode : Z;
  strRejectReason : string
}.

(** Modelled from the spec: the reject code of a consensus rejection; the
    code only passes it on. *)
Definition REJECT_INVALID : Z := 16.

(** Modelled from the spec: [CValidationState::DoS] records the rejection,
    raises the misbehavior score by [level] and returns [ret]. *)
Definition DoS (state : CValidationState) (level : Z) (ret : bool)
    (chRejectCodeIn : Z) (strRejectReasonIn : string) : bool * CValidationState :=
  (ret, {| nDoS := nDoS state + level;
           chRejectCode := chRejectCodeIn;
           strRejectReason := strRejectReasonIn |}).

Definition CheckLLMQCommitment (mapBlockIndex : gmap Z CBlockIndex)
    (tx : CTransaction) (pindexPrev : CBlockIndex) (state : CValidationState)
  : bool * CValidationState :=
  match GetTxPayload Unserialize_qcTx (vExtraPayload tx) with
  | None => DoS state 100 false REJECT_INVALID "bad-qc-payload"
  | Some qcTx =>
    if (CFinalCommitmentTxPayload.nVersion qcTx =? 0)
       || (TX_CURRENT_VERSION <? CFinalCommitmentTxPayload.nVersion qcTx)
    then DoS state 100 false REJECT_INVALID "bad-qc-version"
    else if negb (CFinalCommitmentTxPayload.nHeight qcTx
                  =? to_uint32 (nHeight pindexPrev + 1))
    then DoS state 100 false REJECT_INVALID "bad-qc-height"
    else
      let qc := CFinalCommitmentTxPayload.commitment qcTx in
      match LookupBlockIndex mapBlockIndex (quorumHash qc) with
      | None => DoS state 100 false REJECT_INVALID "bad-qc-quorum-hash"
      | Some pQuorumBaseBlockIndex =>
        if negb (ptr_eqb (Some pQuorumBaseBlockIndex)
                   (GetAncestor pindexPrev (nHeight pQuorumBaseBlockIndex)))
        then DoS state 100 false REJECT_INVALID "bad-qc-quorum-hash"
        else if negb (bool_decide (is_Some (llmqs !! llmqType qc)))
        then DoS state 100 false REJECT_INVALID "bad-qc-type"
        else if IsNull qc then
          if negb (VerifyNull qc)
          then DoS state 100 false REJECT_INVALID "bad-qc-invalid-null"
          else (true, state)
        else if negb (Verify qc pQuorumBaseBlockIndex false)
        then DoS state 100 false REJECT_INVALID "bad-qc-invalid"
        else (true, state)
      end
  end.

End Commitment.

(** ** Quorum data requests *)

Module CQuorumDataRequest.
(** Modelled from the spec: [CQuorumDataRequest] is declared in
    llmq/quorums.h, which is not among the sources. Section 6 lists the
    error codes of a response. *)
Inductive Errors : Type :=
| NONE
| UNDEFINED
| QUORUM_TYPE_INVALID
| QUORUM_BLOCK_NOT_FOUND
| QUORUM_NOT_FOUND
| MASTERNODE_IS_NO_MEMBER
| QUORUM_VERIFICATION_VECTOR_MISSING
| ENCRYPTED_CONTRIBUTIONS_MISSING.

(** Modelled from the spec: the attributes of a request are, by section 3,
    "quorum type, quorum hash, a bitmask of requested data kinds", "the
    requesting member's identity, an error code, processed/not-processed
    flag, creation timestamp". *)
Record t : Type := mk {
  llmqType : LLMQType;
  quorumHash : uint256;
  nDataMask : Z;                    (* uint16_t *)
  proTxHash : uint256;
  nError : Errors;
  fProcessed : bool;
  nTime : Z                         (* creation time *)
}.

(** Modelled from the spec: section 6 gives the data mask as
    "bit0=verification vector, bit1=encrypted contributions". *)
Definition QUORUM_VERIFICATION_VECTOR : Z := 1.
Definition ENCRYPTED_CONTRIBUTIONS : Z := 2.

Definition Errors_eqb (a b : Errors) : bool :=
  match a, b with
  | NONE, NONE | UNDEFINED, UNDEFINED
  | QUORUM_TYPE_INVALID, QUORUM_TYPE_INVALID
  | QUORUM_BLOCK_NOT_FOUND, QUORUM_BLOCK_NOT_FOUND
  | QUORUM_NOT_FOUND, QUORUM_NOT_FOUND
  | MASTERNODE_IS_NO_MEMBER, MASTERNODE_IS_NO_MEMBER
  | QUORUM_VERIFICATION_VECTOR_MISSING, QUORUM_VERIFICATION_VECTOR_MISSING
  | ENCRYPTED_CONTRIBUTIONS_MISSING, ENCRYPTED_CONTRIBUTIONS_MISSING => true
  | _, _ => false
  end.

(** Modelled from the spec: [operator==], whose negation the QDATA handler
    uses. By section 4.3 a response matches the request when "type, hash,
    mask, requester" are "all equal". *)
Definition eqb (a b : t) : bool :=
  (llmqType a =? llmqType b) && (quorumHash a =? quorumHash b)
  && (nDataMask a =? nDataMask b) && (proTxHash a =? proTxHash b).

Definition SetError (r : t) (e : Errors) : t :=
  {| llmqType := llmqType r; quorumHash := quorumHash r; nDataMask := nDataMask r;
     proTxHash := proTxHash r; nError := e; fProcessed := fProcessed r;
     nTime := nTime r |}.

Definition SetProcessed (r : t) : t :=
  {| llmqType := llmqType r; quorumHash := quorumHash r; nDataMask := nDataMask r;
     proTxHash := proTxHash r; nError := nError r; fProcessed := true;
     nTime := nTime r |}.

(** Modelled from the spec: the constructor used by [RequestQuorumData]. A
    new request carries no answer yet, is not processed, and is stamped with
    the time of its creation. *)
Definition make (now : Z) (type : LLMQType) (hash : uint256) (mask : Z)
    (requester : uint256) : t :=
  {| llmqType := type; quorumHash := hash; nDataMask := mask;
     proTxHash := requester; nError := UNDEFINED; fProcessed := false;
     nTime := now |}.

(** [mask & flag] as a condition. *)
Definition wants (r : t) (flag : Z) : bool := negb (Z.land (nDataMask r) flag =? 0).
End CQuorumDataRequest.

(** A connected peer, as far as the quorum manager reads it. *)
Module CNode.
Record t : Type := mk {
  id : NodeId;
  nVersion : Z;
  verifiedProRegTxHash : uint256;
  qwatch : bool
}.
End CNode.

(** ** Quorums *)

Record CQuorum : Type := mkQuorum {
  params : LLMQParams;
  qc : CFinalCommitment;              (* CFinalCommitmentPtr *)
  pindexQuorum : CBlockIndex;
  minedBlockHash : uint256;
  members : list CDeterministicMN;
  quorumVvec : option (list CBLSPublicKey);   (* BLSVerificationVectorPtr *)
  skShare : CBLSSecretKey;
  fQuorumDataRecoveryThreadRunning : bool
}.

Definition set_quorumVvec (v : option (list CBLSPublicKey)) (q : CQuorum) : CQuorum :=
  {| params := params q; qc := qc q; pindexQuorum := pindexQuorum q;
     minedBlockHash := minedBlockHash q; members := members q;
     quorumVvec := v; skShare := skShare q;
     fQuorumDataRecoveryThreadRunning := fQuorumDataRecoveryThreadRunning q |}.

Definition set_skShare (s : CBLSSecretKey) (q : CQuorum) : CQuorum :=
  {| params := params q; qc := qc q; pindexQuorum := pindexQuorum q;
     minedBlockHash := minedBlockHash q; members := members q;
     quorumVvec := quorumVvec q; skShare := s;
     fQuorumDataRecoveryThreadRunning := fQuorumDataRecoveryThreadRunning q |}.

(** [std::shared_ptr<CQuorum>]: an address into [quorums] of the node state. *)
Abbreviation CQuorumPtr := nat (only parsing).

(** What the evo database holds under the two quorum tags. *)
Inductive DbValue : Type :=
| DbVvec (v : list CBLSPublicKey)
| DbSkShare (s : CBLSSecretKey).

Definition DB_QUORUM_SK_SHARE : string := "q_Qsk".
Definition DB_QUORUM_QUORUM_VVEC : string := "q_Qqvvec".

(** ** The bounded caches *)

(** Modelled from the spec: [unordered_lru_cache] is declared in
    unordered_lru_cache.h, which is not among the sources. Sections 3, 4.3
    and 9 ask for "a bounded cache" with "explicit capacity and LRU-like
    eviction": the entries are kept most recently used first and an insert
    keeps the [maxSize] most recent ones. *)
Record unordered_lru_cache (V : Type) : Type := mkCache {
  cacheMap : list (Z * V);
  maxSize : nat
}.
Arguments mkCache {V} _ _.
Arguments cacheMap {V} _.
Arguments maxSize {V} _.

Section LruCache.
Context {V : Type}.

Definition cache_find (k : uint256) (l : list (Z * V)) : option V :=
  match List.find (fun e => fst e =? k) l with
  | Some e => Some (snd e)
  | None => None
  end.

Definition cache_remove (k : uint256) (l : list (Z * V)) : list (Z * V) :=
  List.filter (fun e => negb (fst e =? k)) l.

(** Modelled from the spec: [get]; a hit also refreshes the entry. *)
Definition cache_get (k : uint256) (c : unordered_lru_cache V)
  : option V * unordered_lru_cache V :=
  match cache_find k (cacheMap c) with
  | Some v => (Some v, mkCache ((k, v) :: cache_remove k (cacheMap c)) (maxSize c))
  | None => (None, c)
  end.

(** Modelled from the spec: [insert] and [emplace]; the new entry is the most
    recent one, and the oldest entries beyond the capacity are dropped. *)
Definition cache_insert (k : uint256) (v : V) (c : unordered_lru_cache V)
  : unordered_lru_cache V :=
  mkCache (take (maxSize c) ((k, v) :: cache_remove k (cacheMap c))) (maxSize c).

Definition max_size (c : unordered_lru_cache V) : nat := maxSize c.

(** [std::map::operator[]] on the per-type table of caches: a missing type
    reads as a default-constructed, empty cache. *)
Definition cache_at (m : gmap Z (unordered_lru_cache V)) (t : LLMQType)
  : unordered_lru_cache V :=
  match m !! t with
  | Some c => c
  | None => mkCache [] 0
  end.
End LruCache.

(** ** Node state *)

Record QDataBody : Type := mkBody {
  body_vvec : option (list CBLSPublicKey);
  body_contributions : option (list CBLSIESEncryptedObject)
}.

(** What [g_connman->PushMessage] was given. *)
Inductive NetMessage : Type :=
| QGETDATA (to : NodeId) (request : CQuorumDataRequest.t)
| QDATA (to : NodeId) (request : CQuorumDataRequest.t) (body : QDataBody).

(** The receive stream of a message, by the objects the handlers extract from
    it in order; [None] where the extraction throws. *)
Record CDataStream : Type := mkStream {
  ds_request : option CQuorumDataRequest.t;
  ds_vvec : option (list CBLSPublicKey);
  ds_contributions : option (list CBLSIESEncryptedObject)
}.

(** [activeMasternodeInfo] and the mode flags. *)
Record ActiveMasternodeInfo : Type := mkActive {
  fMasternodeMode : bool;
  fWatchQuorums : bool;               (* CLLMQUtils::IsWatchQuorumsEnabled() *)
  activeProTxHash : uint256;          (* activeMasternodeInfo.proTxHash *)
  blsKeyOperator : option CBLSSecretKey   (* a unique_ptr *)
}.

Record NodeState : Type := mkState {
  (** chain state under cs_main *)
  mapBlockIndex : gmap Z CBlockIndex;
  (** the mined commitments in the block processor's durable store, each with
      the hash of the block it was mined in *)
  minedCommitments : list (CFinalCommitment * Z);
  self : ActiveMasternodeInfo;
  evoDb : gmap (string * Z) DbValue;
  (** the [CQuorum] objects behind the shared pointers *)
  quorums : list CQuorum;
  mapQuorumsCache : gmap Z (unordered_lru_cache nat);
  scanQuorumsCache : gmap Z (unordered_lru_cache (list nat));
  mapQuorumDataRequests : gmap (Z * bool) CQuorumDataRequest.t;
  (** effects on the collaborators *)
  vSendMsg : list NetMessage;
  misbehaving : list (Z * Z);         (* Misbehaving(id, score) *)
  errorLog : list string;             (* what errorHandler printed *)
  workerPool : list nat               (* queued cache populator tasks *)
}.

Definition set_evoDb (x : gmap (string * Z) DbValue) (s : NodeState) : NodeState :=
  {| mapBlockIndex := mapBlockIndex s; minedCommitments := minedCommitments s;
     self := self s; evoDb := x; quorums := quorums s;
     mapQuorumsCache := mapQuorumsCache s; scanQuorumsCache := scanQuorumsCache s;
     mapQuorumDataRequests := mapQuorumDataRequests s; vSendMsg := vSendMsg s;
     misbehaving := misbehaving s; errorLog := errorLog s; workerPool := workerPool s |}.

Definition set_quorums (x : list CQuorum) (s : NodeState) : NodeState :=
  {| mapBlockIndex := mapBlockIndex s; minedCommitments := minedCommitments s;
     self := self s; evoDb := evoDb s; quorums := x;
     mapQuorumsCache := mapQuorumsCache s; scanQuorumsCache := scanQuorumsCache s;
     mapQuorumDataRequests := mapQuorumDataRequests s; vSendMsg := vSendMsg s;
     misbehaving := misbehaving s; errorLog := errorLog s; workerPool := workerPool s |}.

Definition set_mapQuorumsCache (x : gmap Z (unordered_lru_cache nat)) (s : NodeState)
  : NodeState :=
  {| mapBlockIndex := mapBlockIndex s; minedCommitments := minedCommitments s;
     self := self s; evoDb := evoDb s; quorums := quorums s;
     mapQuorumsCache := x; scanQuorumsCache := scanQuorumsCache s;
     mapQuorumDataRequests := mapQuorumDataRequests s; vSendMsg := vSendMsg s;
     misbehaving := misbehaving s; errorLog := errorLog s; workerPool := workerPool s |}.

Definition set_scanQuorumsCache (x : gmap Z (unordered_lru_cache (list nat)))
    (s : NodeState) : NodeState :=
  {| mapBlockIndex := mapBlockIndex s; minedCommitments := minedCommitments s;
     self := self s; evoDb := evoDb s; quorums := quorums s;
     mapQuorumsCache := mapQuorumsCache s; scanQuorumsCache := x;
     mapQuorumDataRequests := mapQuorumDataRequests s; vSendMsg := vSendMsg s;
     misbehaving := misbehaving s; errorLog := errorLog s; workerPool := workerPool s |}.

Definition set_mapQuorumDataRequests (x : gmap (Z * bool) CQuorumDataRequest.t)
    (s : NodeState) : NodeState :=
  {| mapBlockIndex := mapBlockIndex s; minedCommitments := minedCommitments s;
     self := self s; evoDb := evoDb s; quorums := quorums s;
     mapQuorumsCache := mapQuorumsCache s; scanQuorumsCache := scanQuorumsCache s;
     mapQuorumDataRequests := x; vSendMsg := vSendMsg s;
     misbehaving := misbehaving s; errorLog := errorLog s; workerPool := workerPool s |}.

Definition set_vSendMsg (x : list NetMessage) (s : NodeState) : NodeState :=
  {| mapBlockIndex := mapBlockIndex s; minedCommitments := minedCommitments s;
     self := self s; evoDb := evoDb s; quorums := quorums s;
     mapQuorumsCache := mapQuorumsCache s; scanQuorumsCache := scanQuorumsCache s;
     mapQuorumDataRequests := mapQuorumDataRequests s; vSendMsg := x;
     misbehaving := misbehaving s; errorLog := errorLog s; workerPool := workerPool s |}.

Definition set_misbehaving (x : list (Z * Z)) (s : NodeState) : NodeState :=
  {| mapBlockIndex := mapBlockIndex s; minedCommitments := minedCommitments s;
     self := self s; evoDb := evoDb s; quorums := quorums s;
     mapQuorumsCache := mapQuorumsCache s; scanQuorumsCache := scanQuorumsCache s;
     mapQuorumDataRequests := mapQuorumDataRequests s; vSendMsg := vSendMsg s;
     misbehaving := x; errorLog := errorLog s; workerPool := workerPool s |}.

Definition set_errorLog (x : list string) (s : NodeState) : NodeState :=
  {| mapBlockIndex := mapBlockIndex s; minedCommitments := minedCommitments s;
     self := self s; evoDb := evoDb s; quorums := quorums s;
     mapQuorumsCache := mapQuorumsCache s; scanQuorumsCache := scanQuorumsCache s;
     mapQuorumDataRequests := mapQuorumDataRequests s; vSendMsg := vSendMsg s;
     misbehaving := misbehaving s; errorLog := x; workerPool := workerPool s |}.

Definition set_workerPool (x : list nat) (s : NodeState) : NodeState :=
  {| mapBlockIndex := mapBlockIndex s; minedCommitments := minedCommitments s;
     self := self s; evoDb := evoDb s; quorums := quorums s;
     mapQuorumsCache := mapQuorumsCache s; scanQuorumsCache := scanQuorumsCache s;
     mapQuorumDataRequests := mapQuorumDataRequests s; vSendMsg := vSendMsg s;
     misbehaving := misbehaving s; errorLog := errorLog s; workerPool := x |}.

(** ** Faults

    A function that stops early reports why and in which state: an uncaught
    exception leaves the node running in that state. *)

Inductive Fault : Type :=
| AssertionFailure
| NullDereference
| OutOfRange          (* std::map::at on a missing key *)
| StreamFailure.      (* operator>> on a stream that holds too little *)

Inductive Result (A : Type) : Type :=
| Ok (a : A)
| Stop (f : Fault) (st : NodeState).
Arguments Ok {A} a.
Arguments Stop {A} f st.

Definition bind {A B : Type} (m : Result A) (k : A -> Result B) : Result B :=
  match m with
  | Ok a => k a
  | Stop f st => Stop f st
  end.

(** The node state a handler leaves behind, however it ended. *)
Definition final_state (r : Result NodeState) : NodeState :=
  match r with
  | Ok st => st
  | Stop _ st => st
  end.

Section Quorum.
Context {ext : Externals}.

(** Modelled from the spec: [CQuorumDataRequest::IsExpired], declared in
    llmq/quorums.h, which is not among the sources. A request is expired
    "once its age exceeds a fixed timeout" (section 3). *)
Definition IsExpired (now : Z) (r : CQuorumDataRequest.t) : bool :=
  EXPIRATION_TIMEOUT <? now - CQuorumDataRequest.nTime r.

Definition MakeQuorumKey (q : CQuorum) : uint256 :=
  HashQuorumKey (llmq_type (params q)) (quorumHash (qc q))
                (List.map proTxHash (members q)).

Definition SetVerificationVector (q : CQuorum) (quorumVecIn : list CBLSPublicKey)
  : bool * CQuorum :=
  let quorumVecInSerialized := SerializeHash quorumVecIn in
  if negb (quorumVecInSerialized =? quorumVvecHash (qc q)) then (false, q)
  else (true, set_quorumVvec (Some quorumVecIn) q).

Definition HasVerificationVector (q : CQuorum) : bool :=
  match quorumVvec q with
  | Some _ => true
  | None => false
  end.

Fixpoint find_member (ms : list CDeterministicMN) (h : uint256) (i : nat) : option nat :=
  match ms with
  | [] => None
  | m :: rest => if proTxHash m =? h then Some i else find_member rest h (S i)
  end.

Definition GetMemberIndex (q : CQuorum) (h : uint256) : Z :=
  match find_member (members q) h 0 with
  | Some i => Z.of_nat i
  | None => -1
  end.

Definition IsValidMember (q : CQuorum) (h : uint256) : bool :=
  match find_member (members q) h 0 with
  | Some i => bit (validMembers (qc q)) i
  | None => false
  end.

(** [IsMember]: [ranges::any_of] over the members. *)
Definition IsMember (q : CQuorum) (h : uint256) : bool :=
  existsb (fun dmn => proTxHash dmn =? h) (members q).

Definition GetSkShare (q : CQuorum) : CBLSSecretKey := skShare q.

(** [memberIdx] is a [size_t]. *)
Definition GetPubKeyShare (q : CQuorum) (memberIdx : Z) : CBLSPublicKey :=
  match quorumVvec q with
  | None => CBLSPublicKey_default
  | Some vvec =>
      if (Z.of_nat (length (members q)) <=? memberIdx)
         || negb (bit (validMembers (qc q)) (Z.to_nat memberIdx))
      then CBLSPublicKey_default
      else match nth_error (members q) (Z.to_nat memberIdx) with
           | Some m => BuildPubKeyShare (proTxHash m) vvec (proTxHash m)
           | None => CBLSPublicKey_default
           end
  end.

Definition CBLSPublicKey_eqb (a b : CBLSPublicKey) : bool :=
  Bool.eqb (pk_fValid a) (pk_fValid b) && (pk_repr a =? pk_repr b).

Definition SetSecretKeyShare (me : ActiveMasternodeInfo) (q : CQuorum)
    (secretKeyShare : CBLSSecretKey) : bool * CQuorum :=
  if negb (sk_fValid secretKeyShare)
     || negb (CBLSPublicKey_eqb (GetPublicKey secretKeyShare)
                (GetPubKeyShare q (to_size_t (GetMemberIndex q (activeProTxHash me)))))
  then (false, q)
  else (true, set_skShare secretKeyShare q).

Definition WriteContributions (q : CQuorum) (db : gmap (string * Z) DbValue)
  : gmap (string * Z) DbValue :=
  let dbKey := MakeQuorumKey q in
  let db1 := match quorumVvec q with
             | Some v => <[(DB_QUORUM_QUORUM_VVEC, dbKey) := DbVvec v]> db
             | None => db
             end in
  if sk_fValid (skShare q)
  then <[(DB_QUORUM_SK_SHARE, dbKey) := DbSkShare (skShare q)]> db1
  else db1.

Definition ReadContributions (q : CQuorum) (db : gmap (string * Z) DbValue)
  : bool * CQuorum :=
  let dbKey := MakeQuorumKey q in
  match db !! (DB_QUORUM_QUORUM_VVEC, dbKey) with
  | Some (DbVvec qv) =>
      let q1 := set_quorumVvec (Some qv) q in
      match db !! (DB_QUORUM_SK_SHARE, dbKey) with
      | Some (DbSkShare s) => (true, set_skShare s q1)
      | _ => (true, q1)
      end
  | _ => (false, q)
  end.

Definition BuildQuorumContributions (fqc : CFinalCommitment) (q : CQuorum)
  : bool * CQuorum :=
  match GetVerifiedContributions (llmqType fqc) (pindexQuorum q) (validMembers fqc) with
  | None => (false, q)
  | Some (_, vvecs, skContributions) =>
      let q1 := set_quorumVvec (BuildQuorumVerificationVector vvecs) q in
      if negb (HasVerificationVector q1) then (false, q1)
      else
        let s := AggregateSecretKeys skContributions in
        (true, set_skShare (if sk_fValid s then s else CBLSSecretKey_default) q1)
  end.

(** ** The block processor's store *)

(** Modelled from the spec: [CQuorumBlockProcessor] lives in
    llmq/blockprocessor.cpp, which is not among the sources. The store is
    "durable commitment storage" looked up by quorum type and anchor hash
    (section 4.3), and a scan "returns up to count most-recently-mined
    quorums of a type, walking backward from startBlock": the anchor blocks
    met along [pprev] from the start block that have a mined commitment of
    the type, most recent first. A scan from the predecessor of one of them
    therefore continues the list after it. *)
Definition is_commitment_for (t : LLMQType) (h : uint256)
    (e : CFinalCommitment * Z) : bool :=
  (llmqType (fst e) =? t) && (quorumHash (fst e) =? h).

Definition HasMinedCommitment (db : list (CFinalCommitment * Z))
    (t : LLMQType) (h : uint256) : bool :=
  existsb (is_commitment_for t h) db.

Definition GetMinedCommitment (db : list (CFinalCommitment * Z))
    (t : LLMQType) (h : uint256) : option (CFinalCommitment * Z) :=
  List.find (is_commitment_for t h) db.

Fixpoint minedAnchors (db : list (CFinalCommitment * Z)) (t : LLMQType)
    (p : CBlockIndex) : list CBlockIndex :=
  match p with
  | mkBlockIndex h _ pp =>
      let older := match pp with
                   | Some q => minedAnchors db t q
                   | None => []
                   end in
      if HasMinedCommitment db t h then p :: older else older
  end.

Definition GetMinedCommitmentsUntilBlock (db : list (CFinalCommitment * Z))
    (t : LLMQType) (pindex : option CBlockIndex) (maxCount : nat)
  : list CBlockIndex :=
  match pindex with
  | None => []
  | Some p => take maxCount (minedAnchors db t p)
  end.

(** ** The quorum manager *)

Definition HasQuorum (st : NodeState) (t : LLMQType) (h : uint256) : bool :=
  HasMinedCommitment (minedCommitments st) t h.

Definition StartCachePopulatorThread (pQuorum : nat) (st : NodeState) : NodeState :=
  match quorums st !! pQuorum with
  | Some q =>
      if negb (HasVerificationVector q) then st
      else set_workerPool (workerPool st ++ [pQuorum]) st
  | None => st
  end.

Definition BuildQuorumFromCommitment (t : LLMQType) (pindexQuorum : CBlockIndex)
    (st : NodeState) : Result (option nat * NodeState) :=
  let quorumHash_ := GetBlockHash pindexQuorum in
  match GetMinedCommitment (minedCommitments st) t quorumHash_ with
  | None => Ok (None, st)
  | Some (qc_, minedBlockHash_) =>
    if negb (quorumHash qc_ =? GetBlockHash pindexQuorum) then Stop AssertionFailure st
    else match llmqs !! t with
    | None => Stop OutOfRange st
    | Some params_ =>
      let quorum := length (quorums st) in
      let members_ := GetAllQuorumMembers (llmqType qc_) pindexQuorum in
      let q0 := mkQuorum params_ qc_ pindexQuorum minedBlockHash_ members_
                         None CBLSSecretKey_default false in
      let '(hasValidVvec, q, db) :=
        match ReadContributions q0 (evoDb st) with
        | (true, q1) => (true, q1, evoDb st)
        | (false, q1) =>
            match BuildQuorumContributions qc_ q1 with
            | (true, q2) => (true, q2, WriteContributions q2 (evoDb st))
            | (false, q2) => (false, q2, evoDb st)
            end
        end in
      let st1 := set_evoDb db (set_quorums (quorums st ++ [q]) st) in
      let st2 := if hasValidVvec then StartCachePopulatorThread quorum st1 else st1 in
      let cache := cache_at (mapQuorumsCache st2) t in
      Ok (Some quorum,
          set_mapQuorumsCache
            (<[t := cache_insert quorumHash_ quorum cache]> (mapQuorumsCache st2)) st2)
    end
  end.

(** [GetQuorum(llmqType, pindexQuorum)]; the pointer is asserted non-null. *)
Definition GetQuorum (t : LLMQType) (pindexQuorum : CBlockIndex) (st : NodeState)
  : Result (option nat * NodeState) :=
  let quorumHash_ := GetBlockHash pindexQuorum in
  if negb (HasQuorum st t quorumHash_) then Ok (None, st)
  else
    let '(pQuorum, cache) := cache_get quorumHash_ (cache_at (mapQuorumsCache st) t) in
    let st1 := set_mapQuorumsCache (<[t := cache]> (mapQuorumsCache st)) st in
    match pQuorum with
    | Some p => Ok (Some p, st1)
    | None => BuildQuorumFromCommitment t pindexQuorum st1
    end.

(** [GetQuorum(llmqType, quorumHash)]. *)
Definition GetQuorumByHash (t : LLMQType) (h : uint256) (st : NodeState)
  : Result (option nat * NodeState) :=
  match LookupBlockIndex (mapBlockIndex st) h with
  | None => Ok (None, st)
  | Some pindexQuorum => GetQuorum t pindexQuorum st
  end.

(** The loop of [ScanQuorums] over the scanned block indexes, with its
    [assert(quorum != nullptr)]. *)
Fixpoint GetQuorums (t : LLMQType) (quorumIndexes : list CBlockIndex) (st : NodeState)
  : Result (list nat * NodeState) :=
  match quorumIndexes with
  | [] => Ok ([], st)
  | quorumIndex :: rest =>
      bind (GetQuorum t quorumIndex st) (fun r =>
        match fst r with
        | None => Stop AssertionFailure (snd r)
        | Some quorum =>
            bind (GetQuorums t rest (snd r)) (fun r' =>
              Ok (quorum :: fst r', snd r'))
        end)
  end.

(** The part of [ScanQuorums] after the cache lookup: scan, build, cache
    (unless the cache had an entry) and cut to the requested count. *)
Definition scan_from (t : LLMQType) (pindexStart : CBlockIndex)
    (nCountRequested : nat) (fCacheExists : bool)
    (vecResultQuorums : list nat) (pIndexScanCommitments : option CBlockIndex)
    (nScanCommitments : nat) (st : NodeState) : Result (list nat * NodeState) :=
  let quorumIndexes :=
    GetMinedCommitmentsUntilBlock (minedCommitments st) t pIndexScanCommitments
                                  nScanCommitments in
  bind (GetQuorums t quorumIndexes st) (fun r =>
    let vecResultQuorums := vecResultQuorums ++ fst r in
    let st1 := snd r in
    let nCountResult := length vecResultQuorums in
    let st2 :=
      if (0 <? nCountResult)%nat && negb fCacheExists then
        let cache := cache_at (scanQuorumsCache st1) t in
        let nCacheEndIndex := Nat.min nCountResult (max_size cache) in
        set_scanQuorumsCache
          (<[t := cache_insert (GetBlockHash pindexStart)
                   (take nCacheEndIndex vecResultQuorums) cache]>
             (scanQuorumsCache st1)) st1
      else st1 in
    let nResultEndIndex := Nat.min nCountResult nCountRequested in
    Ok (take nResultEndIndex vecResultQuorums, st2)).

Definition ScanQuorums (t : LLMQType) (pindexStart : option CBlockIndex)
    (nCountRequested : nat) (st : NodeState) : Result (list nat * NodeState) :=
  match pindexStart with
  | None => Ok ([], st)
  | Some start =>
    if (nCountRequested =? 0)%nat then Ok ([], st)
    else
      let cache := cache_at (scanQuorumsCache st) t in
      let '(hit, cache') := cache_get (GetBlockHash start) cache in
      let st1 := set_scanQuorumsCache (<[t := cache']> (scanQuorumsCache st)) st in
      match hit with
      | Some vecResultQuorums =>
          if (length vecResultQuorums =? nCountRequested)%nat
          then Ok (vecResultQuorums, st1)
          else if (nCountRequested <? length vecResultQuorums)%nat
          then Ok (take nCountRequested vecResultQuorums, st1)
          else
            match last vecResultQuorums with
            | Some back =>
                match quorums st1 !! back with
                | Some q =>
                    scan_from t start nCountRequested true vecResultQuorums
                              (pprev (pindexQuorum q))
                              (nCountRequested - length vecResultQuorums) st1
                | None => Stop NullDereference st1
                end
            | None =>
                scan_from t start nCountRequested true vecResultQuorums
                          (Some start) nCountRequested st1
            end
      | None =>
          scan_from t start nCountRequested false [] (Some start)
                    (Nat.max nCountRequested (max_size cache)) st1
      end
  end.

End Quorum.

(** [NetMsgType::QGETDATA] and [NetMsgType::QDATA], the two message kinds of
    section 6. The handlers only compare the command with them. *)
Module NetMsgType.
Definition QGETDATA : string := "qgetdata".
Definition QDATA : string := "qdata".
End NetMsgType.

Section Messages.
Context {ext : Externals}.

Definition RequestQuorumData (now : Z) (pFrom : option CNode.t) (t : LLMQType)
    (pQuorumIndex : option CBlockIndex) (nDataMask : Z) (proTxHash_ : uint256)
    (st : NodeState) : Result (bool * NodeState) :=
  match pFrom with
  | None => Ok (false, st)
  | Some from =>
    if CNode.nVersion from <? LLMQ_DATA_MESSAGES_VERSION then Ok (false, st)
    else if uint256_IsNull (CNode.verifiedProRegTxHash from) && negb (CNode.qwatch from)
    then Ok (false, st)
    else match llmqs !! t with
    | None => Ok (false, st)
    | Some _ =>
      match pQuorumIndex with
      | None => Ok (false, st)
      | Some pQuorumIndex_ =>
        bind (GetQuorum t pQuorumIndex_ st) (fun r =>
          match fst r with
          | None => Ok (false, snd r)
          | Some _ =>
            let st1 := snd r in
            let key := (CNode.verifiedProRegTxHash from, true) in
            (* emplace: an existing entry stays as it is *)
            match mapQuorumDataRequests st1 !! key with
            | Some existing =>
                if negb (IsExpired now existing) then Ok (false, st1)
                else Ok (true,
                         set_vSendMsg
                           (vSendMsg st1 ++ [QGETDATA (CNode.id from) existing]) st1)
            | None =>
                let request :=
                  CQuorumDataRequest.make now t (GetBlockHash pQuorumIndex_)
                                          nDataMask proTxHash_ in
                Ok (true,
                    set_vSendMsg (vSendMsg st1 ++ [QGETDATA (CNode.id from) request])
                      (set_mapQuorumDataRequests
                         (<[key := request]> (mapQuorumDataRequests st1)) st1))
            end
          end)
      end
    end
  end.

(** The [errorHandler] lambda of [ProcessMessage]. *)
Definition errorHandler (pFrom : CNode.t) (strError : string) (nScore : Z)
    (st : NodeState) : NodeState :=
  let st1 := set_errorLog (errorLog st ++ [strError]) st in
  if 0 <? nScore
  then set_misbehaving (misbehaving st1 ++ [(CNode.id pFrom, nScore)]) st1
  else st1.

(** The [sendQDATA] lambda of the QGETDATA handler. *)
Definition sendQDATA (pFrom : CNode.t) (request : CQuorumDataRequest.t)
    (nError : CQuorumDataRequest.Errors) (body : QDataBody) (st : NodeState)
  : NodeState :=
  set_vSendMsg
    (vSendMsg st ++ [QDATA (CNode.id pFrom) (CQuorumDataRequest.SetError request nError) body])
    st.

Definition emptyBody : QDataBody := mkBody None None.

(** The block of the QGETDATA handler that holds [cs_data_requests]: the
    request is recorded unless an unexpired one is on record for the peer, in
    which case the peer is scored. There is no [return] in that branch. *)
Definition QGETDATA_limit (now : Z) (pFrom : CNode.t) (request : CQuorumDataRequest.t)
    (st : NodeState) : NodeState :=
  let key := (CNode.verifiedProRegTxHash pFrom, false) in
  match mapQuorumDataRequests st !! key with
  | None =>
      set_mapQuorumDataRequests (<[key := request]> (mapQuorumDataRequests st)) st
  | Some stored =>
      if IsExpired now stored
      then set_mapQuorumDataRequests
             (<[key := request]> (mapQuorumDataRequests st)) st
      else errorHandler pFrom "Request limit exceeded" 25 st
  end.

(** The rest of the QGETDATA handler: every path ends in one [sendQDATA]. *)
Definition QGETDATA_serve (pFrom : CNode.t) (request : CQuorumDataRequest.t)
    (st1 : NodeState) : Result NodeState :=
  match llmqs !! CQuorumDataRequest.llmqType request with
  | None =>
      Ok (sendQDATA pFrom request CQuorumDataRequest.QUORUM_TYPE_INVALID emptyBody st1)
  | Some _ =>
    match LookupBlockIndex (mapBlockIndex st1) (CQuorumDataRequest.quorumHash request) with
    | None =>
        Ok (sendQDATA pFrom request CQuorumDataRequest.QUORUM_BLOCK_NOT_FOUND
                      emptyBody st1)
    | Some pQuorumIndex =>
      bind (GetQuorum (CQuorumDataRequest.llmqType request) pQuorumIndex st1) (fun r =>
        let st2 := snd r in
        match fst r with
        | None =>
            Ok (sendQDATA pFrom request CQuorumDataRequest.QUORUM_NOT_FOUND emptyBody st2)
        | Some pQuorum =>
          match quorums st2 !! pQuorum with
          | None => Stop NullDereference st2
          | Some q =>
            let wantsVvec :=
              CQuorumDataRequest.wants request
                CQuorumDataRequest.QUORUM_VERIFICATION_VECTOR in
            let wantsContributions :=
              CQuorumDataRequest.wants request
                CQuorumDataRequest.ENCRYPTED_CONTRIBUTIONS in
            if wantsVvec && negb (HasVerificationVector q)
            then Ok (sendQDATA pFrom request
                       CQuorumDataRequest.QUORUM_VERIFICATION_VECTOR_MISSING
                       emptyBody st2)
            else
              let vvecPart := if wantsVvec then quorumVvec q else None in
              if wantsContributions then
                if GetMemberIndex q (CQuorumDataRequest.proTxHash request) =? -1
                then Ok (sendQDATA pFrom request
                           CQuorumDataRequest.MASTERNODE_IS_NO_MEMBER emptyBody st2)
                else
                  match GetEncryptedContributions
                          (CQuorumDataRequest.llmqType request) pQuorumIndex
                          (validMembers (qc q))
                          (CQuorumDataRequest.proTxHash request) with
                  | None =>
                      Ok (sendQDATA pFrom request
                            CQuorumDataRequest.ENCRYPTED_CONTRIBUTIONS_MISSING
                            emptyBody st2)
                  | Some vecEncrypted =>
                      Ok (sendQDATA pFrom request CQuorumDataRequest.NONE
                            (mkBody vvecPart (Some vecEncrypted)) st2)
                  end
              else Ok (sendQDATA pFrom request CQuorumDataRequest.NONE
                         (mkBody vvecPart None) st2)
          end
        end)
    end
  end.

(** The QGETDATA branch of [ProcessMessage]. The peer is a live connection:
    the network layer never passes a null [pFrom]. *)
Definition ProcessMessage_QGETDATA (now : Z) (pFrom : CNode.t) (vRecv : CDataStream)
    (st : NodeState) : Result NodeState :=
  if negb (fMasternodeMode (self st))
     || (uint256_IsNull (CNode.verifiedProRegTxHash pFrom) && negb (CNode.qwatch pFrom))
  then Ok (errorHandler pFrom "Not a verified masternode or a qwatch connection" 10 st)
  else match ds_request vRecv with
  | None => Stop StreamFailure st
  | Some request => QGETDATA_serve pFrom request (QGETDATA_limit now pFrom request st)
  end.

(** The decryption loop of the QDATA handler: the first share that does not
    decrypt ends it. *)
Fixpoint decrypt_all (memberIdx : Z) (secret : CBLSSecretKey)
    (vecEncrypted : list CBLSIESEncryptedObject) : option (list CBLSSecretKey) :=
  match vecEncrypted with
  | [] => Some []
  | e :: rest =>
      match Decrypt memberIdx secret e with
      | None => None
      | Some k =>
          match decrypt_all memberIdx secret rest with
          | None => None
          | Some ks => Some (k :: ks)
          end
      end
  end.

(** [strprintf("Error %d", request.GetError())]. *)
Definition error_text (e : CQuorumDataRequest.Errors) : string :=
  match e with
  | CQuorumDataRequest.NONE => "Error 0"
  | CQuorumDataRequest.UNDEFINED => "Error 1"
  | CQuorumDataRequest.QUORUM_TYPE_INVALID => "Error 2"
  | CQuorumDataRequest.QUORUM_BLOCK_NOT_FOUND => "Error 3"
  | CQuorumDataRequest.QUORUM_NOT_FOUND => "Error 4"
  | CQuorumDataRequest.MASTERNODE_IS_NO_MEMBER => "Error 5"
  | CQuorumDataRequest.QUORUM_VERIFICATION_VECTOR_MISSING => "Error 6"
  | CQuorumDataRequest.ENCRYPTED_CONTRIBUTIONS_MISSING => "Error 7"
  end.

(** The end of the QDATA handler: [pQuorum->WriteContributions(evoDb)]. *)
Definition QDATA_write (pQuorum : nat) (st : NodeState) : Result NodeState :=
  match quorums st !! pQuorum with
  | None => Stop NullDereference st
  | Some q => Ok (set_evoDb (WriteContributions q (evoDb st)) st)
  end.

(** The ENCRYPTED_CONTRIBUTIONS block of the QDATA handler and what follows
    it. [pQuorum->quorumVvec->size()] dereferences the vector pointer. *)
Definition QDATA_contributions (pFrom : CNode.t) (request : CQuorumDataRequest.t)
    (vRecv : CDataStream) (pQuorum : nat) (st : NodeState) : Result NodeState :=
  if CQuorumDataRequest.wants request CQuorumDataRequest.ENCRYPTED_CONTRIBUTIONS then
    match quorums st !! pQuorum with
    | None => Stop NullDereference st
    | Some q =>
      match quorumVvec q with
      | None => Stop NullDereference st
      | Some vvec =>
        if negb (Z.of_nat (length vvec) =? to_size_t (llmq_threshold (params q)))
        then Ok (errorHandler pFrom "No valid quorum verification vector available" 0 st)
        else
          let memberIdx := GetMemberIndex q (CQuorumDataRequest.proTxHash request) in
          if memberIdx =? -1
          then Ok (errorHandler pFrom "Not a member of the quorum" 0 st)
          else match ds_contributions vRecv with
          | None => Stop StreamFailure st
          | Some vecEncrypted =>
            match blsKeyOperator (self st) with
            | None => Stop NullDereference st
            | Some secret =>
              match decrypt_all memberIdx secret vecEncrypted with
              | None => Ok (errorHandler pFrom "Failed to decrypt" 10 st)
              | Some vecSecretKeys =>
                let secretKeyShare := AggregateSecretKeys vecSecretKeys in
                match SetSecretKeyShare (self st) q secretKeyShare with
                | (false, _) =>
                    Ok (errorHandler pFrom "Invalid secret key share received" 10 st)
                | (true, q') =>
                    QDATA_write pQuorum (set_quorums (<[pQuorum := q']> (quorums st)) st)
                end
              end
            end
          end
      end
    end
  else QDATA_write pQuorum st.

(** The QUORUM_VERIFICATION_VECTOR block of the QDATA handler and what
    follows it. *)
Definition QDATA_vvec (pFrom : CNode.t) (request : CQuorumDataRequest.t)
    (vRecv : CDataStream) (pQuorum : nat) (st : NodeState) : Result NodeState :=
  if CQuorumDataRequest.wants request CQuorumDataRequest.QUORUM_VERIFICATION_VECTOR then
    match ds_vvec vRecv with
    | None => Stop StreamFailure st
    | Some verificationVector =>
      match quorums st !! pQuorum with
      | None => Stop NullDereference st
      | Some q =>
        match SetVerificationVector q verificationVector with
        | (true, q') =>
            QDATA_contributions pFrom request vRecv pQuorum
              (StartCachePopulatorThread pQuorum
                 (set_quorums (<[pQuorum := q']> (quorums st)) st))
        | (false, _) =>
            Ok (errorHandler pFrom "Invalid quorum verification vector" 10 st)
        end
      end
    end
  else QDATA_contributions pFrom request vRecv pQuorum st.

(** The QDATA branch of [ProcessMessage]. *)
Definition ProcessMessage_QDATA (pFrom : CNode.t) (vRecv : CDataStream)
    (st : NodeState) : Result NodeState :=
  let verifiedProRegTxHash := CNode.verifiedProRegTxHash pFrom in
  if (negb (fMasternodeMode (self st)) && negb (fWatchQuorums (self st)))
     || (uint256_IsNull verifiedProRegTxHash && negb (CNode.qwatch pFrom))
  then Ok (errorHandler pFrom "Not a verified masternode or a qwatch connection" 10 st)
  else match ds_request vRecv with
  | None => Stop StreamFailure st
  | Some request =>
    let key := (verifiedProRegTxHash, true) in
    match mapQuorumDataRequests st !! key with
    | None => Ok (errorHandler pFrom "Not requested" 10 st)
    | Some stored =>
      if CQuorumDataRequest.fProcessed stored
      then Ok (errorHandler pFrom "Already received" 10 st)
      else if negb (CQuorumDataRequest.eqb request stored)
      then Ok (errorHandler pFrom "Not like requested" 10 st)
      else
        let st1 :=
          set_mapQuorumDataRequests
            (<[key := CQuorumDataRequest.SetProcessed stored]> (mapQuorumDataRequests st))
            st in
        if negb (CQuorumDataRequest.Errors_eqb (CQuorumDataRequest.nError request)
                   CQuorumDataRequest.NONE)
        then Ok (errorHandler pFrom (error_text (CQuorumDataRequest.nError request)) 0 st1)
        else
          let t := CQuorumDataRequest.llmqType request in
          let '(found, cache) :=
            cache_get (CQuorumDataRequest.quorumHash request)
                      (cache_at (mapQuorumsCache st1) t) in
          let st2 := set_mapQuorumsCache (<[t := cache]> (mapQuorumsCache st1)) st1 in
          match found with
          | None => Ok (errorHandler pFrom "Quorum not found" 0 st2)
          | Some pQuorum => QDATA_vvec pFrom request vRecv pQuorum st2
          end
    end
  end.

Definition ProcessMessage (now : Z) (pFrom : CNode.t) (strCommand : string)
    (vRecv : CDataStream) (st : NodeState) : Result NodeState :=
  if String.eqb strCommand NetMsgType.QGETDATA
  then ProcessMessage_QGETDATA now pFrom vRecv st
  else if String.eqb strCommand NetMsgType.QDATA
  then ProcessMessage_QDATA pFrom vRecv st
  else Ok st.

End Messages.

(** ** The block-tip hook and the start of data recovery *)

(** [CQuorumManager::Start]: the size that the worker pool is given.
    [std::thread::hardware_concurrency()] is an [unsigned int], and half of
    it fits the [int] it is assigned to. *)
Definition Start_workerCount (hardware_concurrency : Z) : Z :=
  let workerCount := to_uint32 hardware_concurrency / 2 in
  let workerCount := Z.max (Z.min 1 workerCount) 4 in
  workerCount.

(** [QvvecSyncMode], with the enumerators that
    [TriggerQuorumDataRecoveryThreads] names. *)
Module QvvecSyncMode.
Inductive t : Type := Invalid | Always | OnlyIfTypeMember.

Definition eqb (a b : t) : bool :=
  match a, b with
  | Invalid, Invalid | Always, Always | OnlyIfTypeMember, OnlyIfTypeMember => true
  | _, _ => false
  end.
End QvvecSyncMode.

(** What the task that [StartQuorumDataRecoveryThread] pushes to the worker
    pool captures. *)
Record RecoveryTask : Type := mkRecoveryTask {
  task_pQuorum : nat;
  task_pIndex : CBlockIndex;
  task_nDataMaskIn : Z
}.

Definition set_fQuorumDataRecoveryThreadRunning (b : bool) (q : CQuorum) : CQuorum :=
  {| params := params q; qc := qc q; pindexQuorum := pindexQuorum q;
     minedBlockHash := minedBlockHash q; members := members q;
     quorumVvec := quorumVvec q; skShare := skShare q;
     fQuorumDataRecoveryThreadRunning := b |}.

Section Recovery.
Context {ext : Externals}.

(** [CLLMQUtils::QuorumDataRecoveryEnabled()] and
    [CLLMQUtils::GetEnabledQuorumVvecSyncEntries()]. *)
Variable QuorumDataRecoveryEnabled : bool.
Variable mapQuorumVvecSync : gmap Z QvvecSyncMode.t.

(** The loop of [UpdatedBlockTip] under [cs_data_requests]: every entry of
    the request table is visited once, and erased when it is expired. *)
Definition erase_if_expired (now : Z)
    (requests : gmap (Z * bool) CQuorumDataRequest.t)
    (it : (Z * bool) * CQuorumDataRequest.t) : gmap (Z * bool) CQuorumDataRequest.t :=
  if IsExpired now (snd it) then delete (fst it) requests else requests.

Definition UpdatedBlockTip_cleanup (now : Z) (st : NodeState) : NodeState :=
  set_mapQuorumDataRequests
    (fold_left (erase_if_expired now) (map_to_list (mapQuorumDataRequests st))
               (mapQuorumDataRequests st))
    st.

(** The head of [StartQuorumDataRecoveryThread]: at most one recovery task
    per quorum object. The task itself runs on the worker pool; [tasks] are
    the tasks pushed so far. *)
Definition StartQuorumDataRecoveryThread (pQuorum : nat) (pIndex : CBlockIndex)
    (nDataMaskIn : Z) (st : NodeState) (tasks : list RecoveryTask)
  : Result (NodeState * list RecoveryTask) :=
  match quorums st !! pQuorum with
  | None => Stop NullDereference st
  | Some q =>
      if fQuorumDataRecoveryThreadRunning q then Ok (st, tasks)
      else Ok (set_quorums
                 (<[pQuorum := set_fQuorumDataRecoveryThreadRunning true q]> (quorums st))
                 st,
               tasks ++ [mkRecoveryTask pQuorum pIndex nDataMaskIn])
  end.

(** The data mask that [TriggerQuorumDataRecoveryThreads] computes for one
    quorum. *)
Definition recovery_data_mask (proTxHash_ : uint256) (fWeAreQuorumTypeMember : bool)
    (pQuorum : CQuorum) : Z :=
  let nDataMask := 0 in
  let fWeAreQuorumMember := IsValidMember pQuorum proTxHash_ in
  let fSyncForTypeEnabled :=
    bool_decide (is_Some (mapQuorumVvecSync !! llmqType (qc pQuorum))) in
  let syncMode :=
    match mapQuorumVvecSync !! llmqType (qc pQuorum) with
    | Some mode => mode
    | None => QvvecSyncMode.Invalid
    end in
  let fSyncCurrent :=
    QvvecSyncMode.eqb syncMode QvvecSyncMode.Always
    || (QvvecSyncMode.eqb syncMode QvvecSyncMode.OnlyIfTypeMember
        && fWeAreQuorumTypeMember) in
  let nDataMask :=
    if (fWeAreQuorumMember || (fSyncForTypeEnabled && fSyncCurrent))
       && negb (HasVerificationVector pQuorum)
    then Z.lor nDataMask CQuorumDataRequest.QUORUM_VERIFICATION_VECTOR
    else nDataMask in
  let nDataMask :=
    if fWeAreQuorumMember && negb (sk_fValid (GetSkShare pQuorum))
    then Z.lor nDataMask CQuorumDataRequest.ENCRYPTED_CONTRIBUTIONS
    else nDataMask in
  nDataMask.

(** [ranges::any_of(vecQuorums, IsValidMember)]; [None] is the dereference
    of a null quorum pointer. *)
Fixpoint any_valid_member (proTxHash_ : uint256) (vecQuorums : list nat) (st : NodeState)
  : option bool :=
  match vecQuorums with
  | [] => Some false
  | pQuorum :: rest =>
      match quorums st !! pQuorum with
      | None => None
      | Some q =>
          if IsValidMember q proTxHash_ then Some true
          else any_valid_member proTxHash_ rest st
      end
  end.

(** The inner loop of [TriggerQuorumDataRecoveryThreads], over the quorums
    of one type. *)
Fixpoint trigger_quorums (pIndex : CBlockIndex) (proTxHash_ : uint256)
    (fWeAreQuorumTypeMember : bool) (vecQuorums : list nat) (st : NodeState)
    (tasks : list RecoveryTask) : Result (NodeState * list RecoveryTask) :=
  match vecQuorums with
  | [] => Ok (st, tasks)
  | pQuorum :: rest =>
      match quorums st !! pQuorum with
      | None => Stop NullDereference st
      | Some q =>
          if fQuorumDataRecoveryThreadRunning q
          then trigger_quorums pIndex proTxHash_ fWeAreQuorumTypeMember rest st tasks
          else
            let nDataMask := recovery_data_mask proTxHash_ fWeAreQuorumTypeMember q in
            if nDataMask =? 0
            then trigger_quorums pIndex proTxHash_ fWeAreQuorumTypeMember rest st tasks
            else
              bind (StartQuorumDataRecoveryThread pQuorum pIndex nDataMask st tasks)
                   (fun r => trigger_quorums pIndex proTxHash_ fWeAreQuorumTypeMember
                                             rest (fst r) (snd r))
      end
  end.

(** The body of the outer loop, for one entry of [llmqs]. *)
Definition trigger_type (pIndex : CBlockIndex) (llmq : LLMQType * LLMQParams)
    (st : NodeState) (tasks : list RecoveryTask) : Result (NodeState * list RecoveryTask) :=
  bind (ScanQuorums (fst llmq) (Some pIndex)
          (Z.to_nat (to_size_t (llmq_signingActiveQuorumCount (snd llmq) + 1))) st)
       (fun r =>
          let vecQuorums := fst r in
          let st1 := snd r in
          let proTxHash_ := activeProTxHash (self st1) in
          match any_valid_member proTxHash_ vecQuorums st1 with
          | None => Stop NullDereference st1
          | Some fWeAreQuorumTypeMember =>
              trigger_quorums pIndex proTxHash_ fWeAreQuorumTypeMember vecQuorums
                              st1 tasks
          end).

Fixpoint trigger_types (pIndex : CBlockIndex) (types : list (LLMQType * LLMQParams))
    (st : NodeState) (tasks : list RecoveryTask) : Result (NodeState * list RecoveryTask) :=
  match types with
  | [] => Ok (st, tasks)
  | llmq :: rest =>
      bind (trigger_type pIndex llmq st tasks)
           (fun r => trigger_types pIndex rest (fst r) (snd r))
  end.

(** [Params().GetConsensus().llmqs] in the order of a [std::map]: by type. *)
Definition llmqs_in_order : list (LLMQType * LLMQParams) :=
  @merge_sort _ (fun a b => fst a <= fst b) (fun a b => decide (fst a <= fst b))
              (map_to_list llmqs).

Definition TriggerQuorumDataRecoveryThreads (pIndex : option CBlockIndex) (st : NodeState)
  : Result (NodeState * list RecoveryTask) :=
  match pIndex with
  | Some pIndex_ =>
      if negb (fMasternodeMode (self st)) || negb QuorumDataRecoveryEnabled
      then Ok (st, [])
      else trigger_types pIndex_ llmqs_in_order st []
  | None => Ok (st, [])
  end.

(** [deterministicMNManager->GetListForBlock(pIndex)], by the proTxHashes
    that [ForEachMN(true, ...)] visits: those of the valid masternodes. *)
Variable GetValidMNs : CBlockIndex -> list uint256.

(** The loop that looks for the node's own proTxHash: the first index at
    which it stands, and 0 when it stands nowhere. *)
Fixpoint first_index (h : uint256) (vecProTxHashes : list uint256) (i : nat) : nat :=
  match vecProTxHashes with
  | [] => 0%nat
  | x :: rest => if h =? x then i else first_index h rest (S i)
  end.

(** [GetQuorumRecoveryStartOffset]. [std::sort] orders the hashes; the
    remainder by the size of an empty [validMembers] is undefined, which is
    [None]. *)
Definition GetQuorumRecoveryStartOffset (pQuorum : CQuorum) (pIndex : CBlockIndex)
    (me : ActiveMasternodeInfo) : option nat :=
  let vecProTxHashes := merge_sort Z.le (GetValidMNs pIndex) in
  let nIndex := first_index (activeProTxHash me) vecProTxHashes 0 in
  match length (validMembers (qc pQuorum)) with
  | O => None
  | S _ as size => Some (nIndex mod size)%nat
  end.

(** [vecMemberHashes] of the recovery task: the valid members of the quorum
    other than the node itself, sorted. *)
Definition recovery_member_hashes (pQuorum : CQuorum) (me : ActiveMasternodeInfo)
  : list uint256 :=
  merge_sort Z.le
    (List.map proTxHash
       (List.filter
          (fun member =>
             IsValidMember pQuorum (proTxHash member)
             && negb (proTxHash member =? activeProTxHash me))
          (members pQuorum))).

(** The member that the recovery task turns to at its try number [nTries]:
    [vecMemberHashes[(nMyStartOffset + nTries++) % vecMemberHashes.size()]],
    and [None] once [nTries >= vecMemberHashes.size()], where the task gives
    up. *)
Definition recovery_next_member (vecMemberHashes : list uint256)
    (nMyStartOffset nTries : nat) : option uint256 :=
  if (length vecMemberHashes <=? nTries)%nat then None
  else vecMemberHashes !! ((nMyStartOffset + nTries) mod length vecMemberHashes)%nat.

End Recovery.

Section Connections.
Context {ext : Externals}.

(** The connection manager [g_connman], as far as the block-tip hook uses it:
    its state, the quorums it holds connections for, and the removal of the
    connections of one quorum. [CLLMQUtils::EnsureQuorumConnections] works on
    it as well. *)
Variable CConnman : Type.
Variable GetMasternodeQuorums : CConnman -> LLMQType -> gset Z.
Variable RemoveMasternodeQuorumNodes : CConnman -> LLMQType -> uint256 -> CConnman.
Variable EnsureQuorumConnections_of :
  CConnman -> LLMQType -> CBlockIndex -> uint256 -> bool * CConnman.

(** [llmq_params.keepOldConnections] and [llmq_params.dkgInterval], both
    [int]. *)
Variable keepOldConnections : LLMQParams -> Z.
Variable dkgInterval : LLMQParams -> Z.

(** [CLLMQUtils::QuorumDataRecoveryEnabled()] and
    [CLLMQUtils::GetEnabledQuorumVvecSyncEntries()]. *)
Variable QuorumDataRecoveryEnabled : bool.
Variable mapQuorumVvecSync : gmap Z QvvecSyncMode.t.

(** The loop of [EnsureQuorumConnections] over the last quorums; [removed]
    are the calls of [RemoveMasternodeQuorumNodes] so far, each with its
    type and quorum hash. *)
Fixpoint ensure_connections (t : LLMQType) (connmanQuorumsToDelete : gset Z)
    (lastQuorums : list nat) (st : NodeState) (connman : CConnman)
    (removed : list (LLMQType * uint256)) : Result (CConnman * list (LLMQType * uint256)) :=
  match lastQuorums with
  | [] => Ok (connman, removed)
  | quorum :: rest =>
      match quorums st !! quorum with
      | None => Stop NullDereference st
      | Some q =>
          let '(ensured, connman1) :=
            EnsureQuorumConnections_of connman t (pindexQuorum q)
                                       (activeProTxHash (self st)) in
          if ensured
          then ensure_connections t connmanQuorumsToDelete rest st connman1 removed
          else if bool_decide (quorumHash (qc q) ∈ connmanQuorumsToDelete)
          then ensure_connections t connmanQuorumsToDelete rest st
                 (RemoveMasternodeQuorumNodes connman1 t (quorumHash (qc q)))
                 (removed ++ [(t, quorumHash (qc q))])
          else ensure_connections t connmanQuorumsToDelete rest st connman1 removed
      end
  end.

(** [EnsureQuorumConnections(llmqType, pindexNew)]. [GetLLMQParams] is an
    [at] on [llmqs]. The remainder of two [int]s is undefined for a
    [dkgInterval] of zero, and for the least [int] and minus one: that is
    [None]. *)
Definition EnsureQuorumConnections (t : LLMQType) (pindexNew : CBlockIndex)
    (st : NodeState) (connman : CConnman) (removed : list (LLMQType * uint256))
  : option (Result (NodeState * CConnman * list (LLMQType * uint256))) :=
  match llmqs !! t with
  | None => Some (Stop OutOfRange st)
  | Some llmq_params =>
      match ScanQuorums t (Some pindexNew)
              (Z.to_nat (to_size_t (keepOldConnections llmq_params))) st with
      | Stop f st1 => Some (Stop f st1)
      | Ok (lastQuorums, st1) =>
          let connmanQuorumsToDelete := GetMasternodeQuorums connman t in
          if (dkgInterval llmq_params =? 0)
             || ((nHeight pindexNew =? - 2 ^ 31) && (dkgInterval llmq_params =? -1))
          then None
          else
            let curDkgHeight :=
              nHeight pindexNew - Z.rem (nHeight pindexNew) (dkgInterval llmq_params) in
            match GetAncestor pindexNew curDkgHeight with
            | None => Some (Stop NullDereference st1)
            | Some b =>
                let curDkgBlock := GetBlockHash b in
                let connmanQuorumsToDelete := connmanQuorumsToDelete ∖ {[ curDkgBlock ]} in
                match ensure_connections t connmanQuorumsToDelete lastQuorums st1
                        connman removed with
                | Stop f st2 => Some (Stop f st2)
                | Ok (connman1, removed1) => Some (Ok (st1, connman1, removed1))
                end
            end
      end
  end.

(** The first loop of [UpdatedBlockTip], over the entries of [llmqs]. *)
Fixpoint ensure_types (pindexNew : CBlockIndex) (types : list (LLMQType * LLMQParams))
    (st : NodeState) (connman : CConnman) (removed : list (LLMQType * uint256))
  : option (Result (NodeState * CConnman * list (LLMQType * uint256))) :=
  match types with
  | [] => Some (Ok (st, connman, removed))
  | p :: rest =>
      match EnsureQuorumConnections (fst p) pindexNew st connman removed with
      | None => None
      | Some (Stop f st1) => Some (Stop f st1)
      | Some (Ok (st1, connman1, removed1)) =>
          ensure_types pindexNew rest st1 connman1 removed1
      end
  end.

(** [UpdatedBlockTip(pindexNew, fInitialDownload)], with what
    [masternodeSync.IsBlockchainSynced()] says. It leaves a node state, a
    connection manager, the removals of quorum connections it asked for and
    the recovery tasks it started. *)
Definition UpdatedBlockTip (IsBlockchainSynced : bool) (now : Z)
    (pindexNew : CBlockIndex) (st : NodeState) (connman : CConnman)
  : option (Result (NodeState * CConnman * list (LLMQType * uint256) * list RecoveryTask)) :=
  if negb IsBlockchainSynced then Some (Ok (st, connman, [], []))
  else
    match ensure_types pindexNew llmqs_in_order st connman [] with
    | None => None
    | Some (Stop f st1) => Some (Stop f st1)
    | Some (Ok (st1, connman1, removed)) =>
        let st2 := UpdatedBlockTip_cleanup now st1 in
        match TriggerQuorumDataRecoveryThreads QuorumDataRecoveryEnabled
                mapQuorumVvecSync (Some pindexNew) st2 with
        | Stop f st3 => Some (Stop f st3)
        | Ok (st3, tasks) => Some (Ok (st3, connman1, removed, tasks))
        end
    end.

End Connections.

(** * Vocabulary of the properties *)

(** What [state.DoS(100, false, REJECT_INVALID, reason)] returns. *)
Definition rejected (state : CValidationState) (reason : string)
  : bool * CValidationState :=
  (false, mkValidationState (nDoS state + 100) REJECT_INVALID reason).

(** The sender test at the head of the QGETDATA and of the QDATA handler. *)
Definition serves_QGETDATA (st : NodeState) (pFrom : CNode.t) : bool :=
  negb (negb (fMasternodeMode (self st))
        || (uint256_IsNull (CNode.verifiedProRegTxHash pFrom) && negb (CNode.qwatch pFrom))).

Definition accepts_QDATA (st : NodeState) (pFrom : CNode.t) : bool :=
  negb ((negb (fMasternodeMode (self st)) && negb (fWatchQuorums (self st)))
        || (uint256_IsNull (CNode.verifiedProRegTxHash pFrom) && negb (CNode.qwatch pFrom))).

(** The parts of the node state that hold quorum material: the quorum
    objects with their verification vectors and secret key shares, and the
    persisted contributions. *)
Definition same_quorum_state (st st' : NodeState) : Prop :=
  quorums st' = quorums st /\ evoDb st' = evoDb st.

(** Everything but the quorum objects, the quorum cache, the evo database
    and the worker queue: what building a quorum leaves alone. *)
Definition same_outside_quorums (st st' : NodeState) : Prop :=
  mapBlockIndex st' = mapBlockIndex st
  /\ minedCommitments st' = minedCommitments st
  /\ self st' = self st
  /\ scanQuorumsCache st' = scanQuorumsCache st
  /\ mapQuorumDataRequests st' = mapQuorumDataRequests st
  /\ vSendMsg st' = vSendMsg st
  /\ misbehaving st' = misbehaving st
  /\ errorLog st' = errorLog st.

(** A block index entry is canonical when [mapBlockIndex] holds it under its
    own hash: it is the one object a [CBlockIndex*] for that hash points to. *)
Definition canonical (st : NodeState) (b : CBlockIndex) : Prop :=
  mapBlockIndex st !! GetBlockHash b = Some b.

(** The block index holds the predecessor of every block it holds. *)
Definition index_closed (st : NodeState) : Prop :=
  forall b b', canonical st b -> pprev b = Some b' -> canonical st b'.

(** What [Init] gives a quorum and nothing changes afterwards: its
    parameters, its commitment, its anchor block, the hash of the block the
    commitment was mined in, and its members. *)
Record QuorumIdentity : Type := mkIdentity {
  id_params : LLMQParams;
  id_qc : CFinalCommitment;
  id_pindexQuorum : CBlockIndex;
  id_minedBlockHash : Z;
  id_members : list CDeterministicMN
}.

Definition identity_of (q : CQuorum) : QuorumIdentity :=
  mkIdentity (params q) (qc q) (pindexQuorum q) (minedBlockHash q) (members q).

(** The quorums behind a list of quorum pointers, in order. *)
Definition quorumIdentities (st : NodeState) (l : list nat)
  : list (option QuorumIdentity) :=
  List.map (fun a => match quorums st !! a with
                     | Some q => Some (identity_of q)
                     | None => None
                     end) l.

(** The quorum that the mined commitment, the consensus parameters and the
    masternode registry determine for an anchor block. *)
Definition minedQuorum {ext : Externals} (db : list (CFinalCommitment * Z))
    (t : LLMQType) (b : CBlockIndex) : option QuorumIdentity :=
  match GetMinedCommitment db t (GetBlockHash b), llmqs !! t with
  | Some e, Some p =>
      Some (mkIdentity p (fst e) b (snd e) (GetAllQuorumMembers (llmqType (fst e)) b))
  | _, _ => None
  end.

(** The caches agree with the chain: a quorum cached under a hash is the
    mined quorum of the block of that hash, and a list cached for a start
    block holds the mined quorums of the first mined anchors found walking
    back from it. *)
Definition caches_consistent {ext : Externals} (st : NodeState) : Prop :=
  index_closed st
  /\ (forall t h a,
        cache_find h (cacheMap (cache_at (mapQuorumsCache st) t)) = Some a ->
        exists q, quorums st !! a = Some q
                  /\ canonical st (pindexQuorum q)
                  /\ GetBlockHash (pindexQuorum q) = h
                  /\ minedQuorum (minedCommitments st) t (pindexQuorum q)
                     = Some (identity_of q))
  /\ (forall t h l,
        cache_find h (cacheMap (cache_at (scanQuorumsCache st) t)) = Some l ->
        exists start,
          canonical st start /\ GetBlockHash start = h
          /\ Forall is_Some (quorumIdentities st l)
          /\ quorumIdentities st l
             = List.map (minedQuorum (minedCommitments st) t)
                        (take (length l) (minedAnchors (minedCommitments st) t start))).

(** Every pointer in the quorum cache points to a quorum object. *)
Definition quorum_pointers_valid (st : NodeState) : Prop :=
  forall t h a,
    cache_find h (cacheMap (cache_at (mapQuorumsCache st) t)) = Some a ->
    is_Some (quorums st !! a).

(** A response that the QDATA handler applies: the sender is accepted, the
    response echoes the unprocessed request on record for the sender, it
    carries no error, and the quorum cache holds the quorum [a] for it. *)
Definition applicable_QDATA (st : NodeState) (pFrom : CNode.t) (vRecv : CDataStream)
    (request : CQuorumDataRequest.t) (a : nat) (q : CQuorum) : Prop :=
  accepts_QDATA st pFrom = true
  /\ ds_request vRecv = Some request
  /\ (exists stored,
        mapQuorumDataRequests st !! (CNode.verifiedProRegTxHash pFrom, true) = Some stored
        /\ CQuorumDataRequest.fProcessed stored = false
        /\ CQuorumDataRequest.eqb request stored = true)
  /\ CQuorumDataRequest.nError request = CQuorumDataRequest.NONE
  /\ cache_find (CQuorumDataRequest.quorumHash request)
       (cacheMap (cache_at (mapQuorumsCache st) (CQuorumDataRequest.llmqType request)))
     = Some a
  /\ quorums st !! a = Some q.

(** The cryptographic material of a quorum object and what [Init] gave it:
    everything but the flag of the recovery thread. *)
Definition same_material (q q' : CQuorum) : Prop :=
  identity_of q' = identity_of q
  /\ quorumVvec q' = quorumVvec q
  /\ skShare q' = skShare q.

(** Every quorum object of [st] is still there in [st'], with the same
    material, and with its recovery thread running if it was. *)
Definition quorums_evolve (st st' : NodeState) : Prop :=
  forall a q,
    quorums st !! a = Some q ->
    exists q',
      quorums st' !! a = Some q'
      /\ same_material q q'
      /\ (fQuorumDataRecoveryThreadRunning q = true ->
          fQuorumDataRecoveryThreadRunning q' = true).

(** Whether the node [proTxHash_] is a valid member of one of the [n] most
    recent mined quorums of type [t], seen from the block [pIndex]. *)
Definition weAreQuorumTypeMember {ext : Externals} (db : list (CFinalCommitment * Z))
    (t : LLMQType) (n : nat) (pIndex : CBlockIndex) (proTxHash_ : uint256) : bool :=
  existsb (fun b => match minedQuorum db t b with
                    | Some i =>
                        match find_member (id_members i) proTxHash_ 0 with
                        | Some k => bit (validMembers (id_qc i)) k
                        | None => false
                        end
                    | None => false
                    end)
          (take n (minedAnchors db t pIndex)).

(** The quorum object [q] is the mined quorum of one of the [n] most recent
    anchors of type [t], seen from the block [pIndex]. *)
Definition scanned_quorum {ext : Externals} (db : list (CFinalCommitment * Z))
    (t : LLMQType) (n : nat) (pIndex : CBlockIndex) (q : CQuorum) : Prop :=
  In (pindexQuorum q) (take n (minedAnchors db t pIndex))
  /\ minedQuorum db t (pindexQuorum q) = Some (identity_of q).

(** A recovery task that was started between [st0] and [st] for the block
    [pIndex], on a chain with the mined commitments [db]: it asks for
    something; its quorum had no recovery thread running in [st0] and has
    one in [st]; the quorum is one of the [signingActiveQuorumCount + 1]
    most recent mined quorums of a configured type; and its data mask is the
    data mask of that quorum for the node [me], computed with the node being
    a member of the type exactly when it is a valid member of one of those
    quorums. *)
Definition task_justified {ext : Externals} (sync : gmap Z QvvecSyncMode.t)
    (me : uint256) (db : list (CFinalCommitment * Z)) (st0 st : NodeState)
    (pIndex : CBlockIndex) (task : RecoveryTask) : Prop :=
  task_pIndex task = pIndex
  /\ task_nDataMaskIn task <> 0
  /\ (forall q0, quorums st0 !! task_pQuorum task = Some q0 ->
                 fQuorumDataRecoveryThreadRunning q0 = false)
  /\ exists q t p,
       let n := Z.to_nat (to_size_t (llmq_signingActiveQuorumCount p + 1)) in
       quorums st !! task_pQuorum task = Some q
       /\ fQuorumDataRecoveryThreadRunning q = true
       /\ llmqs !! t = Some p
       /\ scanned_quorum db t n pIndex q
       /\ task_nDataMaskIn task
          = recovery_data_mask sync me (weAreQuorumTypeMember db t n pIndex me) q.

(** The state in which the outer loop of [TriggerQuorumDataRecoveryThreads]
    starts each round. *)
Definition trigger_invariant {ext : Externals} (sync : gmap Z QvvecSyncMode.t)
    (pIndex : CBlockIndex) (st0 st : NodeState)
    (tasks : list RecoveryTask) : Prop :=
  caches_consistent st
  /\ canonical st pIndex
  /\ self st = self st0
  /\ quorums_evolve st0 st
  /\ Forall (task_justified sync (activeProTxHash (self st0)) (minedCommitments st0)
                            st0 st pIndex) tasks
  /\ NoDup (List.map task_pQuorum tasks)
  /\ mapQuorumDataRequests st = mapQuorumDataRequests st0
  /\ minedCommitments st = minedCommitments st0.

(** The height at which the DKG round in progress at a block started. *)
Definition curDkgHeight_of (dkgInterval : LLMQParams -> Z) (p : LLMQParams)
    (pindexNew : CBlockIndex) : Z :=
  nHeight pindexNew - Z.rem (nHeight pindexNew) (dkgInterval p).

(** A removal of quorum connections that the block-tip hook may ask for: the
    quorum is one of the [keepOldConnections] most recent mined quorums of
    its type, and it is not the quorum of the DKG round in progress. *)
Definition removal_justified {ext : Externals}
    (keepOldConnections dkgInterval : LLMQParams -> Z)
    (db : list (CFinalCommitment * Z)) (pindexNew : CBlockIndex)
    (r : LLMQType * uint256) : Prop :=
  exists p b,
    llmqs !! fst r = Some p
    /\ GetAncestor pindexNew (curDkgHeight_of dkgInterval p pindexNew) = Some b
    /\ snd r <> GetBlockHash b
    /\ exists blk,
         In blk (take (Z.to_nat (to_size_t (keepOldConnections p)))
                      (minedAnchors db (fst r) pindexNew))
         /\ GetBlockHash blk = snd r.

(** * A small network for the examples

    One quorum type (1) of size 3, minimum size 2 and threshold 2; a chain
    [b0 <- b1 <- b2 <- b3] with a side block [s2] on top of [b1]; the
    commitment [qcA] for the quorum anchored at [b1], mined in [b2]. The
    masternode registry resolves two members for every anchor. *)
Module Example.

Definition b0 : CBlockIndex := mkBlockIndex 100 0 None.
Definition b1 : CBlockIndex := mkBlockIndex 101 1 (Some b0).
Definition b2 : CBlockIndex := mkBlockIndex 102 2 (Some b1).
Definition b3 : CBlockIndex := mkBlockIndex 103 3 (Some b2).
Definition s2 : CBlockIndex := mkBlockIndex 202 2 (Some b1).

(** Another branch on top of [b0], which does not contain [b1]. *)
Definition t1 : CBlockIndex := mkBlockIndex 301 1 (Some b0).
Definition t2 : CBlockIndex := mkBlockIndex 302 2 (Some t1).
Definition t3 : CBlockIndex := mkBlockIndex 303 3 (Some t2).

Definition blocks : gmap Z CBlockIndex :=
  <[100 := b0]> (<[101 := b1]> (<[102 := b2]> (<[103 := b3]> (<[202 := s2]> ∅)))).

Definition params1 : LLMQParams := mkLLMQParams 1 3 2 2 1.

Definition mnA : CDeterministicMN := mkMN 11 (mkPublicKey true 1011).
Definition mnB : CDeterministicMN := mkMN 12 (mkPublicKey true 1012).

Definition vvecA : list CBLSPublicKey := [mkPublicKey true 7; mkPublicKey true 8].
Definition vvecB : list CBLSPublicKey := [mkPublicKey true 7; mkPublicKey true 9].

(** A stand-in for the hash of a verification vector. *)
Definition hashVvec (v : list CBLSPublicKey) : Z :=
  fold_right (fun k acc => pk_repr k + 31 * acc) 1 v.

Definition qcA : CFinalCommitment :=
  mkFinalCommitment 1 1 101 [true; true; false] [true; true; false]
    (mkPublicKey true 500) (hashVvec vvecA)
    (mkSignature true 600) (mkSignature true 601).

(** [qcA] with the third bit of [validMembers] set: one more than the
    registry resolves. *)
Definition qcWide : CFinalCommitment :=
  mkFinalCommitment 1 1 101 [true; true; false] [true; true; true]
    (mkPublicKey true 500) (hashVvec vvecA)
    (mkSignature true 600) (mkSignature true 601).

(** [qcA] with a single signer. *)
Definition qcFew : CFinalCommitment :=
  mkFinalCommitment 1 1 101 [true; false; false] [true; true; false]
    (mkPublicKey true 500) (hashVvec vvecA)
    (mkSignature true 600) (mkSignature true 601).

(** All bits clear and no key, but bitsets of length 2 where the type has
    size 3. *)
Definition qcShortNull : CFinalCommitment :=
  mkFinalCommitment 1 1 101 [false; false] [false; false]
    (mkPublicKey false 0) 0 (mkSignature false 0) (mkSignature false 0).

(** All bits clear and bitsets of the right length 3, but a valid
    aggregated key. *)
Definition qcKeyedNull : CFinalCommitment :=
  mkFinalCommitment 1 1 101 [false; false; false] [false; false; false]
    (mkPublicKey true 500) 0 (mkSignature false 0) (mkSignature false 0).

(** A toy wire format for the commitment payload: version (2 bytes, little
    endian), height (4 bytes, little endian), then the commitment [qcA]
    written as the single byte [x01]. *)
Definition le (bs : list Byte.byte) : Z :=
  fold_right (fun b acc => Z.of_N (Byte.to_N b) + 256 * acc) 0 bs.

Definition unserialize (payload : list Byte.byte)
  : option (CFinalCommitmentTxPayload.t * list Byte.byte) :=
  match payload with
  | v0 :: v1 :: h0 :: h1 :: h2 :: h3 :: x01 :: rest =>
      Some (CFinalCommitmentTxPayload.mk (le [v0; v1]) (le [h0; h1; h2; h3]) qcA, rest)
  | _ => None
  end.

#[export] Instance ext : Externals := {|
  llmqs := {[ 1 := params1 ]};
  CURRENT_VERSION := 1;
  TX_CURRENT_VERSION := 1;
  LLMQ_DATA_MESSAGES_VERSION := 70219;
  EXPIRATION_TIMEOUT := 300;
  GetAllQuorumMembers := fun _ _ => [mnA; mnB];
  BuildCommitmentHash := fun t h vm pk vh => t + h + vh;
  VerifySecureAggregated := fun _ _ _ => true;
  VerifyInsecure := fun _ _ _ => true;
  SerializeHash := hashVvec;
  HashQuorumKey := fun t h ms => t + 1000 * h;
  BuildQuorumVerificationVector := fun _ => None;
  AggregateSecretKeys := fun _ => CBLSSecretKey_default;
  GetPublicKey := fun s => mkPublicKey (sk_fValid s) (sk_repr s);
  BuildPubKeyShare := fun _ _ h => mkPublicKey true h;
  Decrypt := fun _ _ _ => None;
  GetVerifiedContributions := fun _ _ _ => None;
  GetEncryptedContributions := fun _ _ _ _ => None;
  Unserialize_qcTx := unserialize
|}.

(** Payloads in the toy format: version 1 and height 4 (the block after
    [b3]); version 0 and height 9; the first with a trailing byte. *)
Definition payloadGood : list Byte.byte := [x01; x00; x04; x00; x00; x00; x01].
Definition payloadV0H9 : list Byte.byte := [x00; x00; x09; x00; x00; x00; x01].
Definition payloadH9 : list Byte.byte := [x01; x00; x09; x00; x00; x00; x01].
Definition payloadTrailing : list Byte.byte := payloadGood ++ [xff].

Definition state0 : CValidationState := mkValidationState 0 0 "".

(** The quorum of [qcA] as [BuildQuorumFromCommitment] leaves it when no
    contributions are at hand: no verification vector, no key share. *)
Definition quorumA : CQuorum :=
  mkQuorum params1 qcA b1 102 [mnA; mnB] None CBLSSecretKey_default false.

(** This node: masternode 11 (a member of the quorum), not watching. *)
Definition me : ActiveMasternodeInfo :=
  mkActive true false 11 (Some (mkSecretKey true 42)).

(** A node that has seen [qcA] mined and has built nothing yet; both caches
    hold up to two entries for type 1. *)
Definition stFresh : NodeState :=
  mkState blocks [(qcA, 102)] me ∅ []
          {[ 1 := mkCache [] 2 ]} {[ 1 := mkCache [] 2 ]} ∅ [] [] [] [].

(** A node whose quorum cache still holds the quorum of anchor [b1] while
    the store holds no mined commitment (the block that mined it was
    disconnected). *)
Definition stStale : NodeState :=
  mkState blocks [] me ∅ [quorumA]
          {[ 1 := mkCache [(101, 0%nat)] 2 ]} {[ 1 := mkCache [] 2 ]} ∅ [] [] [] [].

(** The peer: the verified masternode 12, on connection 7. *)
Definition peer12 : CNode.t := CNode.mk 7 70219 12 false.

(** [stFresh] with the verification vector of the quorum persisted. *)
Definition stServing : NodeState :=
  mkState blocks [(qcA, 102)] me
          {[ (DB_QUORUM_QUORUM_VVEC, 101001) := DbVvec vvecA ]} []
          {[ 1 := mkCache [] 2 ]} {[ 1 := mkCache [] 2 ]} ∅ [] [] [] [].

(** A request of masternode 12 for the verification vector of the quorum of
    anchor [b1], created at time 1000, and the stream that carries it. *)
Definition requestVvec : CQuorumDataRequest.t :=
  CQuorumDataRequest.mk 1 101 1 12 CQuorumDataRequest.UNDEFINED false 1000.
Definition streamVvec : CDataStream := mkStream (Some requestVvec) None None.

(** Our own request to masternode 12 for the encrypted contributions, created
    at time 1000. *)
Definition requestOut : CQuorumDataRequest.t :=
  CQuorumDataRequest.make 1000 1 101 CQuorumDataRequest.ENCRYPTED_CONTRIBUTIONS 11.

(** [stServing] with one request on record in each direction for
    masternode 12, both created at time 1000. *)
Definition stBusy : NodeState :=
  mkState blocks [(qcA, 102)] me
          {[ (DB_QUORUM_QUORUM_VVEC, 101001) := DbVvec vvecA ]} []
          {[ 1 := mkCache [] 2 ]} {[ 1 := mkCache [] 2 ]}
          (<[(12, false) := requestVvec]> {[ (12, true) := requestOut ]})
          [] [] [] [].

(** The answer of masternode 12 to [requestOut]: the request echoed with
    error NONE and an empty list of contributions; the same with another
    data mask. *)
Definition responseOk : CDataStream :=
  mkStream (Some (CQuorumDataRequest.SetError requestOut CQuorumDataRequest.NONE))
           None (Some []).
Definition responseOtherMask : CDataStream :=
  mkStream (Some (CQuorumDataRequest.mk 1 101 3 11 CQuorumDataRequest.NONE false 1000))
           (Some vvecA) (Some []).

(** [stBusy] on a node that is neither a masternode nor watching quorums. *)
Definition stBusyPlain : NodeState :=
  mkState blocks [(qcA, 102)] (mkActive false false 0 None)
          {[ (DB_QUORUM_QUORUM_VVEC, 101001) := DbVvec vvecA ]} []
          {[ 1 := mkCache [] 2 ]} {[ 1 := mkCache [] 2 ]}
          (<[(12, false) := requestVvec]> {[ (12, true) := requestOut ]})
          [] [] [] [].

(** [stBusy] with the outgoing request already marked processed. *)
Definition stBusyProcessed : NodeState :=
  mkState blocks [(qcA, 102)] me
          {[ (DB_QUORUM_QUORUM_VVEC, 101001) := DbVvec vvecA ]} []
          {[ 1 := mkCache [] 2 ]} {[ 1 := mkCache [] 2 ]}
          {[ (12, true) := CQuorumDataRequest.SetProcessed requestOut ]}
          [] [] [] [].

(** A second commitment, for the quorum anchored at [b2] and mined in [b3],
    and a node that has seen both commitments mined and has built nothing
    yet. Walking back from [b3], the mined anchors are [b2] and [b1]. *)
Definition qcB : CFinalCommitment :=
  mkFinalCommitment 1 1 102 [true; true; false] [true; true; false]
    (mkPublicKey true 501) (hashVvec vvecB)
    (mkSignature true 602) (mkSignature true 603).

Definition stTwo : NodeState :=
  mkState blocks [(qcA, 102); (qcB, 103)] me ∅ []
          {[ 1 := mkCache [] 2 ]} {[ 1 := mkCache [] 2 ]} ∅ [] [] [] [].

(** [stTwo] on a masternode that is a member of no quorum. *)
Definition stOutsider : NodeState :=
  mkState blocks [(qcA, 102); (qcB, 103)]
          (mkActive true false 13 (Some (mkSecretKey true 43))) ∅ []
          {[ 1 := mkCache [] 2 ]} {[ 1 := mkCache [] 2 ]} ∅ [] [] [] [].

(** The quorums of the two commitments, as [Init] sets them up. *)
Definition idA : QuorumIdentity := mkIdentity params1 qcA b1 102 [mnA; mnB].
Definition idB : QuorumIdentity := mkIdentity params1 qcB b2 103 [mnA; mnB].

(** A default-constructed commitment. *)
Definition qcDefault : CFinalCommitment :=
  mkFinalCommitment 1 0 0 [] [] (mkPublicKey false 0) 0
                    (mkSignature false 0) (mkSignature false 0).

(** A payload type of two bytes with its wire format. *)
Definition putPair (o : Byte.byte * Byte.byte) : list Byte.byte := [fst o; snd o].
Definition getPair (payload : list Byte.byte)
  : option ((Byte.byte * Byte.byte) * list Byte.byte) :=
  match payload with
  | a :: b :: rest => Some ((a, b), rest)
  | _ => None
  end.

(** [quorumA] with its verification vector, and the secret key share whose
    public key is the public key share of member 11. *)
Definition quorumAVvec : CQuorum := set_quorumVvec (Some vvecA) quorumA.
Definition shareA : CBLSSecretKey := mkSecretKey true 11.

(** Our own requests to masternode 12 for the verification vector and for
    both kinds of data, created at time 1000. *)
Definition requestVvecOut : CQuorumDataRequest.t :=
  CQuorumDataRequest.make 1000 1 101 CQuorumDataRequest.QUORUM_VERIFICATION_VECTOR 11.
Definition requestBothOut : CQuorumDataRequest.t :=
  CQuorumDataRequest.make 1000 1 101 3 11.

(** A node that holds the quorum [q] of anchor [b1] in its quorum cache and
    has the request [r] to masternode 12 on record. *)
Definition stAsking (q : CQuorum) (r : CQuorumDataRequest.t) : NodeState :=
  mkState blocks [(qcA, 102)] me ∅ [q]
          {[ 1 := mkCache [(101, 0%nat)] 2 ]} {[ 1 := mkCache [] 2 ]}
          {[ (12, true) := r ]} [] [] [] [].

(** The answers of masternode 12: the vector [vvecA]; the vector and one
    contribution; two contributions. *)
Definition responseVvec : CDataStream :=
  mkStream (Some (CQuorumDataRequest.SetError requestVvecOut CQuorumDataRequest.NONE))
           (Some vvecA) None.
Definition responseBoth : CDataStream :=
  mkStream (Some (CQuorumDataRequest.SetError requestBothOut CQuorumDataRequest.NONE))
           (Some vvecA) (Some [mkEncrypted 1]).
Definition responseShares : CDataStream :=
  mkStream (Some (CQuorumDataRequest.SetError requestOut CQuorumDataRequest.NONE))
           None (Some [mkEncrypted 5; mkEncrypted 6]).

(** Collaborators with a BLS layer in which every contribution decrypts to
    the key it carries and keys aggregate by addition. *)
Definition extKeys : Externals := {|
  llmqs := {[ 1 := params1 ]};
  CURRENT_VERSION := 1;
  TX_CURRENT_VERSION := 1;
  LLMQ_DATA_MESSAGES_VERSION := 70219;
  EXPIRATION_TIMEOUT := 300;
  GetAllQuorumMembers := fun _ _ => [mnA; mnB];
  BuildCommitmentHash := fun t h vm pk vh => t + h + vh;
  VerifySecureAggregated := fun _ _ _ => true;
  VerifyInsecure := fun _ _ _ => true;
  SerializeHash := hashVvec;
  HashQuorumKey := fun t h ms => t + 1000 * h;
  BuildQuorumVerificationVector := fun _ => None;
  AggregateSecretKeys :=
    fun ks => mkSecretKey true (fold_right (fun k acc => sk_repr k + acc) 0 ks);
  GetPublicKey := fun s => mkPublicKey (sk_fValid s) (sk_repr s);
  BuildPubKeyShare := fun _ _ h => mkPublicKey true h;
  Decrypt := fun _ _ e => Some (mkSecretKey true (enc_repr e));
  GetVerifiedContributions := fun _ _ _ => None;
  GetEncryptedContributions := fun _ _ _ _ => None;
  Unserialize_qcTx := unserialize
|}.

End Example.

(** * Properties *)

(** ** Pointers into the block index *)

(** Induction along [pprev]. *)
Lemma CBlockIndex_chain_ind (P : CBlockIndex -> Prop)
    (Hfirst : forall h n, P (mkBlockIndex h n None))
    (Hnext : forall h n q, P q -> P (mkBlockIndex h n (Some q))) :
  forall b, P b.
Proof.
  exact (fix go (b : CBlockIndex) : P b :=
           match b with
           | mkBlockIndex h n None => Hfirst h n
           | mkBlockIndex h n (Some q) => Hnext h n q (go q)
           end).
Qed.

Lemma CBlockIndex_eqb_eq : forall a b, CBlockIndex_eqb a b = true <-> a = b.
Proof.
  induction a as [h1 n1|h1 n1 q1 IH] using CBlockIndex_chain_ind;
    intros [h2 n2 [q2|]]; simpl; split; intros H.
  - rewrite andb_false_r in H. discriminate.
  - discriminate.
  - rewrite andb_true_r in H. apply andb_true_iff in H as [Hh Hn].
    apply Z.eqb_eq in Hh, Hn. subst. reflexivity.
  - injection H as -> ->. rewrite !Z.eqb_refl. reflexivity.
  - apply andb_true_iff in H as [H Hp]. apply andb_true_iff in H as [Hh Hn].
    apply Z.eqb_eq in Hh, Hn. apply IH in Hp. subst. reflexivity.
  - injection H as -> -> ->. rewrite !Z.eqb_refl. simpl. apply IH. reflexivity.
  - rewrite andb_false_r in H. discriminate.
  - discriminate.
Qed.

Lemma ptr_eqb_eq : forall a b, ptr_eqb a b = true <-> a = b.
Proof.
  intros [x|] [y|]; simpl; split; try discriminate; try reflexivity.
  - intros H. apply CBlockIndex_eqb_eq in H. congruence.
  - intros H. injection H as ->. apply CBlockIndex_eqb_eq. reflexivity.
Qed.

Lemma ptr_eqb_neq : forall a b, a <> b -> ptr_eqb a b = false.
Proof.
  intros a b H. destruct (ptr_eqb a b) eqn:E; [|reflexivity].
  apply ptr_eqb_eq in E. contradiction.
Qed.

(** ** The commitment *)

Section CommitmentProperties.
Context {ext : Externals}.

Lemma bit_lookup (v : list bool) (i : nat) : v !! i = Some true <-> bit v i = true.
Proof.
  unfold bit. revert i. induction v as [|b v IH]; intros [|i]; cbn.
  - split; discriminate.
  - split; discriminate.
  - split; congruence.
  - apply IH.
Qed.

Lemma no_bits_from_set (vm sg : list bool) (n first i : nat) :
  (first <= i < first + n)%nat ->
  bit vm i = true \/ bit sg i = true ->
  no_bits_from vm sg first n = false.
Proof.
  revert first. induction n as [|n IH]; intros first Hi Hbit; [lia|].
  simpl. destruct (bit vm first) eqn:Evm; [reflexivity|].
  destruct (bit sg first) eqn:Esg; [reflexivity|].
  apply IH; [|exact Hbit].
  destruct (decide (i = first)) as [->|Hne]; [|lia].
  destruct Hbit; congruence.
Qed.

Lemma VerifySizes_true (c : CFinalCommitment) (p : LLMQParams) :
  VerifySizes c p = true <->
  Z.of_nat (length (signers c)) = to_size_t (llmq_size p)
  /\ Z.of_nat (length (validMembers c)) = to_size_t (llmq_size p).
Proof.
  unfold VerifySizes.
  destruct (Z.eqb_spec (Z.of_nat (length (signers c))) (to_size_t (llmq_size p)));
    destruct (Z.eqb_spec (Z.of_nat (length (validMembers c))) (to_size_t (llmq_size p)));
    simpl; intuition congruence.
Qed.

(** C2. Whatever the other fields are, a commitment with a bit of
    [validMembers] or of [signers] set at an index at or beyond the length
    of the member list resolved for the anchor block does not verify. *)
Theorem Verify_rejects_bits_beyond_members
    (c : CFinalCommitment) (pQuorumBaseBlockIndex : CBlockIndex) (checkSigs : bool)
    (i : nat) :
  validMembers c !! i = Some true \/ signers c !! i = Some true ->
  (forall llmq_params, llmqs !! llmqType c = Some llmq_params ->
     (length (GetAllQuorumMembers (llmq_type llmq_params) pQuorumBaseBlockIndex) <= i)%nat) ->
  Verify c pQuorumBaseBlockIndex checkSigs = false.
Proof.
  intros Hbit Hlen. unfold Verify.
  destruct ((nVersion c =? 0) || (CURRENT_VERSION <? nVersion c)); [reflexivity|].
  destruct (llmqs !! llmqType c) as [p|] eqn:Ep; [|reflexivity].
  specialize (Hlen p eq_refl).
  destruct (VerifySizes c p) eqn:Es; [|reflexivity]. simpl.
  apply VerifySizes_true in Es as [Hs Hv].
  destruct (CountValidMembers c <? llmq_minSize p); [reflexivity|].
  destruct (CountSigners c <? llmq_minSize p); [reflexivity|].
  destruct (negb (pk_fValid (quorumPublicKey c))); [reflexivity|].
  destruct (uint256_IsNull (quorumVvecHash c)); [reflexivity|].
  destruct (negb (sig_fValid (membersSig c))); [reflexivity|].
  destruct (negb (sig_fValid (quorumSig c))); [reflexivity|].
  rewrite no_bits_from_set with (i := i); [reflexivity| |].
  - assert (Hi : (i < length (validMembers c))%nat \/ (i < length (signers c))%nat).
    { destruct Hbit as [H|H]; apply lookup_lt_Some in H; auto. }
    split; [exact Hlen|]. lia.
  - destruct Hbit as [H|H]; [left|right]; apply bit_lookup; exact H.
Qed.

(** C3. A commitment of a configured quorum type whose count of set
    [validMembers] bits, or of set [signers] bits, is below the type's
    minimum size does not verify. *)
Theorem Verify_rejects_below_minSize
    (c : CFinalCommitment) (pQuorumBaseBlockIndex : CBlockIndex) (checkSigs : bool)
    (llmq_params : LLMQParams) :
  llmqs !! llmqType c = Some llmq_params ->
  CountValidMembers c < llmq_minSize llmq_params
  \/ CountSigners c < llmq_minSize llmq_params ->
  Verify c pQuorumBaseBlockIndex checkSigs = false.
Proof.
  intros Hp Hcount. unfold Verify. rewrite Hp.
  destruct ((nVersion c =? 0) || (CURRENT_VERSION <? nVersion c)); [reflexivity|].
  destruct (negb (VerifySizes c llmq_params)); [reflexivity|].
  destruct (Z.ltb_spec (CountValidMembers c) (llmq_minSize llmq_params)); [reflexivity|].
  destruct (Z.ltb_spec (CountSigners c) (llmq_minSize llmq_params)); [reflexivity|].
  lia.
Qed.

(** A commitment of a type that is not configured does not verify either. *)
Lemma Verify_unknown_type
    (c : CFinalCommitment) (pQuorumBaseBlockIndex : CBlockIndex) (checkSigs : bool) :
  llmqs !! llmqType c = None -> Verify c pQuorumBaseBlockIndex checkSigs = false.
Proof.
  intros Hp. unfold Verify. rewrite Hp.
  destruct ((nVersion c =? 0) || (CURRENT_VERSION <? nVersion c)); reflexivity.
Qed.

Lemma count_true_pos (v : list bool) (i : nat) :
  v !! i = Some true -> 0 < count_true v.
Proof.
  unfold count_true. revert i.
  induction v as [|b v IH]; intros [|i] H; simpl in *; try discriminate.
  - injection H as ->. simpl. lia.
  - specialize (IH i H). destruct b; simpl; lia.
Qed.

Lemma count_true_zero (v : list bool) :
  count_true v = 0 <-> forall i, v !! i <> Some true.
Proof.
  split.
  - intros Hz i Hi. apply count_true_pos in Hi. lia.
  - unfold count_true. induction v as [|b v IH]; intros H; [reflexivity|].
    destruct b.
    + exfalso. apply (H 0%nat). reflexivity.
    + simpl. apply IH. intros i Hi. apply (H (S i)). exact Hi.
Qed.

Lemma count_true_nonneg (v : list bool) : 0 <= count_true v.
Proof. unfold count_true. lia. Qed.

(** The null form, as [IsNull] tests it: no bit set in either bitset and no
    valid aggregated key. *)
Lemma IsNull_true (c : CFinalCommitment) :
  IsNull c = true <->
  (forall i, signers c !! i <> Some true)
  /\ (forall i, validMembers c !! i <> Some true)
  /\ pk_fValid (quorumPublicKey c) = false.
Proof.
  unfold IsNull. rewrite <- !count_true_zero.
  pose proof (count_true_nonneg (signers c)).
  pose proof (count_true_nonneg (validMembers c)).
  destruct (Z.ltb_spec 0 (count_true (signers c)));
    destruct (Z.ltb_spec 0 (count_true (validMembers c)));
    destruct (pk_fValid (quorumPublicKey c)); simpl;
    split; try discriminate; try (intros (? & ? & ?); try discriminate; lia);
    intros _; repeat split; lia.
Qed.

(** C4, as the code has it. [VerifyNull] accepts exactly the commitments of
    a configured type that are in null form and whose two bitsets have the
    type's configured size; in particular it rejects every commitment with
    a set bit. *)
Theorem VerifyNull_iff (c : CFinalCommitment) :
  (VerifyNull c = true <->
     exists llmq_params,
       llmqs !! llmqType c = Some llmq_params
       /\ IsNull c = true
       /\ Z.of_nat (length (signers c)) = to_size_t (llmq_size llmq_params)
       /\ Z.of_nat (length (validMembers c)) = to_size_t (llmq_size llmq_params))
  /\ (forall i, signers c !! i = Some true \/ validMembers c !! i = Some true ->
        VerifyNull c = false).
Proof.
  assert (Hiff : VerifyNull c = true <->
     exists llmq_params,
       llmqs !! llmqType c = Some llmq_params
       /\ IsNull c = true
       /\ Z.of_nat (length (signers c)) = to_size_t (llmq_size llmq_params)
       /\ Z.of_nat (length (validMembers c)) = to_size_t (llmq_size llmq_params)).
  { unfold VerifyNull. destruct (llmqs !! llmqType c) as [p|] eqn:Ep.
    - destruct (IsNull c) eqn:En; simpl.
      + destruct (VerifySizes c p) eqn:Es; simpl.
        * split; [intros _|reflexivity]. exists p.
          apply VerifySizes_true in Es. tauto.
        * split; [discriminate|]. intros (p' & Hp' & _ & Hs).
          injection Hp' as <-. apply VerifySizes_true in Hs. congruence.
      + split; [discriminate|]. intros (_ & _ & Hn & _). discriminate.
    - split; [discriminate|]. intros (p' & Hp' & _). discriminate. }
  split; [exact Hiff|].
  intros i Hbit. destruct (VerifyNull c) eqn:E; [|reflexivity].
  destruct (proj1 Hiff eq_refl) as (p & _ & Hn & _).
  apply IsNull_true in Hn as (Hs & Hv & _).
  destruct Hbit as [H|H]; [elim (Hs i H)|elim (Hv i H)].
Qed.

End CommitmentProperties.

(** C2 at the example: the registry resolves two members for [b1], and
    [qcWide] has bit 2 of [validMembers] set. *)
Lemma Verify_rejects_bits_beyond_members_witness :
  validMembers Example.qcWide !! 2%nat = Some true
  /\ length (GetAllQuorumMembers (Externals := Example.ext) 1 Example.b1) = 2%nat
  /\ Verify (ext := Example.ext) Example.qcWide Example.b1 false = false.
Proof.
  split; [reflexivity|]. split; [reflexivity|].
  apply (Verify_rejects_bits_beyond_members Example.qcWide Example.b1 false 2).
  - left. reflexivity.
  - intros p Hp. vm_compute. lia.
Defined.

(** C3 at the example: [qcFew] has one signer where the minimum size is 2. *)
Lemma Verify_rejects_below_minSize_witness :
  CountSigners Example.qcFew = 1
  /\ llmq_minSize Example.params1 = 2
  /\ Verify (ext := Example.ext) Example.qcFew Example.b1 true = false.
Proof.
  split; [reflexivity|]. split; [reflexivity|].
  apply (Verify_rejects_below_minSize Example.qcFew Example.b1 true Example.params1).
  - reflexivity.
  - right. vm_compute. reflexivity.
Defined.

(** C4 as stated fails: [qcShortNull] and [qcKeyedNull] are of the configured
    type 1 and have every bit of both bitsets clear, yet [VerifyNull] rejects
    both: the first because its bitsets have length 2 where the type has size
    3, the second because it carries a valid aggregated key and so is not in
    null form. *)
Lemma VerifyNull_counterexample :
  (is_Some (llmqs (Externals := Example.ext) !! llmqType Example.qcShortNull)
   /\ (forall i, signers Example.qcShortNull !! i <> Some true)
   /\ (forall i, validMembers Example.qcShortNull !! i <> Some true)
   /\ VerifyNull (ext := Example.ext) Example.qcShortNull = false)
  /\ (is_Some (llmqs (Externals := Example.ext) !! llmqType Example.qcKeyedNull)
      /\ (forall i, signers Example.qcKeyedNull !! i <> Some true)
      /\ (forall i, validMembers Example.qcKeyedNull !! i <> Some true)
      /\ VerifyNull (ext := Example.ext) Example.qcKeyedNull = false).
Proof.
  split.
  - split; [exists Example.params1; reflexivity|].
    split; [intros [|[|[|i]]]; discriminate|].
    split; [intros [|[|[|i]]]; discriminate|].
    reflexivity.
  - split; [exists Example.params1; reflexivity|].
    split; [intros [|[|[|[|i]]]]; discriminate|].
    split; [intros [|[|[|[|i]]]]; discriminate|].
    reflexivity.
Qed.

(** ** The commitment transaction check *)

Section ValidatorProperties.
Context {ext : Externals}.

Lemma GetTxPayload_Some {T : Type}
    (unserialize : list Byte.byte -> option (T * list Byte.byte))
    (payload : list Byte.byte) (obj : T) :
  GetTxPayload unserialize payload = Some obj <-> unserialize payload = Some (obj, []).
Proof.
  unfold GetTxPayload. destruct (unserialize payload) as [[o [|b rest]]|]; split;
    intros H; try discriminate; congruence.
Qed.

Lemma GetTxPayload_None {T : Type}
    (unserialize : list Byte.byte -> option (T * list Byte.byte))
    (payload : list Byte.byte) :
  GetTxPayload unserialize payload = None <->
  unserialize payload = None
  \/ exists obj rest, unserialize payload = Some (obj, rest) /\ rest <> [].
Proof.
  unfold GetTxPayload. destruct (unserialize payload) as [[o [|b rest]]|]; split;
    intros H; try discriminate; try reflexivity.
  - destruct H as [H|(o' & r & H & Hr)]; [discriminate|]. congruence.
  - right. exists o, (b :: rest). split; [reflexivity|discriminate].
  - left. reflexivity.
Qed.

Lemma to_uint32_small (i : Z) : 0 <= i < 2 ^ 32 -> to_uint32 i = i.
Proof. intros H. unfold to_uint32. apply Z.mod_small. exact H. Qed.

(** C1, as the code has it. The checks run in order, and each rejection
    names the first check that fails: a payload that throws or leaves bytes
    behind is rejected with "bad-qc-payload"; a payload that deserializes
    fully and carries a supported version is rejected with "bad-qc-height"
    when its height is not the previous block's plus one; and, the height
    being right, with "bad-qc-quorum-hash" when the quorum hash is not in
    the block index or names a block that is not the ancestor of the
    previous block at its height. *)
Theorem CheckLLMQCommitment_rejections
    (mapBlockIndex : gmap Z CBlockIndex) (tx : CTransaction)
    (pindexPrev : CBlockIndex) (state : CValidationState) :
  ((Unserialize_qcTx (vExtraPayload tx) = None
    \/ exists obj rest,
         Unserialize_qcTx (vExtraPayload tx) = Some (obj, rest) /\ rest <> []) ->
   CheckLLMQCommitment mapBlockIndex tx pindexPrev state
   = rejected state "bad-qc-payload")
  /\ (forall qcTx,
        Unserialize_qcTx (vExtraPayload tx) = Some (qcTx, []) ->
        CFinalCommitmentTxPayload.nVersion qcTx <> 0 ->
        CFinalCommitmentTxPayload.nVersion qcTx <= TX_CURRENT_VERSION ->
        0 <= nHeight pindexPrev < 2 ^ 31 - 1 ->
        (CFinalCommitmentTxPayload.nHeight qcTx <> nHeight pindexPrev + 1 ->
         CheckLLMQCommitment mapBlockIndex tx pindexPrev state
         = rejected state "bad-qc-height")
        /\ (CFinalCommitmentTxPayload.nHeight qcTx = nHeight pindexPrev + 1 ->
            let h := quorumHash (CFinalCommitmentTxPayload.commitment qcTx) in
            (LookupBlockIndex mapBlockIndex h = None
             \/ exists pQuorumBaseBlockIndex,
                  LookupBlockIndex mapBlockIndex h = Some pQuorumBaseBlockIndex
                  /\ GetAncestor pindexPrev (nHeight pQuorumBaseBlockIndex)
                     <> Some pQuorumBaseBlockIndex) ->
            CheckLLMQCommitment mapBlockIndex tx pindexPrev state
            = rejected state "bad-qc-quorum-hash")).
Proof.
  split.
  - intros H. apply GetTxPayload_None in H.
    unfold CheckLLMQCommitment. rewrite H. reflexivity.
  - intros qcTx Hser Hv0 Hv1 Hprev.
    apply GetTxPayload_Some in Hser.
    assert (Hver : (CFinalCommitmentTxPayload.nVersion qcTx =? 0)
                   || (TX_CURRENT_VERSION <? CFinalCommitmentTxPayload.nVersion qcTx)
                   = false).
    { apply orb_false_iff. split; [apply Z.eqb_neq; exact Hv0|apply Z.ltb_ge; exact Hv1]. }
    assert (Hconv : to_uint32 (nHeight pindexPrev + 1) = nHeight pindexPrev + 1).
    { apply to_uint32_small. lia. }
    split.
    + intros Hh. unfold CheckLLMQCommitment. rewrite Hser, Hver, Hconv.
      apply Z.eqb_neq in Hh. rewrite Hh. reflexivity.
    + intros Hh h Hbad. unfold CheckLLMQCommitment. rewrite Hser, Hver, Hconv.
      apply Z.eqb_eq in Hh. rewrite Hh. cbn [negb].
      subst h. destruct Hbad as [Hnone|(b & Hb & Hanc)].
      * rewrite Hnone. reflexivity.
      * rewrite Hb. rewrite ptr_eqb_neq by congruence. reflexivity.
Qed.

End ValidatorProperties.

(** C1 at the example, with [b3] (height 3) as the previous block: a
    trailing byte; height 9; the anchor [b1] missing from the block index;
    and the previous block [t3] on a branch that does not contain [b1]. *)
Lemma CheckLLMQCommitment_rejections_witness :
  CheckLLMQCommitment (ext := Example.ext) Example.blocks
    (mkTransaction Example.payloadTrailing) Example.b3 Example.state0
  = rejected Example.state0 "bad-qc-payload"
  /\ CheckLLMQCommitment (ext := Example.ext) Example.blocks
       (mkTransaction Example.payloadH9) Example.b3 Example.state0
     = rejected Example.state0 "bad-qc-height"
  /\ CheckLLMQCommitment (ext := Example.ext) (delete 101 Example.blocks)
       (mkTransaction Example.payloadGood) Example.b3 Example.state0
     = rejected Example.state0 "bad-qc-quorum-hash"
  /\ CheckLLMQCommitment (ext := Example.ext) Example.blocks
       (mkTransaction Example.payloadGood) Example.t3 Example.state0
     = rejected Example.state0 "bad-qc-quorum-hash".
Proof.
  split; [|split; [|split]].
  - apply (CheckLLMQCommitment_rejections (ext := Example.ext)).
    right. eexists _, _. split; [reflexivity|discriminate].
  - eapply (CheckLLMQCommitment_rejections (ext := Example.ext)).
    + reflexivity.
    + vm_compute. discriminate.
    + vm_compute. discriminate.
    + vm_compute. split; [discriminate|reflexivity].
    + vm_compute. discriminate.
  - eapply (CheckLLMQCommitment_rejections (ext := Example.ext)).
    + reflexivity.
    + vm_compute. discriminate.
    + vm_compute. discriminate.
    + vm_compute. split; [discriminate|reflexivity].
    + reflexivity.
    + left. reflexivity.
  - eapply (CheckLLMQCommitment_rejections (ext := Example.ext)).
    + reflexivity.
    + vm_compute. discriminate.
    + vm_compute. discriminate.
    + vm_compute. split; [discriminate|reflexivity].
    + reflexivity.
    + right. exists Example.b1. split; [reflexivity|]. vm_compute. discriminate.
Defined.

(** C1 as stated fails: the payload below deserializes fully and declares
    height 9 where the previous block [b3] has height 3, and is rejected, but
    with the reason of the version check, which comes first. *)
Lemma CheckLLMQCommitment_counterexample :
  exists qcTx,
    GetTxPayload (Unserialize_qcTx (Externals := Example.ext)) Example.payloadV0H9
    = Some qcTx
    /\ CFinalCommitmentTxPayload.nHeight qcTx <> nHeight Example.b3 + 1
    /\ CheckLLMQCommitment (ext := Example.ext) Example.blocks
         (mkTransaction Example.payloadV0H9) Example.b3 Example.state0
       = rejected Example.state0 "bad-qc-version".
Proof.
  eexists. split; [reflexivity|]. split; [vm_compute; discriminate|reflexivity].
Qed.

(** ** Quorums and their cache *)

Section QuorumProperties.
Context {ext : Externals}.

(** C5. [SetVerificationVector] returns [true] exactly when the hash of the
    given vector is the commitment's [quorumVvecHash]; it then stores the
    vector, and otherwise leaves the quorum as it was. *)
Theorem SetVerificationVector_spec (q : CQuorum) (quorumVecIn : list CBLSPublicKey) :
  (fst (SetVerificationVector q quorumVecIn) = true
   <-> SerializeHash quorumVecIn = quorumVvecHash (qc q))
  /\ (SerializeHash quorumVecIn = quorumVvecHash (qc q) ->
      SetVerificationVector q quorumVecIn = (true, set_quorumVvec (Some quorumVecIn) q)
      /\ quorumVvec (snd (SetVerificationVector q quorumVecIn)) = Some quorumVecIn)
  /\ (SerializeHash quorumVecIn <> quorumVvecHash (qc q) ->
      SetVerificationVector q quorumVecIn = (false, q)).
Proof.
  unfold SetVerificationVector.
  destruct (Z.eqb_spec (SerializeHash quorumVecIn) (quorumVvecHash (qc q))) as [E|E];
    simpl; repeat split; intros; try reflexivity; try congruence.
Qed.

(** C6. When the store holds no mined commitment for the anchor's hash,
    [GetQuorum] returns null and leaves the whole node state, the quorum
    cache included, as it was: the cache is not consulted. *)
Theorem GetQuorum_no_mined_commitment
    (t : LLMQType) (pindexQuorum : CBlockIndex) (st : NodeState) :
  HasMinedCommitment (minedCommitments st) t (GetBlockHash pindexQuorum) = false ->
  GetQuorum t pindexQuorum st = Ok (None, st).
Proof.
  intros H. unfold GetQuorum, HasQuorum. rewrite H. reflexivity.
Qed.

(** The same for the overload that takes the hash, which looks the block
    up first and then does the above. *)
Lemma GetQuorumByHash_no_mined_commitment
    (t : LLMQType) (h : uint256) (st : NodeState) :
  (forall p, mapBlockIndex st !! h = Some p -> GetBlockHash p = h) ->
  HasMinedCommitment (minedCommitments st) t h = false ->
  GetQuorumByHash t h st = Ok (None, st).
Proof.
  intros Hidx H. unfold GetQuorumByHash, LookupBlockIndex.
  destruct (mapBlockIndex st !! h) as [p|] eqn:Ep; [|reflexivity].
  unfold GetQuorum, HasQuorum. rewrite (Hidx p eq_refl), H. reflexivity.
Qed.

End QuorumProperties.

(** C5 at the example: [vvecA] hashes to the hash recorded in [qcA] and is
    stored; [vvecB] does not and is refused. *)
Lemma SetVerificationVector_spec_witness :
  SetVerificationVector (ext := Example.ext) Example.quorumA Example.vvecA
  = (true, set_quorumVvec (Some Example.vvecA) Example.quorumA)
  /\ SetVerificationVector (ext := Example.ext) Example.quorumA Example.vvecB
     = (false, Example.quorumA).
Proof.
  split.
  - apply (SetVerificationVector_spec (ext := Example.ext) Example.quorumA Example.vvecA).
    reflexivity.
  - apply (SetVerificationVector_spec (ext := Example.ext) Example.quorumA Example.vvecB).
    vm_compute. discriminate.
Defined.

(** C6 at the example: the quorum of anchor [b1] is resident in the cache of
    [stStale], the store is empty, and [GetQuorum] returns null. *)
Lemma GetQuorum_no_mined_commitment_witness :
  cache_find 101 (cacheMap (cache_at (mapQuorumsCache Example.stStale) 1)) = Some 0%nat
  /\ GetQuorum (ext := Example.ext) 1 Example.b1 Example.stStale
     = Ok (None, Example.stStale).
Proof.
  split; [reflexivity|].
  apply (GetQuorum_no_mined_commitment (ext := Example.ext) 1 Example.b1 Example.stStale).
  reflexivity.
Defined.

(** ** Building a quorum *)

Section BuildProperties.
Context {ext : Externals}.

Lemma same_outside_quorums_refl (st : NodeState) : same_outside_quorums st st.
Proof. unfold same_outside_quorums. tauto. Qed.

Lemma same_outside_quorums_trans (a b c : NodeState) :
  same_outside_quorums a b -> same_outside_quorums b c -> same_outside_quorums a c.
Proof.
  unfold same_outside_quorums.
  intros (?&?&?&?&?&?&?&?) (?&?&?&?&?&?&?&?). repeat split; congruence.
Qed.

Lemma GetMinedCommitment_Some (db : list (CFinalCommitment * Z)) (t : LLMQType)
    (h : uint256) (e : CFinalCommitment * Z) :
  GetMinedCommitment db t h = Some e ->
  llmqType (fst e) = t /\ quorumHash (fst e) = h /\ In e db.
Proof.
  unfold GetMinedCommitment. intros H. apply find_some in H as [Hin Hp].
  unfold is_commitment_for in Hp. apply andb_true_iff in Hp as [Ht Hh].
  apply Z.eqb_eq in Ht, Hh. auto.
Qed.

Lemma GetMinedCommitment_Has (db : list (CFinalCommitment * Z)) (t : LLMQType)
    (h : uint256) :
  HasMinedCommitment db t h = true <-> exists e, GetMinedCommitment db t h = Some e.
Proof.
  unfold HasMinedCommitment, GetMinedCommitment. split.
  - intros H. apply existsb_exists in H as (e & Hin & He).
    destruct (List.find (is_commitment_for t h) db) as [e'|] eqn:E; [eauto|].
    apply (find_none _ _ E) in Hin. congruence.
  - intros (e & H). apply find_some in H as [Hin He].
    apply existsb_exists. eauto.
Qed.

Lemma ReadContributions_fields (q : CQuorum) (db : gmap (string * Z) DbValue) :
  let q' := snd (ReadContributions q db) in
  params q' = params q /\ qc q' = qc q /\ pindexQuorum q' = pindexQuorum q
  /\ members q' = members q /\ minedBlockHash q' = minedBlockHash q.
Proof.
  unfold ReadContributions.
  destruct (db !! (DB_QUORUM_QUORUM_VVEC, MakeQuorumKey q)) as [[v|s]|]; simpl; auto.
  destruct (db !! (DB_QUORUM_SK_SHARE, MakeQuorumKey q)) as [[v'|s']|]; simpl; auto.
Qed.

Lemma BuildQuorumContributions_fields (fqc : CFinalCommitment) (q : CQuorum) :
  let q' := snd (BuildQuorumContributions fqc q) in
  params q' = params q /\ qc q' = qc q /\ pindexQuorum q' = pindexQuorum q
  /\ members q' = members q /\ minedBlockHash q' = minedBlockHash q.
Proof.
  unfold BuildQuorumContributions.
  destruct (GetVerifiedContributions _ _ _) as [[[idx vvecs] sks]|]; simpl; auto.
  destruct (BuildQuorumVerificationVector vvecs); simpl; auto.
Qed.

Lemma StartCachePopulatorThread_fields (a : nat) (st : NodeState) :
  let st' := StartCachePopulatorThread a st in
  same_outside_quorums st st'
  /\ quorums st' = quorums st /\ evoDb st' = evoDb st
  /\ mapQuorumsCache st' = mapQuorumsCache st.
Proof.
  unfold StartCachePopulatorThread, same_outside_quorums.
  destruct (quorums st !! a) as [q|]; [|tauto].
  destruct (HasVerificationVector q); simpl; tauto.
Qed.

(** What [BuildQuorumFromCommitment] does for a configured type: nothing
    when the store has no commitment for the anchor, and otherwise one new
    quorum object for that anchor, entered into the quorum cache. Neither
    assertion can fail, because the store is looked up by the commitment's
    own type and hash. *)
Lemma BuildQuorumFromCommitment_spec (t : LLMQType) (pindexQuorum_ : CBlockIndex)
    (st : NodeState) (p : LLMQParams) :
  llmqs !! t = Some p ->
  (GetMinedCommitment (minedCommitments st) t (GetBlockHash pindexQuorum_) = None
   /\ BuildQuorumFromCommitment t pindexQuorum_ st = Ok (None, st))
  \/ exists e q st',
       GetMinedCommitment (minedCommitments st) t (GetBlockHash pindexQuorum_) = Some e
       /\ BuildQuorumFromCommitment t pindexQuorum_ st
          = Ok (Some (length (quorums st)), st')
       /\ quorums st' = quorums st ++ [q]
       /\ pindexQuorum q = pindexQuorum_ /\ qc q = fst e /\ params q = p
       /\ minedBlockHash q = snd e
       /\ members q = GetAllQuorumMembers (llmqType (fst e)) pindexQuorum_
       /\ mapQuorumsCache st'
          = <[t := cache_insert (GetBlockHash pindexQuorum_) (length (quorums st))
                     (cache_at (mapQuorumsCache st) t)]> (mapQuorumsCache st)
       /\ same_outside_quorums st st'.
Proof.
  intros Hp. unfold BuildQuorumFromCommitment.
  destruct (GetMinedCommitment (minedCommitments st) t (GetBlockHash pindexQuorum_))
    as [[qc_ mb]|] eqn:Eg; [right|left; auto].
  destruct (GetMinedCommitment_Some _ _ _ _ Eg) as (Ht & Hh & _). simpl in Ht, Hh.
  rewrite Hh, Z.eqb_refl, Hp. cbn [negb].
  set (q0 := mkQuorum p qc_ pindexQuorum_ mb
                      (GetAllQuorumMembers (llmqType qc_) pindexQuorum_)
                      None CBLSSecretKey_default false).
  pose proof (ReadContributions_fields q0 (evoDb st)) as Hr.
  destruct (ReadContributions q0 (evoDb st)) as [[|] q1] eqn:Er; simpl in Hr.
  - destruct Hr as (H1 & H2 & H3 & H4 & H5).
    match goal with
    | |- context [StartCachePopulatorThread ?a ?s] =>
        pose proof (StartCachePopulatorThread_fields a s) as (Ho & Hq & He & Hc)
    end.
    eexists (qc_, mb), q1, _. split; [reflexivity|]. split; [reflexivity|].
    cbn [mapQuorumsCache quorums set_mapQuorumsCache fst snd].
    rewrite Hq, Hc. cbn [quorums set_evoDb set_quorums mapQuorumsCache].
    repeat (split; [first [reflexivity|assumption]|]).
    eapply same_outside_quorums_trans; [|exact Ho].
    unfold same_outside_quorums. simpl. tauto.
  - pose proof (BuildQuorumContributions_fields qc_ q1) as Hb.
    destruct (BuildQuorumContributions qc_ q1) as [[|] q2] eqn:Eb; simpl in Hb.
    + destruct Hr as (H1 & H2 & H3 & H4 & H5). destruct Hb as (G1 & G2 & G3 & G4 & G5).
      match goal with
      | |- context [StartCachePopulatorThread ?a ?s] =>
          pose proof (StartCachePopulatorThread_fields a s) as (Ho & Hq & He & Hc)
      end.
      eexists (qc_, mb), q2, _. split; [reflexivity|]. split; [reflexivity|].
      cbn [mapQuorumsCache quorums set_mapQuorumsCache fst snd].
      rewrite Hq, Hc. cbn [quorums set_evoDb set_quorums mapQuorumsCache].
      repeat (split; [first [reflexivity|congruence]|]).
      eapply same_outside_quorums_trans; [|exact Ho].
      unfold same_outside_quorums. simpl. tauto.
    + destruct Hr as (H1 & H2 & H3 & H4 & H5). destruct Hb as (G1 & G2 & G3 & G4 & G5).
      eexists (qc_, mb), q2, _. split; [reflexivity|]. split; [reflexivity|].
      cbn [mapQuorumsCache quorums set_mapQuorumsCache set_evoDb set_quorums fst snd].
      repeat (split; [first [reflexivity|congruence]|]).
      unfold same_outside_quorums. simpl. tauto.
Qed.

End BuildProperties.

(** ** Looking a quorum up *)

Section GetQuorumProperties.
Context {ext : Externals}.

Lemma cache_get_miss {V : Type} (k : uint256) (c : unordered_lru_cache V) :
  fst (cache_get k c) = None -> snd (cache_get k c) = c.
Proof.
  unfold cache_get. destruct (cache_find k (cacheMap c)); [discriminate|reflexivity].
Qed.

(** For a configured type [GetQuorum] always returns: with null when the
    store has no commitment for the anchor, and with a quorum otherwise. It
    touches only the quorum objects, the quorum cache, the evo database and
    the worker queue. *)
Lemma GetQuorum_total (t : LLMQType) (pindexQuorum_ : CBlockIndex) (st : NodeState)
    (p : LLMQParams) :
  llmqs !! t = Some p ->
  exists r st',
    GetQuorum t pindexQuorum_ st = Ok (r, st')
    /\ same_outside_quorums st st'
    /\ (is_Some r <->
        HasMinedCommitment (minedCommitments st) t (GetBlockHash pindexQuorum_) = true).
Proof.
  intros Hp. unfold GetQuorum, HasQuorum.
  destruct (HasMinedCommitment (minedCommitments st) t (GetBlockHash pindexQuorum_))
    eqn:Eh; cbn [negb].
  - destruct (cache_get (GetBlockHash pindexQuorum_) (cache_at (mapQuorumsCache st) t))
      as [[a|] cache] eqn:Ec.
    + eexists _, _. split; [reflexivity|]. split.
      * unfold same_outside_quorums. simpl. tauto.
      * split; eauto.
    + match goal with
      | |- context [BuildQuorumFromCommitment t pindexQuorum_ ?s] => set (st1 := s)
      end.
      destruct (BuildQuorumFromCommitment_spec t pindexQuorum_ st1 p Hp)
        as [[Hnone _]|(e & q & st' & _ & Hb & _ & _ & _ & _ & _ & _ & _ & Ho)].
      * apply GetMinedCommitment_Has in Eh as (e & He).
        subst st1. simpl in Hnone. congruence.
      * rewrite Hb. eexists _, _. split; [reflexivity|]. split.
        -- eapply same_outside_quorums_trans; [|exact Ho].
           subst st1. unfold same_outside_quorums. simpl. tauto.
        -- split; eauto.
  - eexists _, _. split; [reflexivity|]. split; [apply same_outside_quorums_refl|].
    split; [intros [? ?]; discriminate|discriminate].
Qed.

End GetQuorumProperties.

(** ** One request per peer and direction *)

Section RequestProperties.
Context {ext : Externals}.

Lemma errorHandler_fields (pFrom : CNode.t) (strError : string) (nScore : Z)
    (st : NodeState) :
  let st' := errorHandler pFrom strError nScore st in
  same_quorum_state st st'
  /\ mapQuorumsCache st' = mapQuorumsCache st
  /\ scanQuorumsCache st' = scanQuorumsCache st
  /\ mapQuorumDataRequests st' = mapQuorumDataRequests st
  /\ vSendMsg st' = vSendMsg st
  /\ workerPool st' = workerPool st
  /\ self st' = self st
  /\ errorLog st' = errorLog st ++ [strError]
  /\ misbehaving st'
     = if 0 <? nScore then misbehaving st ++ [(CNode.id pFrom, nScore)]
       else misbehaving st.
Proof.
  unfold errorHandler, same_quorum_state. destruct (0 <? nScore); simpl; tauto.
Qed.

(** Serving a request pushes messages and may build the quorum; it leaves
    the request table, the scores and the error log alone. *)
Lemma QGETDATA_serve_frame (pFrom : CNode.t) (request : CQuorumDataRequest.t)
    (st1 : NodeState) :
  let st' := final_state (QGETDATA_serve pFrom request st1) in
  mapQuorumDataRequests st' = mapQuorumDataRequests st1
  /\ misbehaving st' = misbehaving st1
  /\ errorLog st' = errorLog st1.
Proof.
  unfold QGETDATA_serve.
  destruct (llmqs !! CQuorumDataRequest.llmqType request) as [p|] eqn:Ep; [|simpl; tauto].
  destruct (LookupBlockIndex (mapBlockIndex st1) (CQuorumDataRequest.quorumHash request))
    as [idx|]; [|simpl; tauto].
  destruct (GetQuorum_total (CQuorumDataRequest.llmqType request) idx st1 p Ep)
    as (r & st2 & Hg & (_&_&_&_&Hreq&_&Hmis&Hlog) & _).
  rewrite Hg. cbn [bind fst snd].
  destruct r as [a|]; [|simpl; tauto].
  destruct (quorums st2 !! a) as [q|]; [|simpl; tauto].
  repeat match goal with
         | |- context [if ?b then _ else _] => destruct b
         | |- context [match GetEncryptedContributions ?a ?b ?c ?d with _ => _ end] =>
             destruct (GetEncryptedContributions a b c d)
         end; simpl; tauto.
Qed.

(** The request table under repeated requests. For a key (peer identity,
    direction) the request table holds at most one request, and an unexpired
    one is not replaced:
    - a QGETDATA that arrives while an unexpired request of the peer is on
      record leaves the table as it is and scores the peer 25
      ("Request limit exceeded");
    - [RequestQuorumData] towards a peer with an unexpired outgoing request
      on record returns [false], sends nothing and leaves the table as it is;
    - once the request on record is expired, an arriving QGETDATA replaces it
      without any score, and [RequestQuorumData], its other conditions being
      met, returns [true] and sends a QGETDATA. *)
Theorem one_request_per_peer_and_direction (now : Z) (st : NodeState) :
  (forall pFrom vRecv request stored,
     serves_QGETDATA st pFrom = true ->
     ds_request vRecv = Some request ->
     mapQuorumDataRequests st !! (CNode.verifiedProRegTxHash pFrom, false) = Some stored ->
     IsExpired now stored = false ->
     let st' := final_state (ProcessMessage_QGETDATA now pFrom vRecv st) in
     mapQuorumDataRequests st' = mapQuorumDataRequests st
     /\ misbehaving st' = misbehaving st ++ [(CNode.id pFrom, 25)]
     /\ errorLog st' = errorLog st ++ ["Request limit exceeded"%string])
  /\ (forall from t pQuorumIndex nDataMask proTxHash_ stored,
        mapQuorumDataRequests st !! (CNode.verifiedProRegTxHash from, true) = Some stored ->
        IsExpired now stored = false ->
        exists st',
          RequestQuorumData now (Some from) t pQuorumIndex nDataMask proTxHash_ st
          = Ok (false, st')
          /\ vSendMsg st' = vSendMsg st
          /\ mapQuorumDataRequests st' = mapQuorumDataRequests st)
  /\ (forall pFrom vRecv request stored,
        serves_QGETDATA st pFrom = true ->
        ds_request vRecv = Some request ->
        mapQuorumDataRequests st !! (CNode.verifiedProRegTxHash pFrom, false) = Some stored ->
        IsExpired now stored = true ->
        let st' := final_state (ProcessMessage_QGETDATA now pFrom vRecv st) in
        mapQuorumDataRequests st'
        = <[(CNode.verifiedProRegTxHash pFrom, false) := request]> (mapQuorumDataRequests st)
        /\ misbehaving st' = misbehaving st
        /\ errorLog st' = errorLog st)
  /\ (forall from t pQuorumIndex nDataMask proTxHash_ stored,
        mapQuorumDataRequests st !! (CNode.verifiedProRegTxHash from, true) = Some stored ->
        IsExpired now stored = true ->
        LLMQ_DATA_MESSAGES_VERSION <= CNode.nVersion from ->
        uint256_IsNull (CNode.verifiedProRegTxHash from) && negb (CNode.qwatch from) = false ->
        is_Some (llmqs !! t) ->
        HasMinedCommitment (minedCommitments st) t (GetBlockHash pQuorumIndex) = true ->
        exists st',
          RequestQuorumData now (Some from) t (Some pQuorumIndex) nDataMask proTxHash_ st
          = Ok (true, st')
          /\ vSendMsg st' = vSendMsg st ++ [QGETDATA (CNode.id from) stored]).
Proof.
  split; [|split; [|split]].
  - intros pFrom vRecv request stored Hgate Hreq Hst Hexp.
    unfold ProcessMessage_QGETDATA. unfold serves_QGETDATA in Hgate.
    apply negb_true_iff in Hgate. rewrite Hgate, Hreq.
    pose proof (QGETDATA_serve_frame pFrom request (QGETDATA_limit now pFrom request st))
      as (H1 & H2 & H3).
    cbv zeta. rewrite H1, H2, H3. unfold QGETDATA_limit. rewrite Hst, Hexp.
    pose proof (errorHandler_fields pFrom "Request limit exceeded" 25 st)
      as (_&_&_&Hr&_&_&_&Hl&Hm).
    simpl in Hm. tauto.
  - intros from t pQuorumIndex nDataMask proTxHash_ stored Hst Hexp.
    unfold RequestQuorumData.
    destruct (CNode.nVersion from <? LLMQ_DATA_MESSAGES_VERSION); [eauto|].
    destruct (uint256_IsNull (CNode.verifiedProRegTxHash from) && negb (CNode.qwatch from));
      [eauto|].
    destruct (llmqs !! t) as [p|] eqn:Ep; [|eauto].
    destruct pQuorumIndex as [idx|]; [|eauto].
    destruct (GetQuorum_total t idx st p Ep) as (r & st1 & Hg & (_&_&_&_&Hreq&Hsend&_) & _).
    rewrite Hg. cbn [bind fst snd].
    destruct r as [a|]; [|eauto].
    rewrite Hreq, Hst, Hexp. cbn [negb]. eauto.
  - intros pFrom vRecv request stored Hgate Hreq Hst Hexp.
    unfold ProcessMessage_QGETDATA. unfold serves_QGETDATA in Hgate.
    apply negb_true_iff in Hgate. rewrite Hgate, Hreq.
    pose proof (QGETDATA_serve_frame pFrom request (QGETDATA_limit now pFrom request st))
      as (H1 & H2 & H3).
    cbv zeta. rewrite H1, H2, H3. unfold QGETDATA_limit. rewrite Hst, Hexp.
    simpl. tauto.
  - intros from t idx nDataMask proTxHash_ stored Hst Hexp Hver Hpeer [p Ep] Hmined.
    unfold RequestQuorumData.
    apply Z.ltb_ge in Hver. rewrite Hver, Hpeer, Ep.
    destruct (GetQuorum_total t idx st p Ep)
      as (r & st1 & Hg & (_&_&_&_&Hreq&Hsend&_) & Hr).
    rewrite Hg. cbn [bind fst snd].
    destruct (proj2 Hr Hmined) as [a Ha]. rewrite Ha.
    rewrite Hreq, Hst, Hexp. cbn [negb]. eexists. split; [reflexivity|].
    simpl. rewrite Hsend. reflexivity.
Qed.

End RequestProperties.

(** The request table at the example: masternode 12 has a request on record
    in each direction since time 1000, and the timeout is 300. At time 1010
    its second QGETDATA is scored and not recorded, and our second request
    to it is refused; at time 2000 both go through. *)
Lemma one_request_per_peer_and_direction_witness :
  (let st' := final_state (ProcessMessage_QGETDATA (ext := Example.ext) 1010
                             Example.peer12 Example.streamVvec Example.stBusy) in
   mapQuorumDataRequests st' = mapQuorumDataRequests Example.stBusy
   /\ misbehaving st' = [(7, 25)]
   /\ errorLog st' = ["Request limit exceeded"%string])
  /\ (exists st',
        RequestQuorumData (ext := Example.ext) 1010 (Some Example.peer12) 1
          (Some Example.b1) 2 11 Example.stBusy = Ok (false, st')
        /\ vSendMsg st' = []
        /\ mapQuorumDataRequests st' = mapQuorumDataRequests Example.stBusy)
  /\ (let st' := final_state (ProcessMessage_QGETDATA (ext := Example.ext) 2000
                                Example.peer12 Example.streamVvec Example.stBusy) in
      mapQuorumDataRequests st'
      = <[(12, false) := Example.requestVvec]> (mapQuorumDataRequests Example.stBusy)
      /\ misbehaving st' = []
      /\ errorLog st' = [])
  /\ (exists st',
        RequestQuorumData (ext := Example.ext) 2000 (Some Example.peer12) 1
          (Some Example.b1) 2 11 Example.stBusy = Ok (true, st')
        /\ vSendMsg st' = [QGETDATA 7 Example.requestOut]).
Proof.
  pose proof (one_request_per_peer_and_direction (ext := Example.ext) 1010 Example.stBusy)
    as (Hin & Hout & _ & _).
  pose proof (one_request_per_peer_and_direction (ext := Example.ext) 2000 Example.stBusy)
    as (_ & _ & Hin' & Hout').
  split; [|split; [|split]].
  - apply (Hin Example.peer12 Example.streamVvec Example.requestVvec Example.requestVvec);
      reflexivity.
  - apply (Hout Example.peer12 1 (Some Example.b1) 2 11 Example.requestOut); reflexivity.
  - apply (Hin' Example.peer12 Example.streamVvec Example.requestVvec Example.requestVvec);
      reflexivity.
  - apply (Hout' Example.peer12 1 Example.b1 2 11 Example.requestOut);
      try reflexivity; eexists; reflexivity.
Defined.

(** C8 run from the first request on: masternode 12 sends the same QGETDATA
    at time 1000 and again at time 1010, before the first has expired. The
    second is scored 25, and it is served all the same: the handler sends a
    second QDATA with error NONE and the verification vector. *)
Lemma duplicate_QGETDATA_counterexample :
  exists st1 st2,
    ProcessMessage (ext := Example.ext) 1000 Example.peer12 NetMsgType.QGETDATA
      Example.streamVvec Example.stServing = Ok st1
    /\ mapQuorumDataRequests st1 !! (12, false) = Some Example.requestVvec
    /\ IsExpired (ext := Example.ext) 1010 Example.requestVvec = false
    /\ ProcessMessage (ext := Example.ext) 1010 Example.peer12 NetMsgType.QGETDATA
         Example.streamVvec st1 = Ok st2
    /\ misbehaving st2 = [(7, 25)]
    /\ vSendMsg st2
       = vSendMsg st1
         ++ [QDATA 7 (CQuorumDataRequest.SetError Example.requestVvec CQuorumDataRequest.NONE)
               (mkBody (Some Example.vvecA) None)].
Proof.
  eexists _, _. split; [vm_compute; reflexivity|].
  split; [reflexivity|]. split; [reflexivity|].
  split; [vm_compute; reflexivity|]. split; reflexivity.
Qed.

(** ** Responses are matched against the request on record *)

Section ResponseProperties.
Context {ext : Externals}.

Lemma QDATA_write_frame (a : nat) (st : NodeState) :
  let st' := final_state (QDATA_write a st) in
  mapQuorumDataRequests st' = mapQuorumDataRequests st /\ self st' = self st.
Proof.
  unfold QDATA_write. destruct (quorums st !! a); simpl; tauto.
Qed.

Lemma QDATA_contributions_frame (pFrom : CNode.t) (request : CQuorumDataRequest.t)
    (vRecv : CDataStream) (a : nat) (st : NodeState) :
  let st' := final_state (QDATA_contributions pFrom request vRecv a st) in
  mapQuorumDataRequests st' = mapQuorumDataRequests st /\ self st' = self st.
Proof.
  unfold QDATA_contributions.
  destruct (CQuorumDataRequest.wants request CQuorumDataRequest.ENCRYPTED_CONTRIBUTIONS);
    [|apply QDATA_write_frame].
  destruct (quorums st !! a) as [q|]; [|simpl; tauto].
  destruct (quorumVvec q) as [vvec|]; [|simpl; tauto].
  destruct (negb (Z.of_nat (length vvec) =? to_size_t (llmq_threshold (params q))));
    [destruct (errorHandler_fields pFrom "No valid quorum verification vector available" 0 st)
       as (_&_&_&?&_&_&?&_); simpl; tauto|].
  destruct (GetMemberIndex q (CQuorumDataRequest.proTxHash request) =? -1);
    [destruct (errorHandler_fields pFrom "Not a member of the quorum" 0 st)
       as (_&_&_&?&_&_&?&_); simpl; tauto|].
  destruct (ds_contributions vRecv) as [vecEncrypted|]; [|simpl; tauto].
  destruct (blsKeyOperator (self st)) as [secret|]; [|simpl; tauto].
  destruct (decrypt_all _ secret vecEncrypted) as [keys|];
    [|destruct (errorHandler_fields pFrom "Failed to decrypt" 10 st)
        as (_&_&_&?&_&_&?&_); simpl; tauto].
  destruct (SetSecretKeyShare (self st) q (AggregateSecretKeys keys)) as [[|] q'];
    [|destruct (errorHandler_fields pFrom "Invalid secret key share received" 10 st)
        as (_&_&_&?&_&_&?&_); simpl; tauto].
  match goal with
  | |- context [QDATA_write a ?s] => destruct (QDATA_write_frame a s) as [H1 H2]
  end.
  cbv zeta. rewrite H1, H2. simpl. tauto.
Qed.

Lemma QDATA_vvec_frame (pFrom : CNode.t) (request : CQuorumDataRequest.t)
    (vRecv : CDataStream) (a : nat) (st : NodeState) :
  let st' := final_state (QDATA_vvec pFrom request vRecv a st) in
  mapQuorumDataRequests st' = mapQuorumDataRequests st /\ self st' = self st.
Proof.
  unfold QDATA_vvec.
  destruct (CQuorumDataRequest.wants request CQuorumDataRequest.QUORUM_VERIFICATION_VECTOR);
    [|apply QDATA_contributions_frame].
  destruct (ds_vvec vRecv) as [vv|]; [|simpl; tauto].
  destruct (quorums st !! a) as [q|]; [|simpl; tauto].
  destruct (SetVerificationVector q vv) as [[|] q'];
    [|destruct (errorHandler_fields pFrom "Invalid quorum verification vector" 10 st)
        as (_&_&_&?&_&_&?&_); simpl; tauto].
  match goal with
  | |- context [QDATA_contributions pFrom request vRecv a ?s] =>
      destruct (QDATA_contributions_frame pFrom request vRecv a s) as [H1 H2]
  end.
  match goal with
  | |- context [StartCachePopulatorThread a ?s] =>
      destruct (StartCachePopulatorThread_fields a s) as ((_&_&Hs&_&Hr&_) & _)
  end.
  cbv zeta. rewrite H1, H2, Hr, Hs. simpl. tauto.
Qed.

(** C9, as the code has it. A QDATA response from a sender the node accepts
    responses from is compared with the outgoing request on record for that
    sender:
    - with none on record it is rejected with "Not requested", with a
      processed one with "Already received", and with an unprocessed one
      whose type, quorum hash, data mask or requester differs with
      "Not like requested";
    - unless an unprocessed request with equal fields is on record, the
      handler changes neither the quorums, nor the persisted contributions,
      nor the request table;
    - a response that matches marks the request processed before anything
      else, so that the same response, arriving again, is rejected with
      "Already received". *)
Theorem QDATA_matches_request_on_record
    (pFrom : CNode.t) (vRecv : CDataStream) (st : NodeState) :
  let key := (CNode.verifiedProRegTxHash pFrom, true) in
  let r := ProcessMessage_QDATA pFrom vRecv st in
  (forall request,
     accepts_QDATA st pFrom = true ->
     ds_request vRecv = Some request ->
     (mapQuorumDataRequests st !! key = None ->
      r = Ok (errorHandler pFrom "Not requested" 10 st))
     /\ (forall stored,
           mapQuorumDataRequests st !! key = Some stored ->
           (CQuorumDataRequest.fProcessed stored = true ->
            r = Ok (errorHandler pFrom "Already received" 10 st))
           /\ (CQuorumDataRequest.fProcessed stored = false ->
               CQuorumDataRequest.eqb request stored = false ->
               r = Ok (errorHandler pFrom "Not like requested" 10 st)
               /\ same_quorum_state st (final_state r)
               /\ mapQuorumDataRequests (final_state r) = mapQuorumDataRequests st)
           /\ (CQuorumDataRequest.fProcessed stored = false ->
               CQuorumDataRequest.eqb request stored = true ->
               mapQuorumDataRequests (final_state r)
               = <[key := CQuorumDataRequest.SetProcessed stored]> (mapQuorumDataRequests st)
               /\ ProcessMessage_QDATA pFrom vRecv (final_state r)
                  = Ok (errorHandler pFrom "Already received" 10 (final_state r)))))
  /\ ((~ exists request stored,
          accepts_QDATA st pFrom = true
          /\ ds_request vRecv = Some request
          /\ mapQuorumDataRequests st !! key = Some stored
          /\ CQuorumDataRequest.fProcessed stored = false
          /\ CQuorumDataRequest.eqb request stored = true) ->
      same_quorum_state st (final_state r)
      /\ mapQuorumDataRequests (final_state r) = mapQuorumDataRequests st).
Proof.
  cbv zeta. split.
  - intros request Hgate Hreq.
    unfold accepts_QDATA in Hgate. apply negb_true_iff in Hgate.
    split; [|intros stored Hst; split; [|split]].
    + intros Hnone. unfold ProcessMessage_QDATA. rewrite Hgate, Hreq, Hnone. reflexivity.
    + intros Hp. unfold ProcessMessage_QDATA. rewrite Hgate, Hreq, Hst, Hp. reflexivity.
    + intros Hp Hne. unfold ProcessMessage_QDATA. rewrite Hgate, Hreq, Hst, Hp, Hne.
      cbn [negb final_state].
      destruct (errorHandler_fields pFrom "Not like requested" 10 st) as (?&_&_&?&_).
      auto.
    + intros Hp Heq.
      assert (Hfin :
        mapQuorumDataRequests (final_state (ProcessMessage_QDATA pFrom vRecv st))
        = <[(CNode.verifiedProRegTxHash pFrom, true)
            := CQuorumDataRequest.SetProcessed stored]> (mapQuorumDataRequests st)
        /\ self (final_state (ProcessMessage_QDATA pFrom vRecv st)) = self st).
      { unfold ProcessMessage_QDATA. rewrite Hgate, Hreq, Hst, Hp, Heq. cbn [negb].
        destruct (negb (CQuorumDataRequest.Errors_eqb (CQuorumDataRequest.nError request)
                          CQuorumDataRequest.NONE)).
        - match goal with
          | |- context [errorHandler pFrom ?e 0 ?s] =>
              destruct (errorHandler_fields pFrom e 0 s) as (_&_&_&H1&_&_&H2&_)
          end.
          cbn [final_state]. rewrite H1, H2. simpl. tauto.
        - destruct (cache_get _ _) as [[a|] cache].
          + match goal with
            | |- context [QDATA_vvec pFrom request vRecv a ?s] =>
                destruct (QDATA_vvec_frame pFrom request vRecv a s) as [H1 H2]
            end.
            rewrite H1, H2. simpl. tauto.
          + match goal with
            | |- context [errorHandler pFrom ?e 0 ?s] =>
                destruct (errorHandler_fields pFrom e 0 s) as (_&_&_&H1&_&_&H2&_)
            end.
            cbn [final_state]. rewrite H1, H2. simpl. tauto. }
      destruct Hfin as [Hreqs Hself]. split; [exact Hreqs|].
      unfold ProcessMessage_QDATA at 1. rewrite Hself, Hgate, Hreq, Hreqs.
      rewrite lookup_insert_eq. reflexivity.
  - intros Hno. unfold ProcessMessage_QDATA.
    destruct ((negb (fMasternodeMode (self st)) && negb (fWatchQuorums (self st)))
              || (uint256_IsNull (CNode.verifiedProRegTxHash pFrom)
                  && negb (CNode.qwatch pFrom))) eqn:Hgate.
    { cbn [final_state].
      destruct (errorHandler_fields pFrom
                  "Not a verified masternode or a qwatch connection" 10 st) as (?&_&_&?&_).
      auto. }
    destruct (ds_request vRecv) as [request|] eqn:Hreq;
      [|simpl; unfold same_quorum_state; tauto].
    destruct (mapQuorumDataRequests st !! (CNode.verifiedProRegTxHash pFrom, true))
      as [stored|] eqn:Hst.
    2:{ cbn [final_state].
        destruct (errorHandler_fields pFrom "Not requested" 10 st) as (?&_&_&?&_). auto. }
    destruct (CQuorumDataRequest.fProcessed stored) eqn:Hp.
    { cbn [final_state].
      destruct (errorHandler_fields pFrom "Already received" 10 st) as (?&_&_&?&_). auto. }
    destruct (CQuorumDataRequest.eqb request stored) eqn:Heq.
    { exfalso. apply Hno. exists request, stored.
      unfold accepts_QDATA. rewrite Hgate. auto. }
    cbn [negb final_state].
    destruct (errorHandler_fields pFrom "Not like requested" 10 st) as (?&_&_&?&_). auto.
Qed.

End ResponseProperties.

(** C9 at the example, on [stBusy] where [requestOut] (data mask 2) is on
    record for masternode 12: a response that echoes data mask 3 is rejected
    with "Not like requested" and changes no quorum state; the response that
    echoes the request marks it processed and, arriving again, is rejected
    with "Already received". *)
Lemma QDATA_matches_request_on_record_witness :
  (let r := ProcessMessage_QDATA (ext := Example.ext) Example.peer12
              Example.responseOtherMask Example.stBusy in
   r = Ok (errorHandler Example.peer12 "Not like requested" 10 Example.stBusy)
   /\ same_quorum_state Example.stBusy (final_state r)
   /\ mapQuorumDataRequests (final_state r) = mapQuorumDataRequests Example.stBusy)
  /\ (let r := ProcessMessage_QDATA (ext := Example.ext) Example.peer12
                 Example.responseOk Example.stBusy in
      mapQuorumDataRequests (final_state r)
      = <[(12, true) := CQuorumDataRequest.SetProcessed Example.requestOut]>
          (mapQuorumDataRequests Example.stBusy)
      /\ ProcessMessage_QDATA (ext := Example.ext) Example.peer12 Example.responseOk
           (final_state r)
         = Ok (errorHandler Example.peer12 "Already received" 10 (final_state r))).
Proof.
  split.
  - eapply (QDATA_matches_request_on_record (ext := Example.ext)
              Example.peer12 Example.responseOtherMask Example.stBusy);
      reflexivity.
  - eapply (QDATA_matches_request_on_record (ext := Example.ext)
              Example.peer12 Example.responseOk Example.stBusy);
      reflexivity.
Defined.

(** C9 as stated fails in the reason it names. In both cases below an
    outgoing request is on record for masternode 12 and the response echoes
    another data mask. On a node that is neither a masternode nor watching
    quorums the response is rejected by the sender test, which comes first;
    and when the request on record is already processed, the response is
    rejected with "Already received". Neither reason is "Not like
    requested". *)
Lemma QDATA_mismatch_counterexample :
  (mapQuorumDataRequests Example.stBusyPlain !! (12, true) = Some Example.requestOut
   /\ CQuorumDataRequest.fProcessed Example.requestOut = false
   /\ (exists request,
         ds_request Example.responseOtherMask = Some request
         /\ CQuorumDataRequest.eqb request Example.requestOut = false)
   /\ ProcessMessage (ext := Example.ext) 1001 Example.peer12 NetMsgType.QDATA
        Example.responseOtherMask Example.stBusyPlain
      = Ok (errorHandler Example.peer12
              "Not a verified masternode or a qwatch connection" 10 Example.stBusyPlain))
  /\ (mapQuorumDataRequests Example.stBusyProcessed !! (12, true)
      = Some (CQuorumDataRequest.SetProcessed Example.requestOut)
      /\ (exists request,
            ds_request Example.responseOtherMask = Some request
            /\ CQuorumDataRequest.eqb request
                 (CQuorumDataRequest.SetProcessed Example.requestOut) = false)
      /\ ProcessMessage (ext := Example.ext) 1001 Example.peer12 NetMsgType.QDATA
           Example.responseOtherMask Example.stBusyProcessed
         = Ok (errorHandler Example.peer12 "Already received" 10 Example.stBusyProcessed)).
Proof.
  split.
  - split; [reflexivity|]. split; [reflexivity|].
    split; [eexists; split; reflexivity|reflexivity].
  - split; [reflexivity|].
    split; [eexists; split; reflexivity|reflexivity].
Qed.

(** ** The verification vector in the QDATA handler *)

Section VvecDereference.
Context {ext : Externals}.

(** When the response's data mask asks for the encrypted contributions and
    the quorum has no verification vector, the handler dereferences the null
    [quorumVvec]. *)
Lemma QDATA_contributions_null_vvec (pFrom : CNode.t) (request : CQuorumDataRequest.t)
    (vRecv : CDataStream) (pQuorum : nat) (q : CQuorum) (st : NodeState) :
  CQuorumDataRequest.wants request CQuorumDataRequest.ENCRYPTED_CONTRIBUTIONS = true ->
  quorums st !! pQuorum = Some q ->
  quorumVvec q = None ->
  QDATA_contributions pFrom request vRecv pQuorum st = Stop NullDereference st.
Proof.
  intros Hw Hq Hv. unfold QDATA_contributions. rewrite Hw, Hq, Hv. reflexivity.
Qed.

End VvecDereference.

(** C10 fails on the code. The node asks masternode 12 for the encrypted
    contributions only (data mask 2) of the quorum of anchor [b1], which it
    has built without a verification vector; the request is accepted and
    sent. When the answer arrives, with the request echoed and error NONE,
    the handler reaches [pQuorum->quorumVvec->size()] with a null
    [quorumVvec]. *)
Lemma QDATA_null_vvec_dereference :
  exists st1 st2,
    RequestQuorumData (ext := Example.ext) 1000 (Some Example.peer12) 1 (Some Example.b1)
      CQuorumDataRequest.ENCRYPTED_CONTRIBUTIONS 11 Example.stFresh = Ok (true, st1)
    /\ vSendMsg st1 = [QGETDATA 7 Example.requestOut]
    /\ (exists pQuorum q,
          cache_find 101 (cacheMap (cache_at (mapQuorumsCache st1) 1)) = Some pQuorum
          /\ quorums st1 !! pQuorum = Some q /\ quorumVvec q = None)
    /\ ProcessMessage (ext := Example.ext) 1001 Example.peer12 NetMsgType.QDATA
         Example.responseOk st1 = Stop NullDereference st2.
Proof.
  eexists _, _. split; [vm_compute; reflexivity|].
  split; [reflexivity|].
  split; [eexists _, _; split; [reflexivity|split; reflexivity]|].
  vm_compute. reflexivity.
Qed.

(** ** The bounded cache *)

Section CacheProperties.
Context {V : Type}.

Lemma cache_find_cons (k k' : uint256) (v : V) (l : list (Z * V)) :
  cache_find k' ((k, v) :: l) = if k =? k' then Some v else cache_find k' l.
Proof. unfold cache_find. simpl. destruct (k =? k'); reflexivity. Qed.

Lemma cache_find_remove_ne (k k' : uint256) (l : list (Z * V)) :
  k <> k' -> cache_find k' (cache_remove k l) = cache_find k' l.
Proof.
  intros Hne. unfold cache_remove. induction l as [|[k0 v0] l IH]; [reflexivity|].
  simpl. destruct (Z.eqb_spec k0 k) as [->|Hk]; simpl.
  - rewrite cache_find_cons. destruct (Z.eqb_spec k k'); [contradiction|exact IH].
  - rewrite !cache_find_cons. destruct (k0 =? k'); [reflexivity|exact IH].
Qed.

Lemma cache_find_take (k : uint256) (n : nat) (l : list (Z * V)) (v : V) :
  cache_find k (take n l) = Some v -> cache_find k l = Some v.
Proof.
  revert n. induction l as [|[k0 v0] l IH]; intros [|n]; simpl; try discriminate.
  rewrite !cache_find_cons. destruct (k0 =? k); [auto|apply IH].
Qed.

(** A hit refreshes the entry and changes no lookup. *)
Lemma cache_get_find (k k' : uint256) (c : unordered_lru_cache V) :
  cache_find k' (cacheMap (snd (cache_get k c))) = cache_find k' (cacheMap c).
Proof.
  unfold cache_get. destruct (cache_find k (cacheMap c)) as [v|] eqn:E; [|reflexivity].
  simpl. rewrite cache_find_cons. destruct (Z.eqb_spec k k') as [->|Hne].
  - symmetry. exact E.
  - apply cache_find_remove_ne. exact Hne.
Qed.

Lemma cache_get_fst (k : uint256) (c : unordered_lru_cache V) :
  fst (cache_get k c) = cache_find k (cacheMap c).
Proof. unfold cache_get. destruct (cache_find k (cacheMap c)); reflexivity. Qed.

Lemma cache_get_max_size (k : uint256) (c : unordered_lru_cache V) :
  max_size (snd (cache_get k c)) = max_size c.
Proof. unfold cache_get. destruct (cache_find k (cacheMap c)); reflexivity. Qed.

(** After an insert, a lookup finds the new entry or one that was there. *)
Lemma cache_insert_find (k k' : uint256) (v v' : V) (c : unordered_lru_cache V) :
  cache_find k' (cacheMap (cache_insert k v c)) = Some v' ->
  (k' = k /\ v' = v) \/ cache_find k' (cacheMap c) = Some v'.
Proof.
  unfold cache_insert. simpl. intros H. apply cache_find_take in H.
  rewrite cache_find_cons in H. destruct (Z.eqb_spec k k') as [->|Hne].
  - left. split; congruence.
  - right. rewrite cache_find_remove_ne in H by exact Hne. exact H.
Qed.

Lemma cache_at_insert (m : gmap Z (unordered_lru_cache V)) (t t' : LLMQType)
    (c : unordered_lru_cache V) :
  cache_at (<[t := c]> m) t' = if decide (t = t') then c else cache_at m t'.
Proof.
  unfold cache_at. rewrite lookup_insert. destruct (decide (t = t')); reflexivity.
Qed.

End CacheProperties.

(** ** Scanning for quorums *)

Section AnchorProperties.
Context {ext : Externals}.

Lemma quorumIdentities_app (st : NodeState) (l1 l2 : list nat) :
  quorumIdentities st (l1 ++ l2) = quorumIdentities st l1 ++ quorumIdentities st l2.
Proof. unfold quorumIdentities. apply List.map_app. Qed.

Lemma quorumIdentities_take (st : NodeState) (n : nat) (l : list nat) :
  quorumIdentities st (take n l) = take n (quorumIdentities st l).
Proof. unfold quorumIdentities. symmetry. apply List.firstn_map. Qed.

Lemma quorumIdentities_length {B : Type} (st : NodeState) (l : list nat)
    (f : B -> option QuorumIdentity) (bs : list B) :
  quorumIdentities st l = List.map f bs -> length l = length bs.
Proof.
  intros H. apply (f_equal (@length _)) in H.
  unfold quorumIdentities in H. rewrite !List.length_map in H. exact H.
Qed.

Lemma quorumIdentities_lookup (st : NodeState) (l : list nat) (i a : nat) :
  l !! i = Some a ->
  quorumIdentities st l !! i
  = Some (match quorums st !! a with
          | Some q => Some (identity_of q)
          | None => None
          end).
Proof.
  revert i. induction l as [|x l IH]; intros [|i] H; simpl in *; try discriminate.
  - injection H as ->. reflexivity.
  - apply IH. exact H.
Qed.

(** Pointers stay valid, and point to the same quorum, when quorum objects
    are added to the store. *)
Lemma quorumIdentities_extend (st st' : NodeState) (l : list nat)
    (os : list (option QuorumIdentity)) :
  quorums st `prefix_of` quorums st' ->
  Forall is_Some os ->
  quorumIdentities st l = os ->
  quorumIdentities st' l = os.
Proof.
  intros Hpre Hsome. revert os Hsome. induction l as [|a l IH]; intros os Hsome H;
    simpl in H; subst os; [reflexivity|].
  apply Forall_cons in Hsome as [Ha Hl]. simpl. f_equal; [|apply IH; [exact Hl|reflexivity]].
  destruct (quorums st !! a) as [q|] eqn:Eq; [|destruct Ha; discriminate].
  rewrite (prefix_lookup_Some _ _ _ _ Eq Hpre). reflexivity.
Qed.

Lemma minedQuorum_is_Some (db : list (CFinalCommitment * Z)) (t : LLMQType)
    (p : LLMQParams) (b : CBlockIndex) :
  llmqs !! t = Some p ->
  HasMinedCommitment db t (GetBlockHash b) = true ->
  is_Some (minedQuorum db t b).
Proof.
  intros Hp Hm. apply GetMinedCommitment_Has in Hm as (e & He).
  unfold minedQuorum. rewrite He, Hp. eauto.
Qed.

Lemma minedQuorum_anchor (db : list (CFinalCommitment * Z)) (t : LLMQType)
    (b : CBlockIndex) (i : QuorumIdentity) :
  minedQuorum db t b = Some i -> id_pindexQuorum i = b.
Proof.
  unfold minedQuorum. destruct (GetMinedCommitment db t (GetBlockHash b)); [|discriminate].
  destruct (llmqs !! t); [|discriminate]. intros H. injection H as <-. reflexivity.
Qed.

Lemma minedAnchors_unfold (db : list (CFinalCommitment * Z)) (t : LLMQType)
    (p : CBlockIndex) :
  minedAnchors db t p
  = let older := match pprev p with
                 | Some q => minedAnchors db t q
                 | None => []
                 end in
    if HasMinedCommitment db t (GetBlockHash p) then p :: older else older.
Proof. destruct p as [h n pp]. reflexivity. Qed.

(** Every block of the scan has a mined commitment. *)
Lemma minedAnchors_mined (db : list (CFinalCommitment * Z)) (t : LLMQType)
    (p b : CBlockIndex) :
  In b (minedAnchors db t p) -> HasMinedCommitment db t (GetBlockHash b) = true.
Proof.
  induction p as [h n|h n q IH] using CBlockIndex_chain_ind;
    rewrite minedAnchors_unfold; cbn [pprev GetBlockHash phashBlock];
    destruct (HasMinedCommitment db t h) eqn:E; simpl; intros H;
    try contradiction.
  - destruct H as [<-|[]]. exact E.
  - destruct H as [<-|H]; [exact E|apply IH; exact H].
  - apply IH. exact H.
Qed.

(** Every block of the scan has a mined quorum. *)
Lemma minedAnchors_quorums (db : list (CFinalCommitment * Z)) (t : LLMQType)
    (p : LLMQParams) (start : CBlockIndex) (bs : list CBlockIndex) :
  llmqs !! t = Some p ->
  (forall b, In b bs -> In b (minedAnchors db t start)) ->
  Forall is_Some (List.map (minedQuorum db t) bs).
Proof.
  intros Hp Hin. apply Forall_forall. intros o Ho.
  apply list_elem_of_In, List.in_map_iff in Ho as (b & <- & Hb).
  eapply minedQuorum_is_Some; [exact Hp|].
  eapply minedAnchors_mined. apply Hin. exact Hb.
Qed.

(** Every block of the scan is an entry of the block index. *)
Lemma minedAnchors_canonical (st : NodeState) (db : list (CFinalCommitment * Z))
    (t : LLMQType) (p b : CBlockIndex) :
  index_closed st -> canonical st p ->
  In b (minedAnchors db t p) -> canonical st b.
Proof.
  intros Hclosed.
  induction p as [h n|h n q IH] using CBlockIndex_chain_ind;
    rewrite minedAnchors_unfold; cbn [pprev GetBlockHash phashBlock];
    destruct (HasMinedCommitment db t h); simpl; intros Hp H;
    try contradiction.
  - destruct H as [<-|[]]. exact Hp.
  - destruct H as [<-|H]; [exact Hp|].
    apply IH; [|exact H]. apply (Hclosed _ _ Hp). reflexivity.
  - apply IH; [|exact H]. apply (Hclosed _ _ Hp). reflexivity.
Qed.

(** The scan is contiguous: what follows a block of the scan is the scan
    from that block's predecessor. *)
Lemma minedAnchors_continue (db : list (CFinalCommitment * Z)) (t : LLMQType)
    (p b : CBlockIndex) (k : nat) :
  minedAnchors db t p !! k = Some b ->
  drop (S k) (minedAnchors db t p)
  = match pprev b with
    | Some b' => minedAnchors db t b'
    | None => []
    end.
Proof.
  revert k.
  induction p as [h n|h n q IH] using CBlockIndex_chain_ind; intros k;
    rewrite minedAnchors_unfold; cbn [pprev GetBlockHash phashBlock];
    destruct (HasMinedCommitment db t h) eqn:E; cbv zeta.
  - destruct k as [|k]; simpl; [|discriminate]. intros H. injection H as <-.
    reflexivity.
  - discriminate.
  - destruct k as [|k]; cbn [lookup list_lookup drop].
    + intros H. injection H as <-. reflexivity.
    + intros H. apply (IH k H).
  - intros H. apply IH. exact H.
Qed.

Lemma GetMinedCommitmentsUntilBlock_continue (db : list (CFinalCommitment * Z))
    (t : LLMQType) (p b : CBlockIndex) (k n : nat) :
  minedAnchors db t p !! k = Some b ->
  GetMinedCommitmentsUntilBlock db t (pprev b) n
  = take n (drop (S k) (minedAnchors db t p)).
Proof.
  intros H. rewrite (minedAnchors_continue db t p b k H).
  unfold GetMinedCommitmentsUntilBlock. destruct (pprev b); [reflexivity|].
  rewrite take_nil. reflexivity.
Qed.

End AnchorProperties.

Section ConsistencyProperties.
Context {ext : Externals}.

Lemma canonical_same (st st' : NodeState) (b : CBlockIndex) :
  mapBlockIndex st' = mapBlockIndex st -> canonical st' b <-> canonical st b.
Proof. unfold canonical. intros ->. reflexivity. Qed.

(** Consistency survives a step that only adds quorum objects and whose
    quorum cache entries are old ones or new ones for the right quorum. *)
Lemma caches_consistent_quorum_step (st st' : NodeState) :
  caches_consistent st ->
  mapBlockIndex st' = mapBlockIndex st ->
  minedCommitments st' = minedCommitments st ->
  scanQuorumsCache st' = scanQuorumsCache st ->
  quorums st `prefix_of` quorums st' ->
  (forall t h a,
     cache_find h (cacheMap (cache_at (mapQuorumsCache st') t)) = Some a ->
     cache_find h (cacheMap (cache_at (mapQuorumsCache st) t)) = Some a
     \/ exists q, quorums st' !! a = Some q
                  /\ canonical st (pindexQuorum q)
                  /\ GetBlockHash (pindexQuorum q) = h
                  /\ minedQuorum (minedCommitments st) t (pindexQuorum q)
                     = Some (identity_of q)) ->
  caches_consistent st'.
Proof.
  intros (Hclosed & Hq & Hs) Hidx Hdb Hscan Hpre Hnew.
  split; [|split].
  - intros b b' Hb Hprev. apply (canonical_same st st' _ Hidx).
    apply (Hclosed b b'); [|exact Hprev]. apply (canonical_same st st' _ Hidx). exact Hb.
  - intros t h a Hfind. rewrite Hdb.
    destruct (Hnew t h a Hfind) as [Hold|(q & Hqa & Hc & Hh & Hi)].
    + destruct (Hq t h a Hold) as (q & Hqa & Hc & Hh & Hi). exists q.
      split; [exact (prefix_lookup_Some _ _ _ _ Hqa Hpre)|].
      split; [apply (canonical_same st st' _ Hidx); exact Hc|]. split; [exact Hh|exact Hi].
    + exists q. split; [exact Hqa|].
      split; [apply (canonical_same st st' _ Hidx); exact Hc|]. split; [exact Hh|exact Hi].
  - intros t h l Hfind. rewrite Hscan in Hfind.
    destruct (Hs t h l Hfind) as (start & Hc & Hh & Hsome & Ha). exists start.
    split; [apply (canonical_same st st' _ Hidx); exact Hc|]. split; [exact Hh|].
    rewrite Hdb.
    rewrite (quorumIdentities_extend st st' l _ Hpre Hsome eq_refl).
    split; [exact Hsome|exact Ha].
Qed.

(** Consistency survives a step that only changes the scan cache and whose
    entries are old ones or new ones with the right quorums. *)
Lemma caches_consistent_scan_step (st st' : NodeState) :
  caches_consistent st ->
  mapBlockIndex st' = mapBlockIndex st ->
  minedCommitments st' = minedCommitments st ->
  mapQuorumsCache st' = mapQuorumsCache st ->
  quorums st' = quorums st ->
  (forall t h l,
     cache_find h (cacheMap (cache_at (scanQuorumsCache st') t)) = Some l ->
     cache_find h (cacheMap (cache_at (scanQuorumsCache st) t)) = Some l
     \/ exists start,
          canonical st start /\ GetBlockHash start = h
          /\ Forall is_Some (quorumIdentities st l)
          /\ quorumIdentities st l
             = List.map (minedQuorum (minedCommitments st) t)
                        (take (length l) (minedAnchors (minedCommitments st) t start))) ->
  caches_consistent st'.
Proof.
  intros (Hclosed & Hq & Hs) Hidx Hdb Hcache Hquorums Hnew.
  assert (Hanch : forall l, quorumIdentities st' l = quorumIdentities st l).
  { intros l. unfold quorumIdentities. rewrite Hquorums. reflexivity. }
  split; [|split].
  - intros b b' Hb Hprev. apply (canonical_same st st' _ Hidx).
    apply (Hclosed b b'); [|exact Hprev]. apply (canonical_same st st' _ Hidx). exact Hb.
  - intros t h a Hfind. rewrite Hcache in Hfind.
    destruct (Hq t h a Hfind) as (q & Hqa & Hc & Hh & Hi). exists q.
    rewrite Hquorums, Hdb. split; [exact Hqa|].
    split; [apply (canonical_same st st' _ Hidx); exact Hc|]. split; [exact Hh|exact Hi].
  - intros t h l Hfind.
    assert (Hold : exists start,
               canonical st start /\ GetBlockHash start = h
               /\ Forall is_Some (quorumIdentities st l)
               /\ quorumIdentities st l
                  = List.map (minedQuorum (minedCommitments st) t)
                      (take (length l) (minedAnchors (minedCommitments st) t start))).
    { destruct (Hnew t h l Hfind) as [Hold|Hnew']; [exact (Hs t h l Hold)|exact Hnew']. }
    destruct Hold as (start & Hc & Hh & Hsome & Ha). exists start.
    split; [apply (canonical_same st st' _ Hidx); exact Hc|]. split; [exact Hh|].
    rewrite Hdb, Hanch. split; [exact Hsome|exact Ha].
Qed.

(** [GetQuorum] on an entry of the block index that has a mined commitment:
    it returns the mined quorum of that entry and keeps the caches
    consistent. *)
Lemma GetQuorum_consistent (t : LLMQType) (pindexQuorum_ : CBlockIndex) (st : NodeState)
    (p : LLMQParams) :
  llmqs !! t = Some p ->
  caches_consistent st ->
  canonical st pindexQuorum_ ->
  HasMinedCommitment (minedCommitments st) t (GetBlockHash pindexQuorum_) = true ->
  exists a st',
    GetQuorum t pindexQuorum_ st = Ok (Some a, st')
    /\ caches_consistent st'
    /\ same_outside_quorums st st'
    /\ quorums st `prefix_of` quorums st'
    /\ quorumIdentities st' [a] = [minedQuorum (minedCommitments st) t pindexQuorum_].
Proof.
  intros Hp Hinv Hcan Hmined. unfold GetQuorum, HasQuorum. rewrite Hmined. cbn [negb].
  pose proof (cache_get_fst (GetBlockHash pindexQuorum_) (cache_at (mapQuorumsCache st) t))
    as Hfst.
  pose proof (fun k' => cache_get_find (GetBlockHash pindexQuorum_) k'
                          (cache_at (mapQuorumsCache st) t)) as Hfind.
  destruct (cache_get (GetBlockHash pindexQuorum_) (cache_at (mapQuorumsCache st) t))
    as [found cache]. cbn [fst snd] in Hfst, Hfind.
  set (st1 := set_mapQuorumsCache (<[t:=cache]> (mapQuorumsCache st)) st).
  assert (Hst1 : forall t' h a,
            cache_find h (cacheMap (cache_at (mapQuorumsCache st1) t')) = Some a ->
            cache_find h (cacheMap (cache_at (mapQuorumsCache st) t')) = Some a).
  { intros t' h a. subst st1. cbn [mapQuorumsCache set_mapQuorumsCache].
    rewrite cache_at_insert. destruct (decide (t = t')) as [<-|]; [|auto].
    rewrite Hfind. auto. }
  destruct found as [a|].
  - exists a, st1. split; [reflexivity|].
    destruct Hinv as (Hclosed & Hq & Hs).
    destruct (Hq t (GetBlockHash pindexQuorum_) a (eq_sym Hfst)) as (q & Hqa & Hc & Hh & Hi).
    assert (Hpq : pindexQuorum q = pindexQuorum_).
    { unfold canonical in Hc, Hcan. rewrite Hh, Hcan in Hc. congruence. }
    split; [|split; [|split]].
    + apply (caches_consistent_quorum_step st st1); try reflexivity.
      * split; [exact Hclosed|split; assumption].
      * intros t' h a' H. left. apply Hst1. exact H.
    + subst st1. unfold same_outside_quorums. simpl. tauto.
    + reflexivity.
    + unfold quorumIdentities. subst st1. cbn [List.map quorums set_mapQuorumsCache].
      rewrite Hqa, <- Hpq, Hi. reflexivity.
  - destruct (BuildQuorumFromCommitment_spec t pindexQuorum_ st1 p Hp)
      as [[Hnone _]|(e & q & st' & He & Hb & Hquorums & Hpq & Hqc & Hpar & Hmb & Hmem
                      & Hcache & Ho)].
    { apply GetMinedCommitment_Has in Hmined as (e & He).
      subst st1. simpl in Hnone. congruence. }
    rewrite Hb. exists (length (quorums st1)), st'. split; [reflexivity|].
    assert (Hpre : quorums st `prefix_of` quorums st').
    { rewrite Hquorums. subst st1. simpl. apply prefix_app_r. reflexivity. }
    assert (Hnew : quorums st' !! length (quorums st1) = Some q).
    { rewrite Hquorums. apply list_lookup_middle. reflexivity. }
    assert (Hid : minedQuorum (minedCommitments st) t pindexQuorum_ = Some (identity_of q)).
    { unfold minedQuorum. change (minedCommitments st1) with (minedCommitments st) in He.
      rewrite He, Hp. unfold identity_of. rewrite Hpq, Hqc, Hpar, Hmb, Hmem. reflexivity. }
    destruct Ho as (Ho1 & Ho2 & Ho3 & Ho4 & Ho5 & Ho6 & Ho7 & Ho8).
    split; [|split; [|split]].
    + apply (caches_consistent_quorum_step st st'); try assumption.
      intros t' h a H. rewrite Hcache in H. rewrite cache_at_insert in H.
      destruct (decide (t = t')) as [<-|Hne].
      * apply cache_insert_find in H as [[-> ->]|H].
        -- right. exists q. split; [exact Hnew|]. rewrite Hpq.
           split; [exact Hcan|]. split; [reflexivity|exact Hid].
        -- left. apply Hst1. exact H.
      * left. apply Hst1. exact H.
    + unfold same_outside_quorums. subst st1. simpl in *. tauto.
    + exact Hpre.
    + unfold quorumIdentities. cbn [List.map]. rewrite Hnew, Hid. reflexivity.
Qed.

End ConsistencyProperties.

Section ScanProperties.
Context {ext : Externals}.

Lemma GetQuorums_consistent (t : LLMQType) (p : LLMQParams)
    (quorumIndexes : list CBlockIndex) :
  llmqs !! t = Some p ->
  forall st,
    caches_consistent st ->
    Forall (canonical st) quorumIndexes ->
    Forall (fun b => HasMinedCommitment (minedCommitments st) t (GetBlockHash b) = true)
           quorumIndexes ->
    exists l st',
      GetQuorums t quorumIndexes st = Ok (l, st')
      /\ caches_consistent st'
      /\ same_outside_quorums st st'
      /\ quorums st `prefix_of` quorums st'
      /\ quorumIdentities st' l
         = List.map (minedQuorum (minedCommitments st) t) quorumIndexes.
Proof.
  intros Hp. induction quorumIndexes as [|idx rest IH]; intros st Hinv Hcan Hmined.
  - exists [], st. split; [reflexivity|]. split; [exact Hinv|].
    split; [apply same_outside_quorums_refl|]. split; reflexivity.
  - apply Forall_cons in Hcan as [Hc Hcan]. apply Forall_cons in Hmined as [Hm Hmined].
    destruct (GetQuorum_consistent t idx st p Hp Hinv Hc Hm)
      as (a & st1 & Hg & Hinv1 & Ho1 & Hpre1 & Ha).
    pose proof Ho1 as (Hidx & Hdb & _).
    destruct (IH st1 Hinv1) as (l & st2 & Hgs & Hinv2 & Ho2 & Hpre2 & Hl).
    { eapply Forall_impl; [exact Hcan|]. intros b Hb.
      apply (canonical_same st st1 _ Hidx). exact Hb. }
    { rewrite Hdb. exact Hmined. }
    exists (a :: l), st2. cbn [GetQuorums]. rewrite Hg. cbn [bind fst snd].
    rewrite Hgs. cbn [bind fst snd]. split; [reflexivity|].
    split; [exact Hinv2|].
    split; [eapply same_outside_quorums_trans; eassumption|].
    split; [etrans; eassumption|].
    assert (Hsome : Forall is_Some [minedQuorum (minedCommitments st) t idx]).
    { constructor; [|constructor]. eapply minedQuorum_is_Some; eassumption. }
    change (a :: l) with ([a] ++ l). rewrite quorumIdentities_app, Hl, Hdb.
    rewrite (quorumIdentities_extend st1 st2 [a] _ Hpre2 Hsome Ha). reflexivity.
Qed.

Lemma take_min_length {A : Type} (l : list A) (n : nat) :
  take (Nat.min (length l) n) l = take n l.
Proof.
  destruct (le_lt_dec n (length l)) as [H|H].
  - rewrite Nat.min_r by exact H. reflexivity.
  - rewrite Nat.min_l by lia. rewrite !take_ge by lia. reflexivity.
Qed.

Lemma map_lookup_Some {A B : Type} (f : A -> B) (l : list A) (i : nat) (y : B) :
  List.map f l !! i = Some y -> exists x, l !! i = Some x /\ y = f x.
Proof.
  revert i. induction l as [|x l IH]; intros [|i] H; simpl in *; try discriminate.
  - injection H as <-. eauto.
  - apply IH. exact H.
Qed.

(** The scanning part of [ScanQuorums], started with a list that holds the
    mined quorums of the first mined anchors and a scan that continues where
    that list ends: the result holds the mined quorums of the first
    [nCountRequested] mined anchors. *)
Lemma scan_from_spec (t : LLMQType) (p : LLMQParams) (start : CBlockIndex)
    (nCountRequested : nat) (fCacheExists : bool) (vec : list nat)
    (pIndexScanCommitments : option CBlockIndex) (nScanCommitments : nat)
    (st : NodeState) :
  llmqs !! t = Some p ->
  caches_consistent st ->
  canonical st start ->
  let db := minedCommitments st in
  let all := minedAnchors db t start in
  quorumIdentities st vec = List.map (minedQuorum db t) (take (length vec) all) ->
  GetMinedCommitmentsUntilBlock db t pIndexScanCommitments nScanCommitments
  = take nScanCommitments (drop (length vec) all) ->
  (nCountRequested <= length vec + nScanCommitments)%nat ->
  exists r st',
    scan_from t start nCountRequested fCacheExists vec pIndexScanCommitments
              nScanCommitments st = Ok (r, st')
    /\ caches_consistent st'
    /\ mapBlockIndex st' = mapBlockIndex st
    /\ minedCommitments st' = minedCommitments st
    /\ quorums st `prefix_of` quorums st'
    /\ quorumIdentities st' r = List.map (minedQuorum db t) (take nCountRequested all).
Proof.
  intros Hp Hinv Hcan db all Hvec Hscan Hn. unfold scan_from. fold db. rewrite Hscan.
  set (k := length vec) in *.
  set (idxs := take nScanCommitments (drop k all)).
  assert (Hsub : forall n (b : CBlockIndex), In b (take n all) -> In b all).
  { intros n b Hb. apply list_elem_of_In. apply (subseteq_take n all).
    apply list_elem_of_In. exact Hb. }
  assert (Hin : forall b, In b idxs -> In b all).
  { intros b Hb. apply list_elem_of_In in Hb. apply list_elem_of_In.
    subst idxs. apply (subseteq_drop k all). apply (subseteq_take nScanCommitments _).
    exact Hb. }
  destruct (GetQuorums_consistent t p idxs Hp st Hinv)
    as (new & st1 & Hg & Hinv1 & Ho & Hpre & Hnew).
  { apply Forall_forall. intros b Hb. apply list_elem_of_In in Hb.
    destruct Hinv as (Hclosed & _).
    eapply minedAnchors_canonical; [exact Hclosed|exact Hcan|apply Hin; exact Hb]. }
  { apply Forall_forall. intros b Hb. apply list_elem_of_In in Hb.
    eapply minedAnchors_mined. apply Hin. exact Hb. }
  rewrite Hg. cbn [bind fst snd]. fold db in Hnew.
  pose proof Ho as (Hidx & Hdb & _ & Hsc & _).
  set (X := take (k + nScanCommitments) all).
  assert (Hall : quorumIdentities st1 (vec ++ new) = List.map (minedQuorum db t) X).
  { rewrite quorumIdentities_app, Hnew.
    assert (Hsome : Forall is_Some (List.map (minedQuorum db t) (take k all))).
    { apply (minedAnchors_quorums db t p start _ Hp). apply Hsub. }
    rewrite (quorumIdentities_extend st st1 vec _ Hpre Hsome Hvec).
    rewrite <- List.map_app. subst X idxs. rewrite take_take_drop. reflexivity. }
  assert (HallSome : Forall is_Some (List.map (minedQuorum db t) X)).
  { apply (minedAnchors_quorums db t p start _ Hp). apply Hsub. }
  pose proof (quorumIdentities_length _ _ _ _ Hall) as Hlen.
  assert (HX : (length X <= k + nScanCommitments)%nat).
  { subst X. rewrite length_take. lia. }
  eexists _, _. split; [reflexivity|].
  assert (Hres : forall st2,
            quorums st2 = quorums st1 ->
            quorumIdentities st2 (take (Nat.min (length (vec ++ new)) nCountRequested)
                                       (vec ++ new))
            = List.map (minedQuorum db t) (take nCountRequested all)).
  { intros st2 Hq.
    assert (Heq : quorumIdentities st2 (vec ++ new) = List.map (minedQuorum db t) X).
    { unfold quorumIdentities. rewrite Hq. exact Hall. }
    rewrite take_min_length, quorumIdentities_take, Heq, List.firstn_map.
    subst X. rewrite take_take. f_equal. f_equal. lia. }
  destruct ((0 <? length (vec ++ new))%nat && negb fCacheExists) eqn:Ecache.
  - set (cache := cache_at (scanQuorumsCache st1) t).
    set (c := Nat.min (length (vec ++ new)) (max_size cache)).
    split; [|split; [exact Hidx|split; [exact Hdb|split; [exact Hpre|apply Hres; reflexivity]]]].
    apply (caches_consistent_scan_step st1); try reflexivity; [exact Hinv1|].
    intros t' h l. cbn [scanQuorumsCache set_scanQuorumsCache].
    rewrite cache_at_insert. destruct (decide (t = t')) as [<-|]; [|auto].
    intros H. apply cache_insert_find in H as [[-> ->]|H]; [|auto].
    right. exists start. split; [apply (canonical_same st st1 _ Hidx); exact Hcan|].
    split; [reflexivity|].
    assert (Hc : quorumIdentities st1 (take c (vec ++ new))
                 = List.map (minedQuorum db t) (take c all)).
    { rewrite quorumIdentities_take, Hall, List.firstn_map. subst X.
      rewrite take_take. f_equal. f_equal. subst c. lia. }
    split.
    + rewrite Hc. apply (minedAnchors_quorums db t p start _ Hp). apply Hsub.
    + rewrite Hc, Hdb. fold db. fold all. f_equal. f_equal.
      rewrite length_take. subst c. lia.
  - split; [exact Hinv1|].
    split; [exact Hidx|split; [exact Hdb|split; [exact Hpre|apply Hres; reflexivity]]].
Qed.

End ScanProperties.

Section ScanQuorumsProperties.
Context {ext : Externals}.

(** On consistent caches [ScanQuorums] returns, and its result holds the
    mined quorums of the first [nCountRequested] blocks with a mined
    commitment found walking back from the start block. The chain state is
    not touched and the caches stay consistent. *)
Lemma ScanQuorums_spec (t : LLMQType) (p : LLMQParams) (start : CBlockIndex)
    (nCountRequested : nat) (st : NodeState) :
  llmqs !! t = Some p ->
  caches_consistent st ->
  canonical st start ->
  let db := minedCommitments st in
  exists r st',
    ScanQuorums t (Some start) nCountRequested st = Ok (r, st')
    /\ caches_consistent st'
    /\ mapBlockIndex st' = mapBlockIndex st
    /\ minedCommitments st' = minedCommitments st
    /\ quorums st `prefix_of` quorums st'
    /\ quorumIdentities st' r
       = List.map (minedQuorum db t) (take nCountRequested (minedAnchors db t start)).
Proof.
  intros Hp Hinv Hcan db. unfold ScanQuorums.
  destruct (Nat.eqb_spec nCountRequested 0) as [->|Hn0].
  { exists [], st. split; [reflexivity|]. split; [exact Hinv|].
    repeat (split; [reflexivity|]). reflexivity. }
  set (all := minedAnchors db t start).
  pose proof (cache_get_fst (GetBlockHash start) (cache_at (scanQuorumsCache st) t)) as Hfst.
  pose proof (fun k' => cache_get_find (GetBlockHash start) k'
                          (cache_at (scanQuorumsCache st) t)) as Hfind.
  destruct (cache_get (GetBlockHash start) (cache_at (scanQuorumsCache st) t))
    as [hit cache']. cbn [fst snd] in Hfst, Hfind.
  set (st1 := set_scanQuorumsCache (<[t:=cache']> (scanQuorumsCache st)) st).
  assert (Hinv1 : caches_consistent st1).
  { apply (caches_consistent_scan_step st); try reflexivity; [exact Hinv|].
    intros t' h l. subst st1. cbn [scanQuorumsCache set_scanQuorumsCache].
    rewrite cache_at_insert. destruct (decide (t = t')) as [<-|]; [|auto].
    rewrite Hfind. auto. }
  assert (Hcan1 : canonical st1 start) by exact Hcan.
  destruct hit as [vec|].
  - destruct Hinv as (Hclosed & Hq & Hs).
    destruct (Hs t (GetBlockHash start) vec (eq_sym Hfst))
      as (start' & Hc' & Hh' & Hsome & Hvec).
    assert (start' = start) as ->.
    { unfold canonical in Hc', Hcan. rewrite Hh', Hcan in Hc'. congruence. }
    fold db in Hvec. fold all in Hvec.
    destruct (Nat.eqb_spec (length vec) nCountRequested) as [Heq|Hne].
    { exists vec, st1. split; [reflexivity|]. split; [exact Hinv1|].
      repeat (split; [reflexivity|]). rewrite <- Heq. exact Hvec. }
    destruct (Nat.ltb_spec nCountRequested (length vec)) as [Hlt|Hge].
    { exists (take nCountRequested vec), st1. split; [reflexivity|]. split; [exact Hinv1|].
      repeat (split; [reflexivity|]).
      rewrite quorumIdentities_take.
      change (quorumIdentities st1 vec) with (quorumIdentities st vec).
      rewrite Hvec, List.firstn_map, take_take. f_equal. f_equal. lia. }
    destruct (last vec) as [back|] eqn:Elast.
    + rewrite last_lookup in Elast.
      pose proof (quorumIdentities_lookup st vec _ back Elast) as Hback.
      assert (Hbsome : is_Some (match quorums st !! back with
                                | Some q => Some (identity_of q)
                                | None => None
                                end)).
      { apply (proj1 (Forall_forall _ _) Hsome). apply list_elem_of_lookup.
        eexists. exact Hback. }
      rewrite Hvec in Hback. apply map_lookup_Some in Hback as (b & Hall & Hb).
      change (quorums st1 !! back) with (quorums st !! back).
      destruct (quorums st !! back) as [q|]; [|destruct Hbsome; discriminate].
      symmetry in Hb. apply minedQuorum_anchor in Hb. cbn [identity_of id_pindexQuorum] in Hb.
      rewrite Hb.
      assert (Hpos : (0 < length vec)%nat).
      { destruct vec; [discriminate|simpl; lia]. }
      rewrite lookup_take_lt in Hall by lia.
      destruct (scan_from_spec t p start nCountRequested true vec (pprev b)
                  (nCountRequested - length vec) st1 Hp Hinv1 Hcan1)
        as (r & st' & Hscan & Hinv' & Hidx & Hdb & Hpre & Hr).
      * exact Hvec.
      * cbn [minedCommitments set_scanQuorumsCache].
        rewrite (GetMinedCommitmentsUntilBlock_continue _ t start b _ _ Hall).
        replace (S (Init.Nat.pred (length vec))) with (length vec) by lia. reflexivity.
      * lia.
      * exists r, st'. split; [exact Hscan|]. split; [exact Hinv'|].
        split; [exact Hidx|]. split; [exact Hdb|]. split; [exact Hpre|exact Hr].
    + apply last_None in Elast. subst vec.
      destruct (scan_from_spec t p start nCountRequested true [] (Some start)
                  nCountRequested st1 Hp Hinv1 Hcan1)
        as (r & st' & Hscan & Hinv' & Hidx & Hdb & Hpre & Hr);
        [reflexivity|reflexivity|simpl; lia|].
      exists r, st'. split; [exact Hscan|]. split; [exact Hinv'|].
      split; [exact Hidx|]. split; [exact Hdb|]. split; [exact Hpre|exact Hr].
  - destruct (scan_from_spec t p start nCountRequested false [] (Some start)
                (Nat.max nCountRequested (max_size (cache_at (scanQuorumsCache st) t)))
                st1 Hp Hinv1 Hcan1)
      as (r & st' & Hscan & Hinv' & Hidx & Hdb & Hpre & Hr);
      [reflexivity|reflexivity|simpl; lia|].
    exists r, st'. split; [exact Hscan|]. split; [exact Hinv'|].
    split; [exact Hidx|]. split; [exact Hdb|]. split; [exact Hpre|exact Hr].
Qed.

(** C7, as the code has it. With consistent caches and a start block of the
    block index, [ScanQuorums] for a configured type returns the mined
    quorums of the first [nCountRequested] mined anchors found walking back
    from the start block, most recent first, each with the commitment, the
    members and the parameters that the store and the registry give for its
    anchor. So:
    - with a count of 0 it returns the empty list;
    - with a count that is at least the number of mined anchors it returns
      the quorums of all of them;
    - a second call with the same arguments, the chain being as the first
      call left it, returns the same quorums in the same order. *)
Theorem ScanQuorums_maximal_and_repeatable (t : LLMQType) (p : LLMQParams)
    (start : CBlockIndex) (nCountRequested : nat) (st : NodeState) :
  llmqs !! t = Some p ->
  caches_consistent st ->
  canonical st start ->
  let db := minedCommitments st in
  let all := minedAnchors db t start in
  exists r1 st1 r2 st2,
    ScanQuorums t (Some start) nCountRequested st = Ok (r1, st1)
    /\ ScanQuorums t (Some start) nCountRequested st1 = Ok (r2, st2)
    /\ (nCountRequested = 0%nat -> r1 = [])
    /\ quorumIdentities st1 r1 = List.map (minedQuorum db t) (take nCountRequested all)
    /\ Forall is_Some (quorumIdentities st1 r1)
    /\ ((length all <= nCountRequested)%nat ->
        quorumIdentities st1 r1 = List.map (minedQuorum db t) all)
    /\ quorumIdentities st2 r2 = quorumIdentities st1 r1
    /\ quorumIdentities st2 r1 = quorumIdentities st1 r1.
Proof.
  intros Hp Hinv Hcan db all.
  destruct (ScanQuorums_spec t p start nCountRequested st Hp Hinv Hcan)
    as (r1 & st1 & H1 & Hinv1 & Hidx1 & Hdb1 & Hpre1 & Hr1).
  assert (Hcan1 : canonical st1 start).
  { apply (canonical_same st st1 _ Hidx1). exact Hcan. }
  destruct (ScanQuorums_spec t p start nCountRequested st1 Hp Hinv1 Hcan1)
    as (r2 & st2 & H2 & Hinv2 & Hidx2 & Hdb2 & Hpre2 & Hr2).
  rewrite Hdb1 in Hr2. fold db in Hr1, Hr2. fold all in Hr1, Hr2.
  assert (Hsome : Forall is_Some (quorumIdentities st1 r1)).
  { rewrite Hr1. apply (minedAnchors_quorums db t p start _ Hp).
    intros b Hb. apply list_elem_of_In. apply (subseteq_take nCountRequested all).
    apply list_elem_of_In. exact Hb. }
  exists r1, st1, r2, st2. split; [exact H1|]. split; [exact H2|].
  split.
  { intros ->. simpl in H1. congruence. }
  split; [exact Hr1|]. split; [exact Hsome|].
  split.
  { intros Hlen. rewrite Hr1, take_ge by exact Hlen. reflexivity. }
  split; [congruence|].
  apply (quorumIdentities_extend st1 st2 _ _ Hpre2 Hsome eq_refl).
Qed.

(** A node that has built nothing yet has consistent caches, whatever the
    capacities, when its block index is closed. *)
Lemma caches_consistent_empty (st : NodeState) :
  index_closed st ->
  (forall t, cacheMap (cache_at (mapQuorumsCache st) t) = []) ->
  (forall t, cacheMap (cache_at (scanQuorumsCache st) t) = []) ->
  caches_consistent st.
Proof.
  intros Hclosed Hq Hs. split; [exact Hclosed|]. split.
  - intros t h a. rewrite Hq. discriminate.
  - intros t h l. rewrite Hs. discriminate.
Qed.

End ScanQuorumsProperties.

Lemma example_index_closed : index_closed Example.stTwo.
Proof.
  intros b b' Hb Hprev. unfold canonical in *.
  change (mapBlockIndex Example.stTwo) with Example.blocks in *.
  unfold Example.blocks in Hb.
  repeat (apply lookup_insert_Some in Hb as [[_ <-]|[_ Hb]];
          [first [discriminate Hprev | injection Hprev as <-; reflexivity]|]).
  rewrite lookup_empty in Hb. discriminate.
Qed.

Lemma example_caches_consistent : caches_consistent (ext := Example.ext) Example.stTwo.
Proof.
  apply caches_consistent_empty; [exact example_index_closed| |].
  - intros t. unfold cache_at. simpl.
    destruct (decide (t = 1)) as [->|Hne]; [reflexivity|].
    rewrite lookup_singleton_ne by congruence. reflexivity.
  - intros t. unfold cache_at. simpl.
    destruct (decide (t = 1)) as [->|Hne]; [reflexivity|].
    rewrite lookup_singleton_ne by congruence. reflexivity.
Qed.

(** C7 at the example: two commitments are mined, [qcB] for the anchor [b2]
    and [qcA] for the anchor [b1]. A scan from [b3] for five quorums returns
    the quorums of both, in that order, and so does a second scan. *)
Lemma ScanQuorums_maximal_and_repeatable_witness :
  exists r1 st1 r2 st2,
    ScanQuorums (ext := Example.ext) 1 (Some Example.b3) 5 Example.stTwo = Ok (r1, st1)
    /\ ScanQuorums (ext := Example.ext) 1 (Some Example.b3) 5 st1 = Ok (r2, st2)
    /\ quorumIdentities st1 r1 = [Some Example.idB; Some Example.idA]
    /\ quorumIdentities st2 r2 = [Some Example.idB; Some Example.idA].
Proof.
  destruct (ScanQuorums_maximal_and_repeatable (ext := Example.ext) 1 Example.params1
              Example.b3 5 Example.stTwo eq_refl example_caches_consistent eq_refl)
    as (r1 & st1 & r2 & st2 & H1 & H2 & _ & _ & _ & Hmax & Hsame & _).
  exists r1, st1, r2, st2. split; [exact H1|]. split; [exact H2|].
  assert (Hr1 : quorumIdentities st1 r1 = [Some Example.idB; Some Example.idA]).
  { apply Hmax. vm_compute. lia. }
  split; [exact Hr1|]. rewrite Hsame. exact Hr1.
Defined.

(** C7 as stated fails for a count of 0: with two commitments mined, the
    scan from [b3] for 0 quorums returns the empty list, while the scan for
    two returns the quorums of both anchors. *)
Lemma ScanQuorums_zero_counterexample :
  minedAnchors (minedCommitments Example.stTwo) 1 Example.b3 = [Example.b2; Example.b1]
  /\ ScanQuorums (ext := Example.ext) 1 (Some Example.b3) 0 Example.stTwo
     = Ok ([], Example.stTwo)
  /\ exists st', ScanQuorums (ext := Example.ext) 1 (Some Example.b3) 2 Example.stTwo
                 = Ok ([0%nat; 1%nat], st')
                 /\ quorumIdentities st' [0%nat; 1%nat]
                    = [Some Example.idB; Some Example.idA].
Proof.
  split; [reflexivity|]. split; [reflexivity|].
  eexists. split; [vm_compute; reflexivity|reflexivity].
Qed.

(** ** More on the commitment *)

Section MoreCommitmentProperties.
Context {ext : Externals}.

Lemma no_bits_from_true (vm sg : list bool) (n first : nat) :
  no_bits_from vm sg first n = true <->
  forall i, (first <= i < first + n)%nat -> bit vm i = false /\ bit sg i = false.
Proof.
  revert first. induction n as [|n IH]; intros first; simpl.
  - split; [intros _ i Hi; lia|reflexivity].
  - destruct (bit vm first) eqn:Evm.
    { split; [discriminate|]. intros H. destruct (H first) as [H1 _]; [lia|congruence]. }
    destruct (bit sg first) eqn:Esg.
    { split; [discriminate|]. intros H. destruct (H first) as [_ H1]; [lia|congruence]. }
    rewrite IH. split; intros H i Hi.
    + destruct (decide (i = first)) as [->|Hne]; [auto|]. apply H. lia.
    + apply H. lia.
Qed.

Lemma bit_false_lookup (v : list bool) (i : nat) :
  bit v i = false <-> v !! i <> Some true.
Proof.
  rewrite bit_lookup. destruct (bit v i); split; congruence.
Qed.


(** What [Verify] has checked when it accepts. *)
Lemma Verify_true_inv (c : CFinalCommitment) (b : CBlockIndex) (checkSigs : bool) :
  Verify c b checkSigs = true ->
  exists p,
    llmqs !! llmqType c = Some p
    /\ nVersion c <> 0 /\ nVersion c <= CURRENT_VERSION
    /\ Z.of_nat (length (signers c)) = to_size_t (llmq_size p)
    /\ Z.of_nat (length (validMembers c)) = to_size_t (llmq_size p)
    /\ llmq_minSize p <= CountValidMembers c
    /\ llmq_minSize p <= CountSigners c
    /\ pk_fValid (quorumPublicKey c) = true
    /\ quorumVvecHash c <> 0
    /\ sig_fValid (membersSig c) = true
    /\ sig_fValid (quorumSig c) = true
    /\ (forall i, (length (GetAllQuorumMembers (llmq_type p) b) <= i)%nat ->
          validMembers c !! i <> Some true /\ signers c !! i <> Some true)
    /\ (checkSigs = true ->
        let commitmentHash :=
          BuildCommitmentHash (llmq_type p) (quorumHash c) (validMembers c)
                              (quorumPublicKey c) (quorumVvecHash c) in
        VerifySecureAggregated (membersSig c)
          (memberPubKeys (GetAllQuorumMembers (llmq_type p) b) (signers c) 0)
          commitmentHash = true
        /\ VerifyInsecure (quorumSig c) (quorumPublicKey c) commitmentHash = true).
Proof.
  unfold Verify. intros H.
  destruct (Z.eqb_spec (nVersion c) 0) as [|Hv0]; [discriminate|].
  destruct (Z.ltb_spec CURRENT_VERSION (nVersion c)) as [|Hv1]; [discriminate|].
  cbn [orb] in H.
  destruct (llmqs !! llmqType c) as [p|]; [|discriminate].
  destruct (VerifySizes c p) eqn:Es; [|discriminate]. cbn [negb] in H.
  apply VerifySizes_true in Es as [Hs Hv].
  destruct (Z.ltb_spec (CountValidMembers c) (llmq_minSize p)) as [|Hcv]; [discriminate|].
  destruct (Z.ltb_spec (CountSigners c) (llmq_minSize p)) as [|Hcs]; [discriminate|].
  destruct (pk_fValid (quorumPublicKey c)) eqn:Epk; [|discriminate]. cbn [negb] in H.
  unfold uint256_IsNull in H.
  destruct (Z.eqb_spec (quorumVvecHash c) 0) as [|Hh]; [discriminate|].
  destruct (sig_fValid (membersSig c)) eqn:Ems; [|discriminate]. cbn [negb] in H.
  destruct (sig_fValid (quorumSig c)) eqn:Eqs; [|discriminate]. cbn [negb] in H.
  cbv zeta in H.
  destruct (no_bits_from _ _ _ _) eqn:Eb; [|discriminate]. cbn [negb] in H.
  exists p. repeat (split; [first [reflexivity|assumption]|]).
  split.
  - intros i Hi.
    destruct (le_lt_dec (length (validMembers c)) i) as [Hout|Hin].
    + split; intros Hl; apply lookup_lt_Some in Hl; lia.
    + rewrite <- !bit_false_lookup.
      apply (proj1 (no_bits_from_true _ _ _ _) Eb). lia.
  - intros ->. cbv zeta.
    destruct (VerifySecureAggregated _ _ _); [|discriminate].
    destruct (VerifyInsecure _ _ _); [|discriminate]. auto.
Qed.


(** X1: [Verify] accepts exactly the commitments that pass every one of its
    checks. *)
Theorem Verify_accepts_iff (c : CFinalCommitment) (b : CBlockIndex) (checkSigs : bool) :
  Verify c b checkSigs = true <->
  exists p,
    llmqs !! llmqType c = Some p
    /\ nVersion c <> 0 /\ nVersion c <= CURRENT_VERSION
    /\ Z.of_nat (length (signers c)) = to_size_t (llmq_size p)
    /\ Z.of_nat (length (validMembers c)) = to_size_t (llmq_size p)
    /\ llmq_minSize p <= CountValidMembers c
    /\ llmq_minSize p <= CountSigners c
    /\ pk_fValid (quorumPublicKey c) = true
    /\ quorumVvecHash c <> 0
    /\ sig_fValid (membersSig c) = true
    /\ sig_fValid (quorumSig c) = true
    /\ (forall i, (length (GetAllQuorumMembers (llmq_type p) b) <= i)%nat ->
          validMembers c !! i <> Some true /\ signers c !! i <> Some true)
    /\ (checkSigs = true ->
        let commitmentHash :=
          BuildCommitmentHash (llmq_type p) (quorumHash c) (validMembers c)
                              (quorumPublicKey c) (quorumVvecHash c) in
        VerifySecureAggregated (membersSig c)
          (memberPubKeys (GetAllQuorumMembers (llmq_type p) b) (signers c) 0)
          commitmentHash = true
        /\ VerifyInsecure (quorumSig c) (quorumPublicKey c) commitmentHash = true).
Proof.
  split; [apply Verify_true_inv|].
  intros (p & Hp & Hv0 & Hv1 & Hs & Hv & Hcv & Hcs & Hpk & Hh & Hms & Hqs & Hbits & Hsigs).
  unfold Verify. rewrite Hp.
  apply Z.eqb_neq in Hv0. apply Z.ltb_ge in Hv1. rewrite Hv0, Hv1. cbn [orb].
  rewrite (proj2 (VerifySizes_true c p) (conj Hs Hv)). cbn [negb].
  apply Z.ltb_ge in Hcv, Hcs. rewrite Hcv, Hcs, Hpk, Hms, Hqs. cbn [negb].
  unfold uint256_IsNull. apply Z.eqb_neq in Hh. rewrite Hh. cbv zeta.
  rewrite (proj2 (no_bits_from_true _ _ _ _)).
  - cbn [negb]. destruct checkSigs; [|reflexivity].
    destruct (Hsigs eq_refl) as [H1 H2]. cbv zeta in H1, H2. rewrite H1, H2. reflexivity.
  - intros i Hi. rewrite !bit_false_lookup. apply Hbits. lia.
Qed.

(** X2: checking the signatures only adds to the checks: [Verify] with
    [checkSigs] is [Verify] without it and the two signature verifications. *)
Theorem Verify_checkSigs_adds (c : CFinalCommitment) (b : CBlockIndex) :
  Verify c b true
  = Verify c b false
    && match llmqs !! llmqType c with
       | Some p =>
           let commitmentHash :=
             BuildCommitmentHash (llmq_type p) (quorumHash c) (validMembers c)
                                 (quorumPublicKey c) (quorumVvecHash c) in
           VerifySecureAggregated (membersSig c)
             (memberPubKeys (GetAllQuorumMembers (llmq_type p) b) (signers c) 0)
             commitmentHash
           && VerifyInsecure (quorumSig c) (quorumPublicKey c) commitmentHash
       | None => false
       end.
Proof.
  unfold Verify.
  destruct ((nVersion c =? 0) || (CURRENT_VERSION <? nVersion c)); [reflexivity|].
  destruct (llmqs !! llmqType c) as [p|]; [|reflexivity].
  destruct (negb (VerifySizes c p)); [reflexivity|].
  destruct (CountValidMembers c <? llmq_minSize p); [reflexivity|].
  destruct (CountSigners c <? llmq_minSize p); [reflexivity|].
  destruct (negb (pk_fValid (quorumPublicKey c))); [reflexivity|].
  destruct (uint256_IsNull (quorumVvecHash c)); [reflexivity|].
  destruct (negb (sig_fValid (membersSig c))); [reflexivity|].
  destruct (negb (sig_fValid (quorumSig c))); [reflexivity|].
  cbv zeta. destruct (negb (no_bits_from _ _ _ _)); [reflexivity|].
  destruct (VerifySecureAggregated _ _ _); [|reflexivity].
  destruct (VerifyInsecure _ _ _); reflexivity.
Qed.

Lemma memberPubKeys_drop (ms : list CDeterministicMN) (sg : list bool) (i : nat) :
  memberPubKeys ms sg i = memberPubKeys ms (drop i sg) 0.
Proof.
  revert sg i. induction ms as [|m rest IH]; intros sg i; [reflexivity|].
  cbn [memberPubKeys].
  assert (Hb : bit sg i = bit (drop i sg) 0).
  { unfold bit. clear. revert i. induction sg as [|x sg IHsg]; intros [|i]; simpl; auto. }
  rewrite Hb, (IH sg (S i)), (IH (drop i sg) 1%nat), drop_drop.
  replace (i + 1)%nat with (S i) by lia. reflexivity.
Qed.

Lemma memberPubKeys_length (ms : list CDeterministicMN) (sg : list bool) :
  (forall i, (length ms <= i)%nat -> sg !! i <> Some true) ->
  Z.of_nat (length (memberPubKeys ms sg 0)) = count_true sg.
Proof.
  revert sg. induction ms as [|m rest IH]; intros sg Hbits.
  - symmetry. apply count_true_zero. intros i. apply Hbits. simpl. lia.
  - cbn [memberPubKeys]. rewrite memberPubKeys_drop. destruct sg as [|b sg].
    + cbn. rewrite IH; [reflexivity|]. intros i _. rewrite lookup_nil. discriminate.
    + cbn [bit nth drop]. rewrite drop_0.
      assert (Hrest : forall i, (length rest <= i)%nat -> sg !! i <> Some true).
      { intros i Hi. apply (Hbits (S i)). simpl. lia. }
      specialize (IH sg Hrest). unfold count_true in *. destruct b; cbn; lia.
Qed.

(** X3: when [Verify] accepts, the keys it hands to the aggregated signature
    check are as many as the commitment has signers: no signer is left out. *)
Theorem Verify_keys_of_all_signers (c : CFinalCommitment) (b : CBlockIndex)
    (checkSigs : bool) (p : LLMQParams) :
  llmqs !! llmqType c = Some p ->
  Verify c b checkSigs = true ->
  Z.of_nat (length (memberPubKeys (GetAllQuorumMembers (llmq_type p) b) (signers c) 0))
  = CountSigners c.
Proof.
  intros Hp H. apply Verify_true_inv in H as (p' & Hp' & H).
  assert (p' = p) as -> by congruence.
  destruct H as (_&_&_&_&_&_&_&_&_&_&Hbits&_).
  apply memberPubKeys_length. intros i Hi. apply (Hbits i Hi).
Qed.

End MoreCommitmentProperties.

(** X3 at the example: [qcA] verifies, two members are resolved for [b1],
    and two keys go into the aggregated signature check. *)
Lemma Verify_keys_of_all_signers_witness :
  Verify (ext := Example.ext) Example.qcA Example.b1 true = true
  /\ Z.of_nat (length (memberPubKeys
                         (GetAllQuorumMembers (Externals := Example.ext) 1 Example.b1)
                         (signers Example.qcA) 0))
     = CountSigners Example.qcA.
Proof.
  split; [reflexivity|].
  apply (Verify_keys_of_all_signers (ext := Example.ext) Example.qcA Example.b1 true
           Example.params1); reflexivity.
Defined.

(** ** The outcome of the commitment transaction check *)

Section ValidatorOutcome.
Context {ext : Externals}.

(** X4: [CheckLLMQCommitment] either accepts and leaves the validation state
    as it was, or rejects with one of seven reasons. It accepts exactly when
    the payload deserializes with nothing left over, its version and its
    height are the expected ones, the quorum hash is that of an entry of the
    block index on the chain of [pindexPrev], the type is configured, and
    the commitment passes [VerifyNull] if it is null and [Verify] without
    signature checks otherwise. *)
Theorem CheckLLMQCommitment_outcome
    (mapBlockIndex : gmap Z CBlockIndex) (tx : CTransaction)
    (pindexPrev : CBlockIndex) (state : CValidationState) :
  let r := CheckLLMQCommitment mapBlockIndex tx pindexPrev state in
  (r = (true, state)
   \/ exists reason,
        In reason ["bad-qc-payload"; "bad-qc-version"; "bad-qc-height";
                   "bad-qc-quorum-hash"; "bad-qc-type"; "bad-qc-invalid-null";
                   "bad-qc-invalid"]%string
        /\ r = rejected state reason)
  /\ (r = (true, state) <->
      exists qcTx pQuorumBaseBlockIndex,
        Unserialize_qcTx (vExtraPayload tx) = Some (qcTx, [])
        /\ CFinalCommitmentTxPayload.nVersion qcTx <> 0
        /\ CFinalCommitmentTxPayload.nVersion qcTx <= TX_CURRENT_VERSION
        /\ CFinalCommitmentTxPayload.nHeight qcTx = to_uint32 (nHeight pindexPrev + 1)
        /\ LookupBlockIndex mapBlockIndex
             (quorumHash (CFinalCommitmentTxPayload.commitment qcTx))
           = Some pQuorumBaseBlockIndex
        /\ GetAncestor pindexPrev (nHeight pQuorumBaseBlockIndex)
           = Some pQuorumBaseBlockIndex
        /\ is_Some (llmqs !! llmqType (CFinalCommitmentTxPayload.commitment qcTx))
        /\ (if IsNull (CFinalCommitmentTxPayload.commitment qcTx)
            then VerifyNull (CFinalCommitmentTxPayload.commitment qcTx) = true
            else Verify (CFinalCommitmentTxPayload.commitment qcTx)
                        pQuorumBaseBlockIndex false = true)).
Proof.
  cbv zeta. unfold CheckLLMQCommitment, DoS.
  change (fun reason => (false, {| nDoS := nDoS state + 100; chRejectCode := REJECT_INVALID;
                                   strRejectReason := reason |}))
    with (rejected state).
  destruct (GetTxPayload Unserialize_qcTx (vExtraPayload tx)) as [qcTx|] eqn:Ep.
  2:{ split; [right; eexists; split; [|reflexivity]; simpl; tauto|].
      split; [discriminate|]. intros (q & b & Hu & _).
      apply GetTxPayload_Some in Hu. congruence. }
  apply GetTxPayload_Some in Ep.
  destruct (Z.eqb_spec (CFinalCommitmentTxPayload.nVersion qcTx) 0) as [Hv0|Hv0].
  { split; [right; eexists; split; [|reflexivity]; simpl; tauto|].
    split; [discriminate|]. intros (q & b & Hu & Hq & _). congruence. }
  destruct (Z.ltb_spec TX_CURRENT_VERSION (CFinalCommitmentTxPayload.nVersion qcTx))
    as [Hv1|Hv1].
  { split; [right; eexists; split; [|reflexivity]; simpl; tauto|].
    split; [discriminate|]. intros (q & b & Hu & _ & Hq & _).
    assert (q = qcTx) as -> by congruence. lia. }
  cbn [orb].
  destruct (Z.eqb_spec (CFinalCommitmentTxPayload.nHeight qcTx)
                       (to_uint32 (nHeight pindexPrev + 1))) as [Hh|Hh]; cbn [negb].
  2:{ split; [right; eexists; split; [|reflexivity]; simpl; tauto|].
      split; [discriminate|]. intros (q & b & Hu & _ & _ & Hq & _).
      assert (q = qcTx) as -> by congruence. contradiction. }
  destruct (LookupBlockIndex mapBlockIndex
              (quorumHash (CFinalCommitmentTxPayload.commitment qcTx))) as [b|] eqn:El.
  2:{ split; [right; eexists; split; [|reflexivity]; simpl; tauto|].
      split; [discriminate|]. intros (q & b & Hu & _ & _ & _ & Hq & _).
      assert (q = qcTx) as -> by congruence. congruence. }
  destruct (ptr_eqb (Some b) (GetAncestor pindexPrev (nHeight b))) eqn:Ea; cbn [negb].
  2:{ split; [right; eexists; split; [|reflexivity]; simpl; tauto|].
      split; [discriminate|]. intros (q & b' & Hu & _ & _ & _ & Hl & Hq & _).
      assert (q = qcTx) as -> by congruence. assert (b' = b) as -> by congruence.
      rewrite Hq in Ea. rewrite (proj2 (ptr_eqb_eq _ _) eq_refl) in Ea. discriminate. }
  apply ptr_eqb_eq in Ea.
  destruct (bool_decide (is_Some (llmqs !! llmqType (CFinalCommitmentTxPayload.commitment qcTx))))
    eqn:Et; cbn [negb].
  2:{ split; [right; eexists; split; [|reflexivity]; simpl; tauto|].
      split; [discriminate|]. intros (q & b' & Hu & _ & _ & _ & _ & _ & Hq & _).
      assert (q = qcTx) as -> by congruence.
      apply bool_decide_eq_false in Et. contradiction. }
  apply bool_decide_eq_true in Et.
  destruct (IsNull (CFinalCommitmentTxPayload.commitment qcTx)) eqn:En.
  - destruct (VerifyNull (CFinalCommitmentTxPayload.commitment qcTx)) eqn:Ev; cbn [negb].
    + split; [left; reflexivity|]. split; [intros _|reflexivity].
      exists qcTx, b. rewrite En. auto 10.
    + split; [right; eexists; split; [|reflexivity]; simpl; tauto|].
      split; [discriminate|]. intros (q & b' & Hu & _ & _ & _ & _ & _ & _ & Hq).
      assert (q = qcTx) as -> by congruence. rewrite En in Hq. congruence.
  - destruct (Verify (CFinalCommitmentTxPayload.commitment qcTx) b false) eqn:Ev; cbn [negb].
    + split; [left; reflexivity|]. split; [intros _|reflexivity].
      exists qcTx, b. rewrite En. auto 10.
    + split; [right; eexists; split; [|reflexivity]; simpl; tauto|].
      split; [discriminate|]. intros (q & b' & Hu & _ & _ & _ & Hl & _ & _ & Hq).
      assert (q = qcTx) as -> by congruence. assert (b' = b) as -> by congruence.
      rewrite En in Hq. congruence.
Qed.

End ValidatorOutcome.

(** ** Construction and payload encoding *)

Section ConstructorProperties.
Context {ext : Externals}.

Lemma count_true_repeat_false (n : nat) : count_true (repeat false n) = 0.
Proof.
  unfold count_true. induction n as [|n IH]; [reflexivity|]. simpl. exact IH.
Qed.

(** X5: a commitment constructed for a quorum type has the type's sizes and no
    bit set; [VerifyNull] accepts it when the default key is not valid. *)
Theorem CFinalCommitment_new_null (dflt : CFinalCommitment) (params : LLMQParams)
    (h : uint256) :
  0 <= llmq_size params < 2 ^ 31 ->
  exists c,
    CFinalCommitment_new dflt params h = Some c
    /\ llmqType c = llmq_type params
    /\ quorumHash c = h
    /\ VerifySizes c params = true
    /\ CountSigners c = 0
    /\ CountValidMembers c = 0
    /\ (llmqs !! llmq_type params = Some params ->
        VerifyNull c = negb (pk_fValid (quorumPublicKey dflt))).
Proof.
  intros Hsize. unfold CFinalCommitment_new.
  destruct (Z.ltb_spec (llmq_size params) 0) as [|_]; [lia|].
  eexists. split; [reflexivity|].
  assert (Hlen : Z.of_nat (Z.to_nat (to_size_t (llmq_size params)))
                 = to_size_t (llmq_size params)).
  { unfold to_size_t. rewrite Z.mod_small by lia. lia. }
  split; [reflexivity|]. split; [reflexivity|].
  assert (Hs : VerifySizes
                 {| nVersion := nVersion dflt; llmqType := llmq_type params;
                    quorumHash := h;
                    signers := repeat false (Z.to_nat (to_size_t (llmq_size params)));
                    validMembers := repeat false (Z.to_nat (to_size_t (llmq_size params)));
                    quorumPublicKey := quorumPublicKey dflt;
                    quorumVvecHash := quorumVvecHash dflt;
                    quorumSig := quorumSig dflt; membersSig := membersSig dflt |} params
               = true).
  { apply VerifySizes_true. cbn [signers validMembers]. rewrite repeat_length. auto. }
  split; [exact Hs|].
  unfold CountSigners, CountValidMembers. cbn [signers validMembers].
  rewrite count_true_repeat_false. split; [reflexivity|]. split; [reflexivity|].
  intros Hp. unfold VerifyNull. cbn [llmqType]. rewrite Hp, Hs.
  unfold IsNull. cbn [signers validMembers quorumPublicKey].
  rewrite count_true_repeat_false. cbn.
  destruct (pk_fValid (quorumPublicKey dflt)); reflexivity.
Qed.

End ConstructorProperties.

(** X5 at the example: for the type of size 3 the constructor gives two
    bitsets of three clear bits, and [VerifyNull] accepts the commitment. *)
Lemma CFinalCommitment_new_null_witness :
  exists c,
    CFinalCommitment_new Example.qcDefault Example.params1 101 = Some c
    /\ signers c = [false; false; false]
    /\ validMembers c = [false; false; false]
    /\ VerifySizes c Example.params1 = true
    /\ VerifyNull (ext := Example.ext) c = true.
Proof.
  destruct (CFinalCommitment_new_null (ext := Example.ext) Example.qcDefault
              Example.params1 101) as (c & Hc & _ & _ & Hs & _ & _ & Hn).
  - vm_compute. split; [discriminate|reflexivity].
  - exists c. split; [exact Hc|]. injection Hc as <-.
    split; [reflexivity|]. split; [reflexivity|]. split; [exact Hs|].
    apply Hn. reflexivity.
Defined.

Section PayloadRoundTrip.
Context {T : Type}.
Variable serialize : T -> list Byte.byte.
Variable unserialize : list Byte.byte -> option (T * list Byte.byte).
Hypothesis unserialize_serialize :
  forall obj rest, unserialize (serialize obj ++ rest) = Some (obj, rest).

(** X6: [GetTxPayload] reads back what [SetTxPayload] wrote, and rejects the
    same bytes followed by anything. *)
Theorem GetTxPayload_SetTxPayload (tx : CTransaction) (obj : T) :
  GetTxPayload unserialize (vExtraPayload (SetTxPayload serialize tx obj)) = Some obj
  /\ forall extra, extra <> [] ->
       GetTxPayload unserialize (serialize obj ++ extra) = None.
Proof.
  split.
  - unfold SetTxPayload, GetTxPayload. cbn [vExtraPayload].
    rewrite <- (app_nil_r (serialize obj)), unserialize_serialize. reflexivity.
  - intros extra Hextra. unfold GetTxPayload. rewrite unserialize_serialize.
    destruct extra; [contradiction|reflexivity].
Qed.

End PayloadRoundTrip.

(** X6 at the example: a pair of bytes written to the extra payload is read
    back, and is not read from the same bytes followed by one more. *)
Lemma GetTxPayload_SetTxPayload_witness :
  GetTxPayload Example.getPair
    (vExtraPayload (SetTxPayload Example.putPair (mkTransaction []) (x01, x00)))
  = Some (x01, x00)
  /\ GetTxPayload Example.getPair (Example.putPair (x01, x00) ++ [xff]) = None.
Proof.
  destruct (GetTxPayload_SetTxPayload Example.putPair Example.getPair
              (fun '(a, b) rest => eq_refl) (mkTransaction []) (x01, x00)) as [H1 H2].
  split; [exact H1|]. apply H2. discriminate.
Defined.

(** ** Members and key shares *)

Section MemberProperties.
Context {ext : Externals}.

Lemma find_member_None (ms : list CDeterministicMN) (h : uint256) (i : nat) :
  find_member ms h i = None <-> existsb (fun dmn => proTxHash dmn =? h) ms = false.
Proof.
  revert i. induction ms as [|m rest IH]; intros i; simpl; [tauto|].
  destruct (proTxHash m =? h); simpl; [split; discriminate|apply IH].
Qed.

Lemma find_member_Some (ms : list CDeterministicMN) (h : uint256) (i k : nat) :
  find_member ms h i = Some k ->
  exists j m, k = (i + j)%nat /\ ms !! j = Some m /\ proTxHash m = h
              /\ forall j' m', (j' < j)%nat -> ms !! j' = Some m' -> proTxHash m' <> h.
Proof.
  revert i. induction ms as [|m rest IH]; intros i; simpl; [discriminate|].
  destruct (Z.eqb_spec (proTxHash m) h) as [Heq|Hne].
  - intros H. injection H as <-. exists 0%nat, m.
    split; [lia|]. split; [reflexivity|]. split; [exact Heq|]. intros j' m' Hj. lia.
  - intros H. destruct (IH (S i) H) as (j & m0 & -> & Hl & Hh & Hfirst).
    exists (S j), m0. split; [lia|]. split; [exact Hl|]. split; [exact Hh|].
    intros [|j'] m' Hj Hm'; simpl in Hm'.
    + injection Hm' as <-. exact Hne.
    + apply (Hfirst j' m'); [lia|exact Hm'].
Qed.

Lemma find_member_spec (ms : list CDeterministicMN) (h : uint256) :
  match find_member ms h 0 with
  | None => existsb (fun dmn => proTxHash dmn =? h) ms = false
  | Some i =>
      existsb (fun dmn => proTxHash dmn =? h) ms = true
      /\ exists m, ms !! i = Some m /\ proTxHash m = h
                   /\ forall j m', (j < i)%nat -> ms !! j = Some m' -> proTxHash m' <> h
  end.
Proof.
  destruct (find_member ms h 0) as [k|] eqn:E.
  - destruct (find_member_Some _ _ _ _ E) as (j & m & -> & Hl & Hh & Hfirst).
    split; [|exists m; auto].
    destruct (existsb _ ms) eqn:Ex; [reflexivity|].
    apply find_member_None with (i := 0%nat) in Ex. congruence.
  - apply find_member_None in E. exact E.
Qed.

(** X7: the three member lookups of a quorum agree. Either no member has the
    hash: then [IsMember] is false, [GetMemberIndex] is -1 and
    [IsValidMember] is false. Or [IsMember] is true, [GetMemberIndex] is the
    first position of a member with the hash, and [IsValidMember] is the bit
    of [validMembers] at that position. *)
Theorem member_lookups_agree (q : CQuorum) (h : uint256) :
  (IsMember q h = false /\ GetMemberIndex q h = -1 /\ IsValidMember q h = false)
  \/ exists i m,
       IsMember q h = true
       /\ GetMemberIndex q h = Z.of_nat i
       /\ members q !! i = Some m
       /\ proTxHash m = h
       /\ (forall j m', (j < i)%nat -> members q !! j = Some m' -> proTxHash m' <> h)
       /\ IsValidMember q h = bit (validMembers (qc q)) i.
Proof.
  unfold IsMember, GetMemberIndex, IsValidMember.
  pose proof (find_member_spec (members q) h) as H.
  destruct (find_member (members q) h 0) as [i|].
  - right. destruct H as (Hex & m & Hm & Hh & Hfirst). exists i, m. auto 10.
  - left. auto.
Qed.

Lemma CBLSPublicKey_eqb_eq (a b : CBLSPublicKey) :
  CBLSPublicKey_eqb a b = true <-> a = b.
Proof.
  unfold CBLSPublicKey_eqb. destruct a as [va ra], b as [vb rb]. simpl.
  rewrite andb_true_iff, Bool.eqb_true_iff, Z.eqb_eq. split.
  - intros [-> ->]. reflexivity.
  - intros H. injection H as -> ->. auto.
Qed.

(** X8: in a BLS layer where the public key of a valid secret key is valid,
    and for a member list that a vector can hold, a secret key share is
    accepted only when it is valid, the node is a valid member of a quorum
    that has its verification vector, and the public key of the share is the
    public key share of that member. An invalid share is always rejected, and
    a rejected share leaves the quorum as it was. *)
Theorem SetSecretKeyShare_spec (me : ActiveMasternodeInfo) (q : CQuorum)
    (secretKeyShare : CBLSSecretKey) :
  Z.of_nat (length (members q)) < 2 ^ 64 ->
  (sk_fValid secretKeyShare = true -> pk_fValid (GetPublicKey secretKeyShare) = true) ->
  (sk_fValid secretKeyShare = false ->
   SetSecretKeyShare me q secretKeyShare = (false, q))
  /\ match SetSecretKeyShare me q secretKeyShare with
  | (true, q') =>
      q' = set_skShare secretKeyShare q
      /\ sk_fValid secretKeyShare = true
      /\ IsValidMember q (activeProTxHash me) = true
      /\ exists vvec i m,
           quorumVvec q = Some vvec
           /\ GetMemberIndex q (activeProTxHash me) = Z.of_nat i
           /\ members q !! i = Some m
           /\ GetPublicKey secretKeyShare
              = BuildPubKeyShare (proTxHash m) vvec (proTxHash m)
  | (false, q') => q' = q
  end.
Proof.
  intros Hlen Hpk. unfold SetSecretKeyShare.
  destruct (sk_fValid secretKeyShare) eqn:Esk; cbn [negb orb];
    [|split; [reflexivity|reflexivity]].
  split; [discriminate|]. specialize (Hpk eq_refl).
  destruct (CBLSPublicKey_eqb _ _) eqn:Eeq; cbn [negb]; [|reflexivity].
  apply CBLSPublicKey_eqb_eq in Eeq.
  split; [reflexivity|]. split; [reflexivity|].
  assert (Hnd : GetPublicKey secretKeyShare <> CBLSPublicKey_default).
  { intros Hd. rewrite Hd in Hpk. discriminate. }
  unfold GetPubKeyShare in Eeq.
  destruct (quorumVvec q) as [vvec|] eqn:Ev; [|congruence].
  assert (Hcases :
    GetMemberIndex q (activeProTxHash me) = -1
    \/ exists i m, GetMemberIndex q (activeProTxHash me) = Z.of_nat i
                   /\ members q !! i = Some m
                   /\ IsValidMember q (activeProTxHash me) = bit (validMembers (qc q)) i).
  { unfold GetMemberIndex, IsValidMember.
    pose proof (find_member_spec (members q) (activeProTxHash me)) as H.
    destruct (find_member (members q) (activeProTxHash me) 0) as [i|]; [|auto].
    right. destruct H as (_ & m & Hm & _). exists i, m. auto. }
  destruct Hcases as [Hidx|(i & m & Hidx & Hm & Hvalid)].
  - rewrite Hidx in Eeq. unfold to_size_t in Eeq.
    change (-1 mod 2 ^ 64) with (2 ^ 64 - 1) in Eeq.
    destruct (Z.leb_spec (Z.of_nat (length (members q))) (2 ^ 64 - 1)); [|lia].
    cbn [orb] in Eeq. congruence.
  - rewrite Hidx in Eeq. unfold to_size_t in Eeq.
    pose proof (lookup_lt_Some _ _ _ Hm) as Hlt.
    rewrite Z.mod_small in Eeq by lia. rewrite Nat2Z.id in Eeq.
    destruct (Z.leb_spec (Z.of_nat (length (members q))) (Z.of_nat i)); [lia|].
    cbn [orb] in Eeq.
    destruct (bit (validMembers (qc q)) i) eqn:Eb; cbn [negb] in Eeq; [|congruence].
    split; [rewrite Hvalid; reflexivity|].
    exists vvec, i, m. split; [reflexivity|]. split; [exact Hidx|]. split; [exact Hm|].
    assert (Hnth : nth_error (members q) i = Some m).
    { revert Hm. clear. generalize (members q). induction i as [|i IH]; intros [|x l];
        simpl; auto. }
    rewrite Hnth in Eeq. exact Eeq.
Qed.

End MemberProperties.

(** X8 at the example: masternode 11 is the first member of the quorum of
    [qcA]; with the vector at hand, the share whose public key is the public
    key share of member 11 is accepted and stored, another valid key is not,
    and an invalid share with the very representation of the accepted one is
    rejected and leaves the quorum as it was. *)
Lemma SetSecretKeyShare_spec_witness :
  match SetSecretKeyShare (ext := Example.ext) Example.me Example.quorumAVvec
                          Example.shareA with
  | (true, q') =>
      q' = set_skShare Example.shareA Example.quorumAVvec
      /\ sk_fValid Example.shareA = true
      /\ IsValidMember Example.quorumAVvec (activeProTxHash Example.me) = true
      /\ exists vvec i m,
           quorumVvec Example.quorumAVvec = Some vvec
           /\ GetMemberIndex Example.quorumAVvec (activeProTxHash Example.me) = Z.of_nat i
           /\ members Example.quorumAVvec !! i = Some m
           /\ GetPublicKey (Externals := Example.ext) Example.shareA
              = BuildPubKeyShare (Externals := Example.ext) (proTxHash m) vvec (proTxHash m)
  | (false, q') => q' = Example.quorumAVvec
  end
  /\ fst (SetSecretKeyShare (ext := Example.ext) Example.me Example.quorumAVvec
                            Example.shareA) = true
  /\ fst (SetSecretKeyShare (ext := Example.ext) Example.me Example.quorumAVvec
                            (mkSecretKey true 12)) = false
  /\ SetSecretKeyShare (ext := Example.ext) Example.me Example.quorumAVvec
                       (mkSecretKey false 11)
     = (false, Example.quorumAVvec).
Proof.
  split; [|split; [reflexivity|split; [reflexivity|]]].
  - exact (proj2 (SetSecretKeyShare_spec (ext := Example.ext) Example.me
                    Example.quorumAVvec Example.shareA
                    ltac:(vm_compute; reflexivity) (fun _ => eq_refl))).
  - exact (proj1 (SetSecretKeyShare_spec (ext := Example.ext) Example.me
                    Example.quorumAVvec (mkSecretKey false 11)
                    ltac:(vm_compute; reflexivity)
                    (fun H : false = true => False_ind _ (diff_false_true H)))
                 eq_refl).
Defined.

(** ** Persisted contributions *)

Section ContributionsProperties.
Context {ext : Externals}.

Lemma quorum_tags_differ (k k' : Z) :
  (DB_QUORUM_SK_SHARE, k) <> (DB_QUORUM_QUORUM_VVEC, k').
Proof. unfold DB_QUORUM_SK_SHARE, DB_QUORUM_QUORUM_VVEC. intros H. discriminate. Qed.

(** What [WriteContributions] leaves under the two keys of the quorum. *)
Lemma WriteContributions_lookup (q : CQuorum) (db : gmap (string * Z) DbValue) :
  let db' := WriteContributions q db in
  db' !! (DB_QUORUM_QUORUM_VVEC, MakeQuorumKey q)
  = match quorumVvec q with
    | Some v => Some (DbVvec v)
    | None => db !! (DB_QUORUM_QUORUM_VVEC, MakeQuorumKey q)
    end
  /\ db' !! (DB_QUORUM_SK_SHARE, MakeQuorumKey q)
     = if sk_fValid (skShare q) then Some (DbSkShare (skShare q))
       else db !! (DB_QUORUM_SK_SHARE, MakeQuorumKey q).
Proof.
  unfold WriteContributions. cbv zeta.
  destruct (sk_fValid (skShare q)); destruct (quorumVvec q) as [v|];
    rewrite ?lookup_insert_eq;
    rewrite ?(lookup_insert_ne _ _ _ _ (quorum_tags_differ _ _));
    rewrite ?(lookup_insert_ne _ _ _ _ (not_eq_sym (quorum_tags_differ _ _)));
    rewrite ?lookup_insert_eq; auto.
Qed.

(** X9: what [WriteContributions] persists for a quorum with a verification
    vector, [ReadContributions] restores into a quorum object of the same
    type, quorum hash and members: the vector always, and the key share when
    it was valid. *)
Theorem ReadContributions_WriteContributions (q q0 : CQuorum)
    (db : gmap (string * Z) DbValue) (vvec : list CBLSPublicKey) :
  llmq_type (params q0) = llmq_type (params q) ->
  quorumHash (qc q0) = quorumHash (qc q) ->
  List.map proTxHash (members q0) = List.map proTxHash (members q) ->
  quorumVvec q = Some vvec ->
  exists q1,
    ReadContributions q0 (WriteContributions q db) = (true, q1)
    /\ quorumVvec q1 = Some vvec
    /\ (sk_fValid (skShare q) = true -> skShare q1 = skShare q)
    /\ params q1 = params q0 /\ qc q1 = qc q0 /\ pindexQuorum q1 = pindexQuorum q0
    /\ members q1 = members q0 /\ minedBlockHash q1 = minedBlockHash q0.
Proof.
  intros Ht Hh Hm Hv.
  assert (Hkey : MakeQuorumKey q0 = MakeQuorumKey q).
  { unfold MakeQuorumKey. rewrite Ht, Hh, Hm. reflexivity. }
  destruct (WriteContributions_lookup q db) as [H1 H2]. cbv zeta in H1, H2.
  rewrite Hv in H1.
  pose proof (ReadContributions_fields q0 (WriteContributions q db)) as Hf.
  unfold ReadContributions in *. rewrite Hkey in *. rewrite H1 in *. rewrite H2 in *.
  destruct (sk_fValid (skShare q)) eqn:Esk.
  - eexists. split; [reflexivity|]. split; [reflexivity|].
    split; [reflexivity|]. exact Hf.
  - destruct (db !! (DB_QUORUM_SK_SHARE, MakeQuorumKey q)) as [[v|s]|];
      (eexists; split; [reflexivity|]; split; [reflexivity|];
       split; [discriminate|exact Hf]).
Qed.

Lemma ReadContributions_false (q : CQuorum) (db : gmap (string * Z) DbValue) :
  fst (ReadContributions q db) = false -> snd (ReadContributions q db) = q.
Proof.
  unfold ReadContributions.
  destruct (db !! (DB_QUORUM_QUORUM_VVEC, MakeQuorumKey q)) as [[v|s]|]; simpl;
    try reflexivity.
  destruct (db !! (DB_QUORUM_SK_SHARE, MakeQuorumKey q)) as [[v'|s']|]; simpl;
    discriminate.
Qed.

(** X10: [WriteContributions] writes under the two keys of the quorum only, and
    nothing at all for a quorum without a verification vector and without a
    valid key share; [ReadContributions] fails exactly when no verification
    vector is stored under the quorum's key, and then leaves the quorum
    object as it was. *)
Theorem contributions_database_frame (q : CQuorum) (db : gmap (string * Z) DbValue) :
  (forall k, k <> (DB_QUORUM_QUORUM_VVEC, MakeQuorumKey q) ->
             k <> (DB_QUORUM_SK_SHARE, MakeQuorumKey q) ->
             WriteContributions q db !! k = db !! k)
  /\ (quorumVvec q = None -> sk_fValid (skShare q) = false ->
      WriteContributions q db = db)
  /\ (fst (ReadContributions q db) = false <->
      ~ exists v, db !! (DB_QUORUM_QUORUM_VVEC, MakeQuorumKey q) = Some (DbVvec v))
  /\ (fst (ReadContributions q db) = false -> snd (ReadContributions q db) = q).
Proof.
  split; [|split; [|split]].
  - intros k Hk1 Hk2. unfold WriteContributions. cbv zeta.
    destruct (sk_fValid (skShare q)); destruct (quorumVvec q);
      rewrite ?lookup_insert_ne by congruence; reflexivity.
  - intros Hv Hs. unfold WriteContributions. rewrite Hv, Hs. reflexivity.
  - unfold ReadContributions.
    destruct (db !! (DB_QUORUM_QUORUM_VVEC, MakeQuorumKey q)) as [[v|s]|]; simpl.
    + destruct (db !! (DB_QUORUM_SK_SHARE, MakeQuorumKey q)) as [[v'|s']|]; simpl;
        (split; [discriminate|]; intros H; exfalso; apply H; eauto).
    + split; [|reflexivity]. intros _ [v Hv]. discriminate.
    + split; [|reflexivity]. intros _ [v Hv]. discriminate.
  - apply ReadContributions_false.
Qed.

End ContributionsProperties.

(** X9 at the example: the vector of [quorumAVvec], written to an empty
    database, is read back into the freshly initialised [quorumA]. *)
Lemma ReadContributions_WriteContributions_witness :
  exists q1,
    ReadContributions (ext := Example.ext) Example.quorumA
      (WriteContributions (ext := Example.ext) Example.quorumAVvec ∅) = (true, q1)
    /\ quorumVvec q1 = Some Example.vvecA.
Proof.
  destruct (ReadContributions_WriteContributions (ext := Example.ext)
              Example.quorumAVvec Example.quorumA ∅ Example.vvecA
              eq_refl eq_refl eq_refl eq_refl) as (q1 & H1 & H2 & _).
  exists q1. split; [exact H1|exact H2].
Defined.

(** ** Valid quorum pointers *)

Section PointerProperties.
Context {ext : Externals}.

Lemma quorum_pointers_valid_step (st st' : NodeState) :
  quorum_pointers_valid st ->
  quorums st `prefix_of` quorums st' ->
  (forall t h a,
     cache_find h (cacheMap (cache_at (mapQuorumsCache st') t)) = Some a ->
     cache_find h (cacheMap (cache_at (mapQuorumsCache st) t)) = Some a
     \/ is_Some (quorums st' !! a)) ->
  quorum_pointers_valid st'.
Proof.
  intros Hv Hpre Hnew t h a Hf. destruct (Hnew t h a Hf) as [Hold|Hs]; [|exact Hs].
  destruct (Hv t h a Hold) as [q Hq]. exists q. exact (prefix_lookup_Some _ _ _ _ Hq Hpre).
Qed.

(** [GetQuorum] for a configured type, on a node whose cached pointers are
    valid: it returns, with null exactly when the store has no commitment for
    the anchor; a quorum it returns is an object of the store; the objects
    that were there are still there, unchanged. *)
Lemma GetQuorum_valid (t : LLMQType) (pindexQuorum_ : CBlockIndex) (st : NodeState)
    (p : LLMQParams) :
  llmqs !! t = Some p ->
  quorum_pointers_valid st ->
  exists r st',
    GetQuorum t pindexQuorum_ st = Ok (r, st')
    /\ same_outside_quorums st st'
    /\ quorums st `prefix_of` quorums st'
    /\ quorum_pointers_valid st'
    /\ (r = None <->
        HasMinedCommitment (minedCommitments st) t (GetBlockHash pindexQuorum_) = false)
    /\ (forall a, r = Some a -> is_Some (quorums st' !! a))
    /\ (forall a, r = Some a ->
          cache_find (GetBlockHash pindexQuorum_)
                     (cacheMap (cache_at (mapQuorumsCache st) t)) = Some a
          /\ quorums st' = quorums st /\ evoDb st' = evoDb st
          /\ workerPool st' = workerPool st
          \/ cache_find (GetBlockHash pindexQuorum_)
                        (cacheMap (cache_at (mapQuorumsCache st) t)) = None
             /\ a = length (quorums st)
             /\ exists q, quorums st' = quorums st ++ [q]
                          /\ pindexQuorum q = pindexQuorum_).
Proof.
  intros Hp Hv. unfold GetQuorum, HasQuorum.
  destruct (HasMinedCommitment (minedCommitments st) t (GetBlockHash pindexQuorum_))
    eqn:Eh; cbn [negb].
  2:{ exists None, st. split; [reflexivity|]. split; [apply same_outside_quorums_refl|].
      split; [reflexivity|]. split; [exact Hv|]. split; [tauto|].
      split; intros a Ha; discriminate. }
  pose proof (cache_get_fst (GetBlockHash pindexQuorum_) (cache_at (mapQuorumsCache st) t))
    as Hfst.
  pose proof (fun k' => cache_get_find (GetBlockHash pindexQuorum_) k'
                          (cache_at (mapQuorumsCache st) t)) as Hfind.
  destruct (cache_get (GetBlockHash pindexQuorum_) (cache_at (mapQuorumsCache st) t))
    as [found cache]. cbn [fst snd] in Hfst, Hfind.
  set (st1 := set_mapQuorumsCache (<[t:=cache]> (mapQuorumsCache st)) st).
  assert (Hst1 : forall t' h a,
            cache_find h (cacheMap (cache_at (mapQuorumsCache st1) t')) = Some a ->
            cache_find h (cacheMap (cache_at (mapQuorumsCache st) t')) = Some a).
  { intros t' h a. subst st1. cbn [mapQuorumsCache set_mapQuorumsCache].
    rewrite cache_at_insert. destruct (decide (t = t')) as [<-|]; [|auto].
    rewrite Hfind. auto. }
  destruct found as [a|].
  - exists (Some a), st1. split; [reflexivity|].
    split; [subst st1; unfold same_outside_quorums; simpl; tauto|].
    split; [reflexivity|].
    split; [apply (quorum_pointers_valid_step st st1 Hv); [reflexivity|auto]|].
    split; [split; discriminate|].
    split.
    + intros a' Ha. injection Ha as <-. apply (Hv t (GetBlockHash pindexQuorum_) a).
      symmetry. exact Hfst.
    + intros a' Ha. injection Ha as <-. left. auto.
  - destruct (BuildQuorumFromCommitment_spec t pindexQuorum_ st1 p Hp)
      as [[Hnone _]|(e & q & st' & He & Hb & Hquorums & Hpq & Hqc & Hpar & Hmb & Hmem
                      & Hcache & Ho)].
    { apply GetMinedCommitment_Has in Eh as (e & He).
      subst st1. simpl in Hnone. congruence. }
    rewrite Hb. exists (Some (length (quorums st1))), st'. split; [reflexivity|].
    assert (Hpre : quorums st `prefix_of` quorums st').
    { rewrite Hquorums. subst st1. simpl. apply prefix_app_r. reflexivity. }
    assert (Hnew : quorums st' !! length (quorums st1) = Some q).
    { rewrite Hquorums. apply list_lookup_middle. reflexivity. }
    split; [eapply same_outside_quorums_trans; [|exact Ho];
            subst st1; unfold same_outside_quorums; simpl; tauto|].
    split; [exact Hpre|].
    split.
    { apply (quorum_pointers_valid_step st st' Hv Hpre).
      intros t' h a H. rewrite Hcache in H. rewrite cache_at_insert in H.
      destruct (decide (t = t')) as [<-|Hne].
      - apply cache_insert_find in H as [[-> ->]|H]; [right; eauto|left; apply Hst1; exact H].
      - left. apply Hst1. exact H. }
    split; [split; discriminate|].
    split.
    + intros a Ha. injection Ha as <-. eauto.
    + intros a Ha. injection Ha as <-. right. split; [symmetry; exact Hfst|].
      split; [reflexivity|]. exists q. split; [exact Hquorums|exact Hpq].
Qed.

End PointerProperties.

(** ** Outgoing requests *)

Section RequestOutcome.
Context {ext : Externals}.

(** X11: [RequestQuorumData] always returns, and it returns true exactly when
    there is a peer and a quorum block, the peer speaks the protocol version
    of the data messages, it is a verified masternode or watches quorums,
    the type is configured, a commitment is mined for the block, and the
    request on record for the peer, if there is one, has expired. *)
Theorem RequestQuorumData_accepts_iff (now : Z) (pFrom : option CNode.t) (t : LLMQType)
    (pQuorumIndex : option CBlockIndex) (nDataMask : Z) (proTxHash_ : uint256)
    (st : NodeState) :
  exists b st',
    RequestQuorumData now pFrom t pQuorumIndex nDataMask proTxHash_ st = Ok (b, st')
    /\ (b = true <->
        exists from idx,
          pFrom = Some from /\ pQuorumIndex = Some idx
          /\ LLMQ_DATA_MESSAGES_VERSION <= CNode.nVersion from
          /\ (CNode.verifiedProRegTxHash from <> 0 \/ CNode.qwatch from = true)
          /\ is_Some (llmqs !! t)
          /\ HasMinedCommitment (minedCommitments st) t (GetBlockHash idx) = true
          /\ forall stored,
               mapQuorumDataRequests st !! (CNode.verifiedProRegTxHash from, true)
               = Some stored ->
               IsExpired now stored = true).
Proof.
  unfold RequestQuorumData.
  destruct pFrom as [from|].
  2:{ eexists _, _. split; [reflexivity|]. split; [discriminate|].
      intros (f & i & H & _). discriminate. }
  destruct (Z.ltb_spec (CNode.nVersion from) LLMQ_DATA_MESSAGES_VERSION) as [Hver|Hver].
  { eexists _, _. split; [reflexivity|]. split; [discriminate|].
    intros (f & i & H & _ & Hv & _). injection H as <-. lia. }
  unfold uint256_IsNull.
  destruct (Z.eqb_spec (CNode.verifiedProRegTxHash from) 0) as [Hnull|Hnull];
    destruct (CNode.qwatch from) eqn:Hq; cbn [negb andb].
  2:{ eexists _, _. split; [reflexivity|]. split; [discriminate|].
      intros (f & i & H & _ & _ & [Hp|Hp] & _); injection H as <-; congruence. }
  all: destruct (llmqs !! t) as [p|] eqn:Ep;
    [|eexists _, _; split; [reflexivity|]; split; [discriminate|];
      intros (f & i & _ & _ & _ & _ & [? ?] & _); discriminate].
  all: destruct pQuorumIndex as [idx|];
    [|eexists _, _; split; [reflexivity|]; split; [discriminate|];
      intros (f & i & _ & ? & _); discriminate].
  all: destruct (GetQuorum_total t idx st p Ep)
         as (r & st1 & Hg & (_&_&_&_&Hreq&Hsend&_) & Hr);
    rewrite Hg; cbn [bind fst snd].
  all: destruct r as [a|];
    [|eexists _, _; split; [reflexivity|]; split; [discriminate|];
      intros (f & i & _ & Hi & _ & _ & _ & Hm & _); injection Hi as <-;
      apply Hr in Hm; destruct Hm; discriminate].
  all: assert (Hm : HasMinedCommitment (minedCommitments st) t (GetBlockHash idx) = true)
         by (apply Hr; eauto).
  all: rewrite Hreq;
    destruct (mapQuorumDataRequests st !! (CNode.verifiedProRegTxHash from, true))
      as [stored|] eqn:Est.
  all: try (destruct (IsExpired now stored) eqn:Eexp; cbn [negb]).
  all: eexists _, _; (split; [reflexivity|]).
  all: try (split; [intros _; exists from, idx;
                    repeat (split; [first [reflexivity|assumption|eauto; fail|tauto]|]);
                    intros s' Hs'; congruence|reflexivity]).
  all: split; [discriminate|];
    intros (f & i & Hf & _ & _ & _ & _ & _ & Hall); injection Hf as <-;
    specialize (Hall _ Est); congruence.
Qed.


(** X12: what [RequestQuorumData] leaves behind. The chain state, the
    misbehaviour scores and the error log are never touched. When it returns
    false nothing is sent and the request table is as it was. When it
    returns true one QGETDATA goes to the peer, and it carries the request
    that the table holds for the peer afterwards: a fresh request when the
    table had none, and the request already on record, expired as it is,
    when it had one. *)
Theorem RequestQuorumData_sends_the_request_on_record (now : Z) (pFrom : option CNode.t)
    (t : LLMQType) (pQuorumIndex : option CBlockIndex) (nDataMask : Z)
    (proTxHash_ : uint256) (st : NodeState) :
  exists b st',
    RequestQuorumData now pFrom t pQuorumIndex nDataMask proTxHash_ st = Ok (b, st')
    /\ (mapBlockIndex st' = mapBlockIndex st
        /\ minedCommitments st' = minedCommitments st
        /\ misbehaving st' = misbehaving st
        /\ errorLog st' = errorLog st)
    /\ (b = false ->
        vSendMsg st' = vSendMsg st
        /\ mapQuorumDataRequests st' = mapQuorumDataRequests st)
    /\ (b = true ->
        exists from idx request,
          pFrom = Some from /\ pQuorumIndex = Some idx
          /\ vSendMsg st' = vSendMsg st ++ [QGETDATA (CNode.id from) request]
          /\ mapQuorumDataRequests st' !! (CNode.verifiedProRegTxHash from, true)
             = Some request
          /\ match mapQuorumDataRequests st !! (CNode.verifiedProRegTxHash from, true) with
             | Some stored =>
                 request = stored
                 /\ mapQuorumDataRequests st' = mapQuorumDataRequests st
             | None =>
                 request = CQuorumDataRequest.make now t (GetBlockHash idx)
                                                   nDataMask proTxHash_
                 /\ mapQuorumDataRequests st'
                    = <[(CNode.verifiedProRegTxHash from, true) := request]>
                        (mapQuorumDataRequests st)
             end).
Proof.
  unfold RequestQuorumData.
  assert (Hrefl : mapBlockIndex st = mapBlockIndex st
                  /\ minedCommitments st = minedCommitments st
                  /\ misbehaving st = misbehaving st
                  /\ errorLog st = errorLog st) by tauto.
  destruct pFrom as [from|];
    [|eexists _, _; split; [reflexivity|]; split; [exact Hrefl|];
      split; [auto|discriminate]].
  destruct (CNode.nVersion from <? LLMQ_DATA_MESSAGES_VERSION);
    [eexists _, _; split; [reflexivity|]; split; [exact Hrefl|];
     split; [auto|discriminate]|].
  destruct (uint256_IsNull (CNode.verifiedProRegTxHash from) && negb (CNode.qwatch from));
    [eexists _, _; split; [reflexivity|]; split; [exact Hrefl|];
     split; [auto|discriminate]|].
  destruct (llmqs !! t) as [p|] eqn:Ep;
    [|eexists _, _; split; [reflexivity|]; split; [exact Hrefl|];
      split; [auto|discriminate]].
  destruct pQuorumIndex as [idx|];
    [|eexists _, _; split; [reflexivity|]; split; [exact Hrefl|];
      split; [auto|discriminate]].
  destruct (GetQuorum_total t idx st p Ep)
    as (r & st1 & Hg & Ho & Hr).
  pose proof Ho as (H1&H2&H3&H4&Hreq&Hsend&H7&H8).
  rewrite Hg. cbn [bind fst snd].
  assert (Hout : forall s,
            mapBlockIndex s = mapBlockIndex st1 -> minedCommitments s = minedCommitments st1 ->
            misbehaving s = misbehaving st1 -> errorLog s = errorLog st1 ->
            mapBlockIndex s = mapBlockIndex st
            /\ minedCommitments s = minedCommitments st
            /\ misbehaving s = misbehaving st
            /\ errorLog s = errorLog st).
  { intros s G1 G2 G3 G4. repeat split; congruence. }
  destruct r as [a|];
    [|eexists _, _; split; [reflexivity|]; split; [apply Hout; reflexivity|];
      split; [auto|discriminate]].
  rewrite Hreq.
  destruct (mapQuorumDataRequests st !! (CNode.verifiedProRegTxHash from, true))
    as [stored|] eqn:Est.
  - destruct (IsExpired now stored); cbn [negb].
    + eexists _, _. split; [reflexivity|]. split; [apply Hout; reflexivity|].
      split; [discriminate|]. intros _. exists from, idx, stored.
      cbn [vSendMsg set_vSendMsg mapQuorumDataRequests]. rewrite Hsend, Hreq.
      rewrite Est. auto 10.
    + eexists _, _. split; [reflexivity|]. split; [apply Hout; reflexivity|].
      split; [auto|discriminate].
  - eexists _, _. split; [reflexivity|]. split; [apply Hout; reflexivity|].
    split; [discriminate|]. intros _. eexists from, idx, _.
    cbn [vSendMsg set_vSendMsg mapQuorumDataRequests set_mapQuorumDataRequests].
    rewrite Hsend, lookup_insert_eq, Est. auto 10.
Qed.

End RequestOutcome.

(** ** Serving a request *)

Section ServeProperties.
Context {ext : Externals}.

Lemma sendQDATA_fields (pFrom : CNode.t) (request : CQuorumDataRequest.t)
    (nError : CQuorumDataRequest.Errors) (body : QDataBody) (st : NodeState) :
  let st' := sendQDATA pFrom request nError body st in
  vSendMsg st'
  = vSendMsg st ++ [QDATA (CNode.id pFrom) (CQuorumDataRequest.SetError request nError) body]
  /\ quorums st' = quorums st /\ evoDb st' = evoDb st
  /\ mapQuorumsCache st' = mapQuorumsCache st.
Proof. unfold sendQDATA. simpl. tauto. Qed.

(** Serving a request, on a node whose cached pointers are valid: one
    QDATA is pushed, which echoes the request with an error code and carries
    what the code found of what was asked for. *)
Lemma QGETDATA_serve_spec (pFrom : CNode.t) (request : CQuorumDataRequest.t)
    (st : NodeState) :
  quorum_pointers_valid st ->
  let t := CQuorumDataRequest.llmqType request in
  let wantsVvec :=
    CQuorumDataRequest.wants request CQuorumDataRequest.QUORUM_VERIFICATION_VECTOR in
  let wantsContributions :=
    CQuorumDataRequest.wants request CQuorumDataRequest.ENCRYPTED_CONTRIBUTIONS in
  exists st' nError body,
    QGETDATA_serve pFrom request st = Ok st'
    /\ vSendMsg st'
       = vSendMsg st
         ++ [QDATA (CNode.id pFrom) (CQuorumDataRequest.SetError request nError) body]
    /\ quorums st `prefix_of` quorums st'
    /\ (nError <> CQuorumDataRequest.NONE -> body = emptyBody)
    /\ (nError = CQuorumDataRequest.NONE ->
        (is_Some (body_vvec body) <-> wantsVvec = true)
        /\ (is_Some (body_contributions body) <-> wantsContributions = true))
    /\ (llmqs !! t = None -> nError = CQuorumDataRequest.QUORUM_TYPE_INVALID)
    /\ (is_Some (llmqs !! t) ->
        match LookupBlockIndex (mapBlockIndex st) (CQuorumDataRequest.quorumHash request) with
        | None => nError = CQuorumDataRequest.QUORUM_BLOCK_NOT_FOUND
        | Some pQuorumIndex =>
            HasMinedCommitment (minedCommitments st) t (GetBlockHash pQuorumIndex) = false ->
            nError = CQuorumDataRequest.QUORUM_NOT_FOUND
        end).
Proof.
  intros Hv t wantsVvec wantsContributions.
  unfold QGETDATA_serve. fold t.
  destruct (llmqs !! t) as [p|] eqn:Ep.
  2:{ eexists _, _, _. split; [reflexivity|].
      cbn [vSendMsg sendQDATA set_vSendMsg quorums].
      split; [reflexivity|]. split; [reflexivity|]. split; [reflexivity|].
      split; [discriminate|]. split; [reflexivity|]. intros [? ?]. discriminate. }
  destruct (LookupBlockIndex (mapBlockIndex st) (CQuorumDataRequest.quorumHash request))
    as [idx|] eqn:El.
  2:{ eexists _, _, _. split; [reflexivity|].
      cbn [vSendMsg sendQDATA set_vSendMsg quorums].
      split; [reflexivity|]. split; [reflexivity|]. split; [reflexivity|].
      split; [discriminate|]. split; [discriminate|]. reflexivity. }
  destruct (GetQuorum_valid t idx st p Ep Hv)
    as (r & st2 & Hg & Ho & Hpre & _ & Hnone & Hsome & _).
  pose proof Ho as (_&_&_&_&_&Hsend&_).
  rewrite Hg. cbn [bind fst snd].
  destruct r as [a|].
  2:{ eexists _, _, _. split; [reflexivity|].
      cbn [vSendMsg sendQDATA set_vSendMsg quorums]. rewrite Hsend.
      split; [reflexivity|]. split; [exact Hpre|]. split; [reflexivity|].
      split; [discriminate|]. split; [discriminate|]. reflexivity. }
  assert (Hmined : HasMinedCommitment (minedCommitments st) t (GetBlockHash idx) = true).
  { destruct (HasMinedCommitment (minedCommitments st) t (GetBlockHash idx)) eqn:E;
      [reflexivity|]. pose proof (proj2 Hnone eq_refl). discriminate. }
  destruct (Hsome a eq_refl) as [q Hq]. rewrite Hq.
  fold wantsVvec. fold wantsContributions.
  assert (Hfin : forall e b,
    (e <> CQuorumDataRequest.NONE -> b = emptyBody) ->
    (e = CQuorumDataRequest.NONE ->
        (is_Some (body_vvec b) <-> wantsVvec = true)
        /\ (is_Some (body_contributions b) <-> wantsContributions = true)) ->
    exists st' nError body,
      Ok (sendQDATA pFrom request e b st2) = Ok st'
      /\ vSendMsg st'
         = vSendMsg st
           ++ [QDATA (CNode.id pFrom) (CQuorumDataRequest.SetError request nError) body]
      /\ quorums st `prefix_of` quorums st'
      /\ (nError <> CQuorumDataRequest.NONE -> body = emptyBody)
      /\ (nError = CQuorumDataRequest.NONE ->
          (is_Some (body_vvec body) <-> wantsVvec = true)
          /\ (is_Some (body_contributions body) <-> wantsContributions = true))
      /\ (Some p = None -> nError = CQuorumDataRequest.QUORUM_TYPE_INVALID)
      /\ (is_Some (Some p) ->
          HasMinedCommitment (minedCommitments st) t (GetBlockHash idx) = false ->
          nError = CQuorumDataRequest.QUORUM_NOT_FOUND)).
  { intros e b He1 He2. exists (sendQDATA pFrom request e b st2), e, b.
    split; [reflexivity|].
    cbn [vSendMsg sendQDATA set_vSendMsg quorums]. rewrite Hsend.
    split; [reflexivity|]. split; [exact Hpre|]. split; [exact He1|].
    split; [exact He2|]. split; [discriminate|]. intros _ Hn. congruence. }
  destruct wantsVvec eqn:Ewv; cbn [andb].
  - destruct (quorumVvec q) as [vvec|] eqn:Eqv; unfold HasVerificationVector; rewrite Eqv;
      cbn [negb]; [|apply Hfin; [reflexivity|discriminate]].
    destruct wantsContributions eqn:Ewc.
    + destruct (GetMemberIndex q (CQuorumDataRequest.proTxHash request) =? -1);
        [apply Hfin; [reflexivity|discriminate]|].
      destruct (GetEncryptedContributions _ _ _ _) as [enc|];
        [|apply Hfin; [reflexivity|discriminate]].
      apply Hfin; [congruence|]. intros _. cbn. split; split; intros H;
        first [reflexivity|eexists; reflexivity|destruct H; discriminate|discriminate].
    + apply Hfin; [congruence|]. intros _. cbn. split; split; intros H;
        first [reflexivity|eexists; reflexivity|destruct H; discriminate|discriminate].
  - destruct wantsContributions eqn:Ewc.
    + destruct (GetMemberIndex q (CQuorumDataRequest.proTxHash request) =? -1);
        [apply Hfin; [reflexivity|discriminate]|].
      destruct (GetEncryptedContributions _ _ _ _) as [enc|];
        [|apply Hfin; [reflexivity|discriminate]].
      apply Hfin; [congruence|]. intros _. cbn. split; split; intros H;
        first [reflexivity|eexists; reflexivity|destruct H; discriminate|discriminate].
    + apply Hfin; [congruence|]. intros _. cbn. split; split; intros H;
        first [reflexivity|eexists; reflexivity|destruct H; discriminate|discriminate].
Qed.

(** What [QGETDATA_limit] leaves alone. *)
Lemma QGETDATA_limit_frame (now : Z) (pFrom : CNode.t) (request : CQuorumDataRequest.t)
    (st : NodeState) :
  let st0 := QGETDATA_limit now pFrom request st in
  quorums st0 = quorums st /\ vSendMsg st0 = vSendMsg st
  /\ mapQuorumsCache st0 = mapQuorumsCache st
  /\ mapBlockIndex st0 = mapBlockIndex st
  /\ minedCommitments st0 = minedCommitments st.
Proof.
  unfold QGETDATA_limit.
  destruct (mapQuorumDataRequests st !! (CNode.verifiedProRegTxHash pFrom, false))
    as [stored|]; [|simpl; tauto].
  destruct (IsExpired now stored); [simpl; tauto|].
  unfold errorHandler. simpl. tauto.
Qed.


(** C8: the QGETDATA handler serves a duplicate request. A QGETDATA that
    arrives from a peer while an unexpired request of that peer is on record
    is scored 25 ("Request limit exceeded") and is not recorded, and then it
    is answered like any other request: one QDATA goes back to the peer,
    which echoes the request and, when its error code is NONE, carries the
    data asked for. *)
Theorem duplicate_QGETDATA_is_served (now : Z) (pFrom : CNode.t) (vRecv : CDataStream)
    (request stored : CQuorumDataRequest.t) (st : NodeState) :
  quorum_pointers_valid st ->
  serves_QGETDATA st pFrom = true ->
  ds_request vRecv = Some request ->
  mapQuorumDataRequests st !! (CNode.verifiedProRegTxHash pFrom, false) = Some stored ->
  IsExpired now stored = false ->
  exists st' nError body,
    ProcessMessage_QGETDATA now pFrom vRecv st = Ok st'
    /\ misbehaving st' = misbehaving st ++ [(CNode.id pFrom, 25)]
    /\ errorLog st' = errorLog st ++ ["Request limit exceeded"%string]
    /\ mapQuorumDataRequests st' = mapQuorumDataRequests st
    /\ vSendMsg st'
       = vSendMsg st
         ++ [QDATA (CNode.id pFrom) (CQuorumDataRequest.SetError request nError) body]
    /\ (nError = CQuorumDataRequest.NONE ->
        (is_Some (body_vvec body)
         <-> CQuorumDataRequest.wants request
               CQuorumDataRequest.QUORUM_VERIFICATION_VECTOR = true)
        /\ (is_Some (body_contributions body)
            <-> CQuorumDataRequest.wants request
                  CQuorumDataRequest.ENCRYPTED_CONTRIBUTIONS = true)).
Proof.
  intros Hv Hgate Hreq Hst Hexp.
  pose proof (QGETDATA_serve_frame pFrom request (QGETDATA_limit now pFrom request st))
    as Hframe. cbv zeta in Hframe.
  unfold ProcessMessage_QGETDATA. unfold serves_QGETDATA in Hgate.
  apply negb_true_iff in Hgate. rewrite Hgate, Hreq.
  destruct (QGETDATA_limit_frame now pFrom request st) as (Hq0 & Hs0 & Hc0 & Hi0 & Hm0).
  assert (Hlimit : QGETDATA_limit now pFrom request st
                   = errorHandler pFrom "Request limit exceeded" 25 st).
  { unfold QGETDATA_limit. rewrite Hst, Hexp. reflexivity. }
  set (st0 := QGETDATA_limit now pFrom request st) in *.
  assert (Hv0 : quorum_pointers_valid st0).
  { intros t' h a. rewrite Hc0, Hq0. apply Hv. }
  destruct (QGETDATA_serve_spec pFrom request st0 Hv0)
    as (st' & nError & body & Hserve & Hsend & _ & _ & Hb & _).
  rewrite Hserve in Hframe. cbn [final_state] in Hframe.
  destruct Hframe as (Hr & Hmis & Hlog).
  pose proof (errorHandler_fields pFrom "Request limit exceeded" 25 st)
    as (_&_&_&Hr0&_&_&_&Hl0&Hm0').
  cbv zeta in Hr0, Hl0, Hm0'. rewrite <- Hlimit in Hr0, Hl0, Hm0'.
  change (0 <? 25) with true in Hm0'. cbv iota in Hm0'.
  exists st', nError, body. split; [exact Hserve|].
  split; [congruence|]. split; [congruence|]. split; [congruence|].
  split; [rewrite Hsend, Hs0; reflexivity|exact Hb].
Qed.

End ServeProperties.


Lemma example_pointers_valid_busy : quorum_pointers_valid Example.stBusy.
Proof.
  intros t h a H. unfold cache_at in H. cbn [mapQuorumsCache Example.stBusy] in H.
  destruct (decide (t = 1)) as [->|Hne].
  - rewrite lookup_singleton_eq in H. discriminate.
  - rewrite lookup_singleton_ne in H by congruence. discriminate.
Qed.

(** C8 at the example: the node has the request of masternode 12 on record
    since time 1000, and the timeout is 300. The same QGETDATA arriving at
    time 1010 is scored 25 and not recorded, and it is answered with a QDATA
    of error NONE that carries the verification vector. *)
Lemma duplicate_QGETDATA_is_served_witness :
  exists st',
    ProcessMessage_QGETDATA (ext := Example.ext) 1010 Example.peer12 Example.streamVvec
                            Example.stBusy = Ok st'
    /\ misbehaving st' = [(7, 25)]
    /\ mapQuorumDataRequests st' = mapQuorumDataRequests Example.stBusy
    /\ vSendMsg st'
       = [QDATA 7 (CQuorumDataRequest.SetError Example.requestVvec CQuorumDataRequest.NONE)
            (mkBody (Some Example.vvecA) None)].
Proof.
  destruct (duplicate_QGETDATA_is_served (ext := Example.ext) 1010 Example.peer12
              Example.streamVvec Example.requestVvec Example.requestVvec Example.stBusy
              example_pointers_valid_busy eq_refl eq_refl eq_refl eq_refl)
    as (st' & nError & body & He & Hmis & _ & Hreq & _).
  exists st'. split; [exact He|]. split; [exact Hmis|]. split; [exact Hreq|].
  assert (Hc : vSendMsg (final_state (ProcessMessage_QGETDATA (ext := Example.ext) 1010
                                         Example.peer12 Example.streamVvec
                                         Example.stBusy))
               = [QDATA 7 (CQuorumDataRequest.SetError Example.requestVvec
                             CQuorumDataRequest.NONE)
                    (mkBody (Some Example.vvecA) None)]) by (vm_compute; reflexivity).
  rewrite He in Hc. exact Hc.
Defined.


(** ** Applying a response *)

Section ApplyProperties.
Context {ext : Externals}.

Lemma ProcessMessage_QDATA_applicable (st : NodeState) (pFrom : CNode.t)
    (vRecv : CDataStream) (request : CQuorumDataRequest.t) (a : nat) (q : CQuorum) :
  applicable_QDATA st pFrom vRecv request a q ->
  exists st2,
    ProcessMessage_QDATA pFrom vRecv st = QDATA_vvec pFrom request vRecv a st2
    /\ quorums st2 = quorums st /\ evoDb st2 = evoDb st /\ self st2 = self st
    /\ workerPool st2 = workerPool st /\ misbehaving st2 = misbehaving st
    /\ errorLog st2 = errorLog st /\ vSendMsg st2 = vSendMsg st.
Proof.
  intros (Hgate & Hreq & (stored & Hst & Hp & Heq) & Herr & Hfind & Hq).
  unfold ProcessMessage_QDATA. unfold accepts_QDATA in Hgate.
  apply negb_true_iff in Hgate. rewrite Hgate, Hreq, Hst, Hp, Heq, Herr.
  cbn [negb CQuorumDataRequest.Errors_eqb mapQuorumsCache set_mapQuorumDataRequests].
  unfold cache_get. rewrite Hfind.
  eexists. split; [reflexivity|]. simpl. tauto.
Qed.

Lemma wants_mask (request : CQuorumDataRequest.t) (m : Z) :
  CQuorumDataRequest.nDataMask request = m ->
  CQuorumDataRequest.wants request CQuorumDataRequest.QUORUM_VERIFICATION_VECTOR
  = negb (Z.land m 1 =? 0)
  /\ CQuorumDataRequest.wants request CQuorumDataRequest.ENCRYPTED_CONTRIBUTIONS
     = negb (Z.land m 2 =? 0).
Proof. intros <-. split; reflexivity. Qed.

(** X14: a response to a request for the verification vector alone. When the
    vector hashes to the hash of the commitment, the quorum gets the vector,
    the vector is persisted, the quorum is queued for the cache populator
    and the peer is not scored. Otherwise nothing changes but the score of
    the peer, which goes up by 10, and the error log. *)
Theorem QDATA_applies_vector (st : NodeState) (pFrom : CNode.t) (vRecv : CDataStream)
    (request : CQuorumDataRequest.t) (a : nat) (q : CQuorum)
    (verificationVector : list CBLSPublicKey) :
  applicable_QDATA st pFrom vRecv request a q ->
  CQuorumDataRequest.nDataMask request = CQuorumDataRequest.QUORUM_VERIFICATION_VECTOR ->
  ds_vvec vRecv = Some verificationVector ->
  exists st',
    ProcessMessage_QDATA pFrom vRecv st = Ok st'
    /\ if SerializeHash verificationVector =? quorumVvecHash (qc q)
       then
         let q' := set_quorumVvec (Some verificationVector) q in
         quorums st' = <[a := q']> (quorums st)
         /\ evoDb st' = WriteContributions q' (evoDb st)
         /\ evoDb st' !! (DB_QUORUM_QUORUM_VVEC, MakeQuorumKey q)
            = Some (DbVvec verificationVector)
         /\ workerPool st' = workerPool st ++ [a]
         /\ misbehaving st' = misbehaving st
       else
         quorums st' = quorums st
         /\ evoDb st' = evoDb st
         /\ workerPool st' = workerPool st
         /\ misbehaving st' = misbehaving st ++ [(CNode.id pFrom, 10)]
         /\ errorLog st'
            = errorLog st ++ ["Invalid quorum verification vector"%string].
Proof.
  intros Happ Hmask Hvv.
  destruct (ProcessMessage_QDATA_applicable _ _ _ _ _ _ Happ)
    as (st2 & -> & Hq2 & Hdb2 & Hself2 & Hw2 & Hm2 & Hl2 & _).
  destruct Happ as (_ & _ & _ & _ & _ & Hq).
  destruct (wants_mask request _ Hmask) as [Hw1 Hw0].
  unfold QDATA_vvec. rewrite Hw1, Hvv, Hq2, Hq. cbn [Z.land Z.eqb negb Pos.land].
  unfold SetVerificationVector.
  destruct (SerializeHash verificationVector =? quorumVvecHash (qc q)); cbn [negb].
  - set (q' := set_quorumVvec (Some verificationVector) q).
    pose proof (lookup_lt_Some _ _ _ Hq) as Hlt.
    unfold StartCachePopulatorThread.
    cbn [quorums set_quorums]. rewrite (list_lookup_insert_eq _ _ q' Hlt).
    cbn [HasVerificationVector q' quorumVvec set_quorumVvec negb].
    unfold QDATA_contributions. rewrite Hw0. cbn [Z.land Z.eqb negb Pos.land].
    unfold QDATA_write. cbn [quorums set_quorums set_workerPool].
    rewrite (list_lookup_insert_eq _ _ q' Hlt).
    eexists. split; [reflexivity|]. cbv zeta.
    cbn [quorums evoDb workerPool misbehaving set_evoDb set_workerPool set_quorums].
    rewrite Hdb2, Hw2, Hm2. fold q'.
    split; [reflexivity|]. split; [reflexivity|].
    split; [|split; reflexivity].
    change (MakeQuorumKey q) with (MakeQuorumKey q').
    unfold WriteContributions. cbv zeta. cbn [quorumVvec q' set_quorumVvec].
    destruct (sk_fValid _); [rewrite lookup_insert_ne by (intros H; discriminate)|];
      apply lookup_insert_eq.
  - eexists. split; [reflexivity|].
    destruct (errorHandler_fields pFrom "Invalid quorum verification vector" 10 st2)
      as ((Hqs & Hdb) & _ & _ & _ & _ & Hw & _ & Hl & Hm).
    cbn [Z.ltb Z.compare] in Hm.
    rewrite Hqs, Hdb, Hw, Hl, Hm, Hq2, Hdb2, Hw2, Hl2, Hm2. tauto.
Qed.


(** X15: a response to a request for both kinds of data is not applied as a
    whole: when the vector is accepted and the contributions then fail to
    decrypt, the quorum keeps the vector in memory, nothing is persisted and
    the peer is scored. *)
Theorem QDATA_vector_kept_not_persisted (st : NodeState) (pFrom : CNode.t)
    (vRecv : CDataStream) (request : CQuorumDataRequest.t) (a : nat) (q : CQuorum)
    (verificationVector : list CBLSPublicKey) (vecEncrypted : list CBLSIESEncryptedObject)
    (secret : CBLSSecretKey) :
  applicable_QDATA st pFrom vRecv request a q ->
  CQuorumDataRequest.nDataMask request
  = Z.lor CQuorumDataRequest.QUORUM_VERIFICATION_VECTOR
          CQuorumDataRequest.ENCRYPTED_CONTRIBUTIONS ->
  ds_vvec vRecv = Some verificationVector ->
  SerializeHash verificationVector = quorumVvecHash (qc q) ->
  Z.of_nat (length verificationVector) = to_size_t (llmq_threshold (params q)) ->
  GetMemberIndex q (CQuorumDataRequest.proTxHash request) <> -1 ->
  ds_contributions vRecv = Some vecEncrypted ->
  blsKeyOperator (self st) = Some secret ->
  decrypt_all (GetMemberIndex q (CQuorumDataRequest.proTxHash request)) secret vecEncrypted
  = None ->
  exists st',
    ProcessMessage_QDATA pFrom vRecv st = Ok st'
    /\ quorums st' = <[a := set_quorumVvec (Some verificationVector) q]> (quorums st)
    /\ evoDb st' = evoDb st
    /\ workerPool st' = workerPool st ++ [a]
    /\ misbehaving st' = misbehaving st ++ [(CNode.id pFrom, 10)]
    /\ errorLog st' = errorLog st ++ ["Failed to decrypt"%string].
Proof.
  intros Happ Hmask Hvv Hhash Hlen Hmem Henc Hkey Hdec.
  destruct (ProcessMessage_QDATA_applicable _ _ _ _ _ _ Happ)
    as (st2 & -> & Hq2 & Hdb2 & Hself2 & Hw2 & Hm2 & Hl2 & _).
  destruct Happ as (_ & _ & _ & _ & _ & Hq).
  destruct (wants_mask request _ Hmask) as [Hw1 Hw0].
  unfold QDATA_vvec. rewrite Hw1, Hvv, Hq2, Hq.
  cbn [Z.lor Z.land Z.eqb negb Pos.land Pos.lor CQuorumDataRequest.QUORUM_VERIFICATION_VECTOR
       CQuorumDataRequest.ENCRYPTED_CONTRIBUTIONS].
  unfold SetVerificationVector. rewrite Hhash, Z.eqb_refl. cbn [negb].
  set (q' := set_quorumVvec (Some verificationVector) q).
  pose proof (lookup_lt_Some _ _ _ Hq) as Hlt.
  unfold StartCachePopulatorThread.
  cbn [quorums set_quorums]. rewrite (list_lookup_insert_eq _ _ q' Hlt).
  cbn [HasVerificationVector q' quorumVvec set_quorumVvec negb].
  unfold QDATA_contributions. rewrite Hw0.
  cbn [Z.lor Z.land Z.eqb negb Pos.land Pos.lor CQuorumDataRequest.QUORUM_VERIFICATION_VECTOR
       CQuorumDataRequest.ENCRYPTED_CONTRIBUTIONS].
  cbn [quorums set_quorums set_workerPool self].
  rewrite (list_lookup_insert_eq _ _ q' Hlt).
  subst q'. cbn [quorumVvec set_quorumVvec params].
  change (GetMemberIndex (set_quorumVvec (Some verificationVector) q)
                         (CQuorumDataRequest.proTxHash request))
    with (GetMemberIndex q (CQuorumDataRequest.proTxHash request)).
  rewrite Hlen, Z.eqb_refl. cbn [negb].
  apply Z.eqb_neq in Hmem. rewrite Hmem, Henc, Hself2, Hkey, Hdec.
  eexists. split; [reflexivity|].
  match goal with
  | |- context [errorHandler pFrom ?e 10 ?s] =>
      destruct (errorHandler_fields pFrom e 10 s)
        as ((Hqs & Hdb) & _ & _ & _ & _ & Hw & _ & Hl & Hm)
  end.
  cbn [Z.ltb Z.compare] in Hm.
  rewrite Hqs, Hdb, Hw, Hl, Hm.
  cbn [quorums evoDb workerPool misbehaving errorLog set_workerPool set_quorums].
  rewrite Hdb2, Hw2, Hl2, Hm2. tauto.
Qed.

(** X16: a response to a request for the encrypted contributions alone, on a
    quorum that has its verification vector: when every contribution
    decrypts and the aggregated key share is accepted, the quorum gets the
    share and both vector and share are persisted. *)
Theorem QDATA_applies_contributions (st : NodeState) (pFrom : CNode.t)
    (vRecv : CDataStream) (request : CQuorumDataRequest.t) (a : nat) (q q' : CQuorum)
    (vvec : list CBLSPublicKey) (vecEncrypted : list CBLSIESEncryptedObject)
    (secret : CBLSSecretKey) (vecSecretKeys : list CBLSSecretKey) :
  applicable_QDATA st pFrom vRecv request a q ->
  CQuorumDataRequest.nDataMask request = CQuorumDataRequest.ENCRYPTED_CONTRIBUTIONS ->
  quorumVvec q = Some vvec ->
  Z.of_nat (length vvec) = to_size_t (llmq_threshold (params q)) ->
  GetMemberIndex q (CQuorumDataRequest.proTxHash request) <> -1 ->
  ds_contributions vRecv = Some vecEncrypted ->
  blsKeyOperator (self st) = Some secret ->
  decrypt_all (GetMemberIndex q (CQuorumDataRequest.proTxHash request)) secret vecEncrypted
  = Some vecSecretKeys ->
  SetSecretKeyShare (self st) q (AggregateSecretKeys vecSecretKeys) = (true, q') ->
  exists st',
    ProcessMessage_QDATA pFrom vRecv st = Ok st'
    /\ q' = set_skShare (AggregateSecretKeys vecSecretKeys) q
    /\ quorums st' = <[a := q']> (quorums st)
    /\ evoDb st' = WriteContributions q' (evoDb st)
    /\ evoDb st' !! (DB_QUORUM_QUORUM_VVEC, MakeQuorumKey q) = Some (DbVvec vvec)
    /\ evoDb st' !! (DB_QUORUM_SK_SHARE, MakeQuorumKey q)
       = Some (DbSkShare (AggregateSecretKeys vecSecretKeys))
    /\ misbehaving st' = misbehaving st.
Proof.
  intros Happ Hmask Hv Hlen Hmem Henc Hkey Hdec Hset.
  destruct (ProcessMessage_QDATA_applicable _ _ _ _ _ _ Happ)
    as (st2 & -> & Hq2 & Hdb2 & Hself2 & Hw2 & Hm2 & Hl2 & _).
  destruct Happ as (_ & _ & _ & _ & _ & Hq).
  assert (Hw1 : CQuorumDataRequest.wants request
                  CQuorumDataRequest.QUORUM_VERIFICATION_VECTOR = false)
    by (unfold CQuorumDataRequest.wants; rewrite Hmask; reflexivity).
  assert (Hw0 : CQuorumDataRequest.wants request
                  CQuorumDataRequest.ENCRYPTED_CONTRIBUTIONS = true)
    by (unfold CQuorumDataRequest.wants; rewrite Hmask; reflexivity).
  unfold QDATA_vvec. rewrite Hw1.
  unfold QDATA_contributions. rewrite Hw0.
  rewrite Hq2, Hq, Hv, Hlen, Z.eqb_refl. cbn [negb].
  apply Z.eqb_neq in Hmem. rewrite Hmem, Henc, Hself2, Hkey, Hdec, Hset.
  pose proof (lookup_lt_Some _ _ _ Hq) as Hlt.
  unfold QDATA_write. cbn [quorums set_quorums].
  rewrite (list_lookup_insert_eq _ _ q' Hlt).
  assert (Hq' : q' = set_skShare (AggregateSecretKeys vecSecretKeys) q
                /\ sk_fValid (AggregateSecretKeys vecSecretKeys) = true).
  { revert Hset. unfold SetSecretKeyShare.
    destruct (sk_fValid (AggregateSecretKeys vecSecretKeys)); cbn [negb orb];
      [|intros H; discriminate H].
    destruct (CBLSPublicKey_eqb _ _); cbn [negb]; [|intros H; discriminate H].
    intros H. injection H as <-. auto. }
  destruct Hq' as [Hq' Hvalid].
  eexists. split; [reflexivity|]. split; [exact Hq'|].
  cbn [quorums evoDb misbehaving set_evoDb set_quorums]. rewrite Hdb2, Hm2.
  split; [reflexivity|]. split; [reflexivity|].
  destruct (WriteContributions_lookup q' (evoDb st)) as [H1 H2]. cbv zeta in H1, H2.
  assert (Hk : MakeQuorumKey q' = MakeQuorumKey q) by (rewrite Hq'; reflexivity).
  rewrite Hk in H1, H2. rewrite H1, H2, Hq'.
  cbn [quorumVvec skShare set_skShare]. rewrite Hv, Hvalid. auto.
Qed.

End ApplyProperties.

Lemma example_applicable_vvec :
  applicable_QDATA (Example.stAsking Example.quorumA Example.requestVvecOut)
    Example.peer12 Example.responseVvec
    (CQuorumDataRequest.SetError Example.requestVvecOut CQuorumDataRequest.NONE)
    0 Example.quorumA.
Proof.
  unfold applicable_QDATA. split; [reflexivity|]. split; [reflexivity|].
  split; [exists Example.requestVvecOut; split; [reflexivity|split; reflexivity]|].
  split; [reflexivity|]. split; reflexivity.
Qed.

(** X14 at the example: the node holds [quorumA] without its vector and has
    asked masternode 12 for it; the answer carries [vvecA], which hashes to
    the hash recorded in [qcA]: the quorum gets the vector and the vector is
    persisted. *)
Lemma QDATA_applies_vector_witness :
  exists st',
    ProcessMessage_QDATA (ext := Example.ext) Example.peer12 Example.responseVvec
      (Example.stAsking Example.quorumA Example.requestVvecOut) = Ok st'
    /\ quorums st' = [Example.quorumAVvec]
    /\ evoDb st' !! (DB_QUORUM_QUORUM_VVEC, 101001) = Some (DbVvec Example.vvecA)
    /\ workerPool st' = [0%nat]
    /\ misbehaving st' = [].
Proof.
  destruct (QDATA_applies_vector (ext := Example.ext) _ _ _ _ _ _ Example.vvecA
              example_applicable_vvec eq_refl eq_refl)
    as (st' & H1 & H2).
  exists st'. split; [exact H1|].
  change (SerializeHash (Externals := Example.ext) Example.vvecA
          =? quorumVvecHash (qc Example.quorumA)) with true in H2.
  cbv zeta in H2. destruct H2 as (Hq & _ & Hdb & Hw & Hm).
  split; [exact Hq|]. split; [exact Hdb|]. split; [exact Hw|exact Hm].
Defined.

Lemma example_applicable_both :
  applicable_QDATA (Example.stAsking Example.quorumA Example.requestBothOut)
    Example.peer12 Example.responseBoth
    (CQuorumDataRequest.SetError Example.requestBothOut CQuorumDataRequest.NONE)
    0 Example.quorumA.
Proof.
  unfold applicable_QDATA. split; [reflexivity|]. split; [reflexivity|].
  split; [exists Example.requestBothOut; split; [reflexivity|split; reflexivity]|].
  split; [reflexivity|]. split; reflexivity.
Qed.

(** X15 at the example: the node has asked for both kinds of data; the
    answer carries the right vector and a contribution that does not decrypt.
    The quorum has the vector, the database is still empty, and the peer is
    scored. *)
Lemma QDATA_vector_kept_not_persisted_witness :
  exists st',
    ProcessMessage_QDATA (ext := Example.ext) Example.peer12 Example.responseBoth
      (Example.stAsking Example.quorumA Example.requestBothOut) = Ok st'
    /\ quorums st' = [Example.quorumAVvec]
    /\ evoDb st' = ∅
    /\ misbehaving st' = [(7, 10)]
    /\ errorLog st' = ["Failed to decrypt"%string].
Proof.
  destruct (QDATA_vector_kept_not_persisted (ext := Example.ext) _ _ _ _ _ _
              Example.vvecA [mkEncrypted 1] (mkSecretKey true 42)
              example_applicable_both eq_refl eq_refl eq_refl eq_refl)
    as (st' & H1 & Hq & Hdb & _ & Hm & Hl);
    [vm_compute; discriminate|reflexivity|reflexivity|reflexivity|].
  exists st'. split; [exact H1|]. split; [exact Hq|]. split; [exact Hdb|].
  split; [exact Hm|exact Hl].
Defined.

Lemma example_applicable_shares :
  applicable_QDATA (Example.stAsking Example.quorumAVvec Example.requestOut)
    Example.peer12 Example.responseShares
    (CQuorumDataRequest.SetError Example.requestOut CQuorumDataRequest.NONE)
    0 Example.quorumAVvec.
Proof.
  unfold applicable_QDATA. split; [reflexivity|]. split; [reflexivity|].
  split; [exists Example.requestOut; split; [reflexivity|split; reflexivity]|].
  split; [reflexivity|]. split; reflexivity.
Qed.

(** X16 at the example, with a BLS layer in which contributions decrypt: the
    node holds the quorum with its vector and has asked for the
    contributions; the two contributions of the answer aggregate to the key
    share of member 11, which is installed and persisted with the vector. *)
Lemma QDATA_applies_contributions_witness :
  exists st',
    ProcessMessage_QDATA (ext := Example.extKeys) Example.peer12 Example.responseShares
      (Example.stAsking Example.quorumAVvec Example.requestOut) = Ok st'
    /\ quorums st' = [set_skShare Example.shareA Example.quorumAVvec]
    /\ evoDb st' !! (DB_QUORUM_QUORUM_VVEC, 101001) = Some (DbVvec Example.vvecA)
    /\ evoDb st' !! (DB_QUORUM_SK_SHARE, 101001) = Some (DbSkShare Example.shareA)
    /\ misbehaving st' = [].
Proof.
  destruct (QDATA_applies_contributions (ext := Example.extKeys) _ _ _ _ _ _
              (set_skShare Example.shareA Example.quorumAVvec)
              Example.vvecA [mkEncrypted 5; mkEncrypted 6] (mkSecretKey true 42)
              [mkSecretKey true 5; mkSecretKey true 6]
              example_applicable_shares eq_refl eq_refl eq_refl)
    as (st' & H1 & _ & Hq & _ & Hv & Hs & Hm);
    [vm_compute; discriminate|reflexivity|reflexivity|reflexivity|reflexivity|].
  exists st'. split; [exact H1|]. split; [exact Hq|]. split; [exact Hv|].
  split; [exact Hs|exact Hm].
Defined.

(** ** Looking a quorum up again *)

Section LookupProperties.
Context {ext : Externals}.

Lemma cache_insert_hit {V : Type} (k : uint256) (v : V) (c : unordered_lru_cache V) :
  (0 < maxSize c)%nat -> cache_find k (cacheMap (cache_insert k v c)) = Some v.
Proof.
  intros Hpos. unfold cache_insert. cbn [cacheMap].
  destruct (maxSize c) as [|n]; [lia|]. cbn [take].
  rewrite cache_find_cons, Z.eqb_refl. reflexivity.
Qed.

Lemma cache_get_hit {V : Type} (k : uint256) (v : V) (c : unordered_lru_cache V) :
  cache_find k (cacheMap c) = Some v ->
  fst (cache_get k c) = Some v
  /\ cache_find k (cacheMap (snd (cache_get k c))) = Some v.
Proof.
  intros H. rewrite cache_get_fst, cache_get_find. auto.
Qed.

(** X17: with room in the quorum cache, a quorum that [GetQuorum] has returned
    is returned again by the next call, from the cache: the same object, and
    nothing is built or written. *)
Theorem GetQuorum_again_is_a_cache_hit (t : LLMQType) (pindexQuorum_ : CBlockIndex)
    (st : NodeState) (p : LLMQParams) :
  llmqs !! t = Some p ->
  HasMinedCommitment (minedCommitments st) t (GetBlockHash pindexQuorum_) = true ->
  (0 < maxSize (cache_at (mapQuorumsCache st) t))%nat ->
  exists a st1 st2,
    GetQuorum t pindexQuorum_ st = Ok (Some a, st1)
    /\ GetQuorum t pindexQuorum_ st1 = Ok (Some a, st2)
    /\ quorums st2 = quorums st1
    /\ evoDb st2 = evoDb st1
    /\ workerPool st2 = workerPool st1.
Proof.
  intros Hp Hmined Hroom.
  assert (Hhit : forall s a,
            minedCommitments s = minedCommitments st ->
            cache_find (GetBlockHash pindexQuorum_)
                       (cacheMap (cache_at (mapQuorumsCache s) t)) = Some a ->
            exists s', GetQuorum t pindexQuorum_ s = Ok (Some a, s')
                       /\ quorums s' = quorums s /\ evoDb s' = evoDb s
                       /\ workerPool s' = workerPool s
                       /\ minedCommitments s' = minedCommitments s
                       /\ cache_find (GetBlockHash pindexQuorum_)
                            (cacheMap (cache_at (mapQuorumsCache s') t)) = Some a).
  { intros s a Hdb Hf. unfold GetQuorum, HasQuorum. rewrite Hdb, Hmined. cbn [negb].
    destruct (cache_get_hit _ _ _ Hf) as [H1 H2].
    destruct (cache_get (GetBlockHash pindexQuorum_) (cache_at (mapQuorumsCache s) t))
      as [found cache]. cbn [fst snd] in H1, H2. subst found.
    eexists. split; [reflexivity|]. cbn [quorums evoDb workerPool minedCommitments
                                         mapQuorumsCache set_mapQuorumsCache].
    rewrite cache_at_insert. destruct (decide (t = t)); [|contradiction]. auto. }
  destruct (cache_find (GetBlockHash pindexQuorum_)
              (cacheMap (cache_at (mapQuorumsCache st) t))) as [a|] eqn:Ef.
  - destruct (Hhit st a eq_refl Ef) as (st1 & H1 & _ & _ & _ & Hdb1 & Hf1).
    destruct (Hhit st1 a Hdb1 Hf1) as (st2 & H2 & Hq & He & Hw & _).
    exists a, st1, st2. auto.
  - unfold GetQuorum at 1. unfold HasQuorum. rewrite Hmined. cbn [negb].
    pose proof (cache_get_fst (GetBlockHash pindexQuorum_) (cache_at (mapQuorumsCache st) t))
      as Hfst.
    pose proof (cache_get_miss (GetBlockHash pindexQuorum_) (cache_at (mapQuorumsCache st) t))
      as Hmiss.
    destruct (cache_get (GetBlockHash pindexQuorum_) (cache_at (mapQuorumsCache st) t))
      as [found cache]. cbn [fst snd] in Hfst, Hmiss.
    rewrite Ef in Hfst. subst found. specialize (Hmiss eq_refl). subst cache.
    match goal with
    | |- context [BuildQuorumFromCommitment t pindexQuorum_ ?s] => set (st0 := s)
    end.
    destruct (BuildQuorumFromCommitment_spec t pindexQuorum_ st0 p Hp)
      as [[Hnone _]|(e & q & st1 & He & Hb & Hquorums & _ & _ & _ & _ & _ & Hcache & Ho)].
    { apply GetMinedCommitment_Has in Hmined as (e & He).
      subst st0. simpl in Hnone. congruence. }
    rewrite Hb.
    assert (Hf1 : cache_find (GetBlockHash pindexQuorum_)
                    (cacheMap (cache_at (mapQuorumsCache st1) t))
                  = Some (length (quorums st0))).
    { rewrite Hcache, cache_at_insert. destruct (decide (t = t)); [|contradiction].
      apply cache_insert_hit. subst st0. cbn [mapQuorumsCache set_mapQuorumsCache].
      rewrite cache_at_insert. destruct (decide (t = t)); [|contradiction]. exact Hroom. }
    destruct Ho as (_ & Hdb & _).
    destruct (Hhit st1 _ Hdb Hf1) as (st2 & H2 & Hq & He2 & Hw & _).
    eexists _, st1, st2. split; [reflexivity|]. auto.
Qed.

(** X18: for a block of the index with a mined commitment, [GetQuorum] on
    consistent caches returns a quorum object that carries that commitment,
    the hash of the block it was mined in, the block itself as its anchor,
    the parameters of the type and the members that the registry resolves
    for the anchor. The quorum objects there were are kept and the caches
    stay consistent. *)
Theorem GetQuorum_returns_the_mined_quorum (t : LLMQType) (pindexQuorum_ : CBlockIndex)
    (st : NodeState) (p : LLMQParams) :
  llmqs !! t = Some p ->
  caches_consistent st ->
  canonical st pindexQuorum_ ->
  HasMinedCommitment (minedCommitments st) t (GetBlockHash pindexQuorum_) = true ->
  exists a st' q e,
    GetQuorum t pindexQuorum_ st = Ok (Some a, st')
    /\ quorums st' !! a = Some q
    /\ GetMinedCommitment (minedCommitments st) t (GetBlockHash pindexQuorum_) = Some e
    /\ qc q = fst e
    /\ minedBlockHash q = snd e
    /\ llmqType (qc q) = t
    /\ quorumHash (qc q) = GetBlockHash pindexQuorum_
    /\ pindexQuorum q = pindexQuorum_
    /\ params q = p
    /\ members q = GetAllQuorumMembers t pindexQuorum_
    /\ quorums st `prefix_of` quorums st'
    /\ caches_consistent st'.
Proof.
  intros Hp Hinv Hcan Hmined.
  destruct (GetQuorum_consistent t pindexQuorum_ st p Hp Hinv Hcan Hmined)
    as (a & st' & Hg & Hinv' & _ & Hpre & Hid).
  unfold quorumIdentities, minedQuorum in Hid. cbn [List.map] in Hid.
  destruct (proj1 (GetMinedCommitment_Has _ _ _) Hmined) as (e & He).
  rewrite He, Hp in Hid.
  destruct (quorums st' !! a) as [q|] eqn:Hq; [|discriminate].
  assert (Hi : identity_of q
               = mkIdentity p (fst e) pindexQuorum_ (snd e)
                            (GetAllQuorumMembers (llmqType (fst e)) pindexQuorum_))
    by congruence.
  unfold identity_of in Hi. injection Hi as H1 H2 H3 H4 H5.
  destruct (GetMinedCommitment_Some _ _ _ _ He) as (Ht & Hh & _).
  exists a, st', q, e. rewrite H2, H4, H3, H1, H5, Ht. auto 15.
Qed.

End LookupProperties.

(** X17 at the example: the quorum cache of type 1 has room for two
    quorums; the quorum of anchor [b1] is built by the first call and
    returned from the cache by the second. *)
Lemma GetQuorum_again_is_a_cache_hit_witness :
  exists a st1 st2,
    GetQuorum (ext := Example.ext) 1 Example.b1 Example.stFresh = Ok (Some a, st1)
    /\ GetQuorum (ext := Example.ext) 1 Example.b1 st1 = Ok (Some a, st2)
    /\ quorums st2 = quorums st1.
Proof.
  destruct (GetQuorum_again_is_a_cache_hit (ext := Example.ext) 1 Example.b1
              Example.stFresh Example.params1 eq_refl eq_refl)
    as (a & st1 & st2 & H1 & H2 & Hq & _).
  - vm_compute. lia.
  - exists a, st1, st2. split; [exact H1|]. split; [exact H2|exact Hq].
Defined.

(** X18 at the example: the quorum of anchor [b1] is the quorum of [qcA],
    mined in the block of hash 102. *)
Lemma GetQuorum_returns_the_mined_quorum_witness :
  exists a st' q,
    GetQuorum (ext := Example.ext) 1 Example.b1 Example.stTwo = Ok (Some a, st')
    /\ quorums st' !! a = Some q
    /\ qc q = Example.qcA
    /\ minedBlockHash q = 102
    /\ pindexQuorum q = Example.b1.
Proof.
  destruct (GetQuorum_returns_the_mined_quorum (ext := Example.ext) 1 Example.b1
              Example.stTwo Example.params1 eq_refl example_caches_consistent
              eq_refl eq_refl)
    as (a & st' & q & e & H1 & Hq & He & Hqc & Hmb & _ & _ & Hp & _).
  exists a, st', q. split; [exact H1|]. split; [exact Hq|].
  assert (He' : GetMinedCommitment (minedCommitments Example.stTwo) 1
                  (GetBlockHash Example.b1) = Some (Example.qcA, 102)) by reflexivity.
  rewrite He' in He. injection He as <-.
  split; [exact Hqc|]. split; [exact Hmb|exact Hp].
Defined.

(** ** More on scanning *)

Section MoreScanProperties.
Context {ext : Externals}.

(** X19: [ScanQuorums] returns as many quorums as were asked for, or all there
    are; each is a quorum of the requested type, built from the commitment
    mined for its anchor block. *)
Theorem ScanQuorums_count (t : LLMQType) (p : LLMQParams) (start : CBlockIndex)
    (nCountRequested : nat) (st : NodeState) :
  llmqs !! t = Some p ->
  caches_consistent st ->
  canonical st start ->
  exists r st',
    ScanQuorums t (Some start) nCountRequested st = Ok (r, st')
    /\ length r
       = Nat.min nCountRequested (length (minedAnchors (minedCommitments st) t start))
    /\ Forall (fun a => exists q e,
                 quorums st' !! a = Some q
                 /\ In (pindexQuorum q) (minedAnchors (minedCommitments st) t start)
                 /\ GetMinedCommitment (minedCommitments st) t
                      (GetBlockHash (pindexQuorum q)) = Some e
                 /\ qc q = fst e
                 /\ llmqType (qc q) = t
                 /\ quorumHash (qc q) = GetBlockHash (pindexQuorum q)) r.
Proof.
  intros Hp Hinv Hcan.
  destruct (ScanQuorums_spec t p start nCountRequested st Hp Hinv Hcan)
    as (r & st' & Hs & _ & _ & _ & _ & Hr).
  exists r, st'. split; [exact Hs|]. split.
  - rewrite (quorumIdentities_length _ _ _ _ Hr), length_take. reflexivity.
  - apply Forall_forall. intros a Ha. apply list_elem_of_lookup in Ha as [i Hi].
    pose proof (quorumIdentities_lookup st' r i a Hi) as Hl. rewrite Hr in Hl.
    apply map_lookup_Some in Hl as (b & Hb & Hq).
    assert (Hin : In b (minedAnchors (minedCommitments st) t start)).
    { apply list_elem_of_In. apply (subseteq_take nCountRequested).
      apply list_elem_of_lookup. eauto. }
    unfold minedQuorum in Hq.
    destruct (proj1 (GetMinedCommitment_Has _ _ _) (minedAnchors_mined _ _ _ _ Hin))
      as (e & He).
    rewrite He, Hp in Hq. destruct (quorums st' !! a) as [q|]; [|discriminate].
    assert (Hid : identity_of q
                  = mkIdentity p (fst e) b (snd e)
                               (GetAllQuorumMembers (llmqType (fst e)) b))
      by congruence.
    unfold identity_of in Hid. injection Hid as H1 H2 H3 H4 H5.
    destruct (GetMinedCommitment_Some _ _ _ _ He) as (Ht & Hh & _).
    exists q, e. rewrite H3, H2. auto 10.
Qed.

(** X20: asking for more quorums extends the answer: the quorums of a scan are
    the first ones of a later scan from the same block for a larger count. *)
Theorem ScanQuorums_prefix (t : LLMQType) (p : LLMQParams) (start : CBlockIndex)
    (n m : nat) (st : NodeState) :
  llmqs !! t = Some p ->
  caches_consistent st ->
  canonical st start ->
  (n <= m)%nat ->
  exists r1 st1 r2 st2,
    ScanQuorums t (Some start) n st = Ok (r1, st1)
    /\ ScanQuorums t (Some start) m st1 = Ok (r2, st2)
    /\ quorumIdentities st2 r1 = take n (quorumIdentities st2 r2)
    /\ Forall is_Some (quorumIdentities st2 r2).
Proof.
  intros Hp Hinv Hcan Hnm.
  destruct (ScanQuorums_spec t p start n st Hp Hinv Hcan)
    as (r1 & st1 & H1 & Hinv1 & Hidx1 & Hdb1 & Hpre1 & Hr1).
  assert (Hcan1 : canonical st1 start).
  { apply (canonical_same st st1 _ Hidx1). exact Hcan. }
  destruct (ScanQuorums_spec t p start m st1 Hp Hinv1 Hcan1)
    as (r2 & st2 & H2 & Hinv2 & Hidx2 & Hdb2 & Hpre2 & Hr2).
  rewrite Hdb1 in Hr2.
  set (db := minedCommitments st) in *. set (all := minedAnchors db t start) in *.
  assert (Hsub : forall k (b : CBlockIndex), In b (take k all) -> In b all).
  { intros k b Hb. apply list_elem_of_In. apply (subseteq_take k all).
    apply list_elem_of_In. exact Hb. }
  assert (Hsome1 : Forall is_Some (quorumIdentities st1 r1)).
  { rewrite Hr1. apply (minedAnchors_quorums db t p start _ Hp). apply Hsub. }
  exists r1, st1, r2, st2. split; [exact H1|]. split; [exact H2|]. split.
  - rewrite (quorumIdentities_extend st1 st2 r1 _ Hpre2 Hsome1 eq_refl), Hr1, Hr2.
    rewrite List.firstn_map, take_take. f_equal. f_equal. lia.
  - rewrite Hr2. apply (minedAnchors_quorums db t p start _ Hp). apply Hsub.
Qed.

End MoreScanProperties.

(** X19 at the example: two commitments are mined on the chain of [b3];
    asked for five quorums, the scan returns two. *)
Lemma ScanQuorums_count_witness :
  exists r st',
    ScanQuorums (ext := Example.ext) 1 (Some Example.b3) 5 Example.stTwo = Ok (r, st')
    /\ length r = 2%nat.
Proof.
  destruct (ScanQuorums_count (ext := Example.ext) 1 Example.params1 Example.b3 5
              Example.stTwo eq_refl example_caches_consistent eq_refl)
    as (r & st' & H1 & Hlen & _).
  exists r, st'. split; [exact H1|exact Hlen].
Defined.

(** X20 at the example: the quorum of a scan for one quorum is the first of
    the two that the scan for five returns. *)
Lemma ScanQuorums_prefix_witness :
  exists r1 st1 r2 st2,
    ScanQuorums (ext := Example.ext) 1 (Some Example.b3) 1 Example.stTwo = Ok (r1, st1)
    /\ ScanQuorums (ext := Example.ext) 1 (Some Example.b3) 5 st1 = Ok (r2, st2)
    /\ quorumIdentities st2 r1 = take 1 (quorumIdentities st2 r2).
Proof.
  destruct (ScanQuorums_prefix (ext := Example.ext) 1 Example.params1 Example.b3 1 5
              Example.stTwo eq_refl example_caches_consistent eq_refl)
    as (r1 & st1 & r2 & st2 & H1 & H2 & Hp & _).
  - lia.
  - exists r1, st1, r2, st2. split; [exact H1|]. split; [exact H2|exact Hp].
Defined.

(** ** Rebuilding a quorum *)

Section RebuildProperties.
Context {ext : Externals}.

Lemma BuildQuorumContributions_false (fqc : CFinalCommitment) (q : CQuorum) :
  fst (BuildQuorumContributions fqc q) = false ->
  quorumVvec q = None ->
  quorumVvec (snd (BuildQuorumContributions fqc q)) = None.
Proof.
  unfold BuildQuorumContributions.
  destruct (GetVerifiedContributions _ _ _) as [[[idx vvecs] sks]|]; [|auto].
  unfold HasVerificationVector. cbn [quorumVvec set_quorumVvec].
  destruct (BuildQuorumVerificationVector vvecs); cbn; [discriminate|auto].
Qed.

(** X21: a quorum that was built with a verification vector can be built again
    from what the build left in the database: the rebuilt quorum is the same
    quorum, with the same vector and, if it was valid, the same key share,
    and the rebuild writes nothing. *)
Theorem rebuilt_quorum_keeps_its_vector (t : LLMQType) (pindexQuorum_ : CBlockIndex)
    (st st' st2 : NodeState) (p : LLMQParams) (a : nat) (q : CQuorum)
    (vvec : list CBLSPublicKey) :
  llmqs !! t = Some p ->
  BuildQuorumFromCommitment t pindexQuorum_ st = Ok (Some a, st') ->
  quorums st' !! a = Some q ->
  quorumVvec q = Some vvec ->
  minedCommitments st2 = minedCommitments st ->
  evoDb st2 = evoDb st' ->
  exists st3 q2,
    BuildQuorumFromCommitment t pindexQuorum_ st2
    = Ok (Some (length (quorums st2)), st3)
    /\ quorums st3 = quorums st2 ++ [q2]
    /\ identity_of q2 = identity_of q
    /\ quorumVvec q2 = Some vvec
    /\ (sk_fValid (skShare q) = true -> skShare q2 = skShare q)
    /\ evoDb st3 = evoDb st2.
Proof.
  intros Hp Hb Hq Hv Hdb2 Hevo2.
  unfold BuildQuorumFromCommitment in Hb |- *. rewrite Hdb2.
  destruct (GetMinedCommitment (minedCommitments st) t (GetBlockHash pindexQuorum_))
    as [[qc_ mb]|] eqn:Eg; [|discriminate].
  destruct (GetMinedCommitment_Some _ _ _ _ Eg) as (_ & Hh & _). simpl in Hh.
  rewrite Hh, Z.eqb_refl, Hp in Hb |- *. cbn [negb] in Hb |- *.
  set (q0 := mkQuorum p qc_ pindexQuorum_ mb
                      (GetAllQuorumMembers (llmqType qc_) pindexQuorum_)
                      None CBLSSecretKey_default false) in *.
  (* what the first build did *)
  assert (H1 : exists hasValidVvec db,
            (let '(h, q', d) :=
               match ReadContributions q0 (evoDb st) with
               | (true, q1) => (true, q1, evoDb st)
               | (false, q1) =>
                   match BuildQuorumContributions qc_ q1 with
                   | (true, q2) => (true, q2, WriteContributions q2 (evoDb st))
                   | (false, q2) => (false, q2, evoDb st)
                   end
               end in (h, q', d)) = (hasValidVvec, q, db)
            /\ evoDb st' = db).
  { destruct (match ReadContributions q0 (evoDb st) with
              | (true, q1) => (true, q1, evoDb st)
              | (false, q1) =>
                  match BuildQuorumContributions qc_ q1 with
                  | (true, q2) => (true, q2, WriteContributions q2 (evoDb st))
                  | (false, q2) => (false, q2, evoDb st)
                  end
              end) as [[h qx] d] eqn:E.
    injection Hb as <- <-. exists h, d.
    assert (Hquorums : forall s, quorums (if h then StartCachePopulatorThread
                                               (length (quorums st)) s else s) = quorums s
                                 /\ evoDb (if h then StartCachePopulatorThread
                                               (length (quorums st)) s else s) = evoDb s).
    { intros s. destruct h; [|auto].
      destruct (StartCachePopulatorThread_fields (length (quorums st)) s) as (_ & ? & ? & _).
      auto. }
    cbn [quorums evoDb set_mapQuorumsCache] in Hq |- *.
    rewrite (proj1 (Hquorums _)) in Hq. rewrite (proj2 (Hquorums _)).
    cbn [quorums evoDb set_evoDb set_quorums] in Hq |- *.
    rewrite list_lookup_middle in Hq by reflexivity. injection Hq as ->. auto. }
  destruct H1 as (h & db & H1 & Hevo). rewrite Hevo2, Hevo. clear Hb.
  assert (Hread : exists q2,
            ReadContributions q0 db = (true, q2)
            /\ identity_of q2 = identity_of q
            /\ quorumVvec q2 = Some vvec
            /\ (sk_fValid (skShare q) = true -> skShare q2 = skShare q)).
  { pose proof (ReadContributions_fields q0 (evoDb st)) as Hf. cbv zeta in Hf.
    destruct (ReadContributions q0 (evoDb st)) as [[|] q1] eqn:Er; cbn [snd] in Hf.
    - injection H1 as <- <- <-. exists q1. rewrite Er. auto.
    - assert (Hq1 : q1 = q0).
      { pose proof (ReadContributions_false q0 (evoDb st)) as H.
        rewrite Er in H. apply H. reflexivity. }
      subst q1.
      pose proof (BuildQuorumContributions_fields qc_ q0) as Hg. cbv zeta in Hg.
      pose proof (BuildQuorumContributions_false qc_ q0) as Hn.
      destruct (BuildQuorumContributions qc_ q0) as [[|] q2] eqn:Eb; cbn [fst snd] in Hg, Hn.
      + injection H1 as <- <- <-.
        destruct Hg as (G1 & G2 & G3 & G4 & G5).
        destruct (WriteContributions_lookup q2 (evoDb st)) as [L1 L2]. cbv zeta in L1, L2.
        assert (Hk : MakeQuorumKey q2 = MakeQuorumKey q0).
        { unfold MakeQuorumKey. rewrite G1, G2, G4. reflexivity. }
        rewrite Hk, Hv in L1. rewrite Hk in L2.
        unfold ReadContributions. rewrite L1, L2.
        assert (Hid : identity_of (set_quorumVvec (Some vvec) q0) = identity_of q2).
        { unfold identity_of. cbn [params qc pindexQuorum minedBlockHash members
                                   set_quorumVvec].
          rewrite G1, G2, G3, G4, G5. reflexivity. }
        destruct (sk_fValid (skShare q2)) eqn:Esk.
        * eexists. split; [reflexivity|]. split; [exact Hid|]. split; [reflexivity|].
          reflexivity.
        * destruct (evoDb st !! (DB_QUORUM_SK_SHARE, MakeQuorumKey q0)) as [[v|s]|];
            (eexists; split; [reflexivity|]; split; [exact Hid|]; split; [reflexivity|];
             discriminate).
      + injection H1 as <- <- <-. rewrite Hn in Hv by reflexivity. discriminate. }
  destruct Hread as (q2 & Hr & Hid & Hv2 & Hsk). rewrite Hr.
  assert (Hstart : forall s,
            quorums (StartCachePopulatorThread (length (quorums st2)) s) = quorums s
            /\ evoDb (StartCachePopulatorThread (length (quorums st2)) s) = evoDb s).
  { intros s.
    destruct (StartCachePopulatorThread_fields (length (quorums st2)) s) as (_ & ? & ? & _).
    auto. }
  eexists _, q2. split; [reflexivity|].
  cbn [quorums evoDb set_mapQuorumsCache].
  rewrite (proj1 (Hstart _)), (proj2 (Hstart _)).
  cbn [quorums evoDb set_evoDb set_quorums]. auto 10.
Qed.

End RebuildProperties.

(** X21 at the example: on [stServing] the vector of the quorum is in the
    database; the quorum is built with it, and built again with it. *)
Lemma rebuilt_quorum_keeps_its_vector_witness :
  exists st' st3 q2,
    BuildQuorumFromCommitment (ext := Example.ext) 1 Example.b1 Example.stServing
    = Ok (Some 0%nat, st')
    /\ BuildQuorumFromCommitment (ext := Example.ext) 1 Example.b1 st'
       = Ok (Some 1%nat, st3)
    /\ quorums st3 = quorums st' ++ [q2]
    /\ quorumVvec q2 = Some Example.vvecA.
Proof.
  assert (Hr : exists st',
            BuildQuorumFromCommitment (ext := Example.ext) 1 Example.b1 Example.stServing
            = Ok (Some 0%nat, st')
            /\ quorums st' = [Example.quorumAVvec]
            /\ minedCommitments st' = minedCommitments Example.stServing).
  { vm_compute. eexists. split; [reflexivity|]. split; reflexivity. }
  destruct Hr as (st' & Hb & Hq & Hdb).
  destruct (rebuilt_quorum_keeps_its_vector (ext := Example.ext) 1 Example.b1
              Example.stServing st' st' Example.params1 0 Example.quorumAVvec
              Example.vvecA eq_refl Hb)
    as (st3 & q2 & H3 & Hq3 & _ & Hv & _).
  - rewrite Hq. reflexivity.
  - reflexivity.
  - exact Hdb.
  - reflexivity.
  - exists st', st3, q2. split; [exact Hb|].
    rewrite Hq in H3. cbn [length] in H3. split; [exact H3|]. split; [exact Hq3|exact Hv].
Defined.

(** ** The block-tip hook *)

(** X22: whatever the number of hardware threads, [Start] gives the worker
    pool four threads. *)
Theorem Start_workerCount_is_4 (hardware_concurrency : Z) :
  Start_workerCount hardware_concurrency = 4.
Proof. unfold Start_workerCount. cbv zeta. lia. Qed.

Section CleanupProperties.
Context {ext : Externals}.

Lemma erase_expired_lookup (now : Z) (l : list ((Z * bool) * CQuorumDataRequest.t))
    (m : gmap (Z * bool) CQuorumDataRequest.t) (k : Z * bool) :
  fold_left (erase_if_expired now) l m !! k
  = match m !! k with
    | Some r =>
        if existsb (fun it => bool_decide (fst it = k) && IsExpired now (snd it)) l
        then None else Some r
    | None => None
    end.
Proof.
  revert m. induction l as [|[k0 r0] l IH]; intros m; cbn [fold_left existsb].
  - destruct (m !! k); reflexivity.
  - rewrite IH. unfold erase_if_expired. cbn [fst snd].
    destruct (IsExpired now r0) eqn:E0.
    + destruct (decide (k0 = k)) as [->|Hne].
      * rewrite lookup_delete_eq, bool_decide_eq_true_2 by reflexivity.
        destruct (m !! k); reflexivity.
      * rewrite lookup_delete_ne by exact Hne.
        rewrite bool_decide_eq_false_2 by exact Hne. reflexivity.
    + rewrite andb_false_r. reflexivity.
Qed.

Lemma UpdatedBlockTip_cleanup_lookup (now : Z) (st : NodeState) (k : Z * bool) :
  mapQuorumDataRequests (UpdatedBlockTip_cleanup now st) !! k
  = match mapQuorumDataRequests st !! k with
    | Some r => if IsExpired now r then None else Some r
    | None => None
    end.
Proof.
  unfold UpdatedBlockTip_cleanup. cbn [mapQuorumDataRequests set_mapQuorumDataRequests].
  rewrite erase_expired_lookup.
  destruct (mapQuorumDataRequests st !! k) as [r|] eqn:Er; [|reflexivity].
  destruct (existsb _ _) eqn:Ex.
  - apply existsb_exists in Ex as ([k' r'] & Hin & Hb). cbn [fst snd] in Hb.
    apply andb_true_iff in Hb as [Hk He]. apply bool_decide_eq_true in Hk. subst k'.
    apply list_elem_of_In, elem_of_map_to_list in Hin.
    assert (r' = r) as -> by congruence. rewrite He. reflexivity.
  - destruct (IsExpired now r) eqn:Ee; [|reflexivity].
    assert (Hex : existsb (fun it => bool_decide (fst it = k) && IsExpired now (snd it))
                          (map_to_list (mapQuorumDataRequests st)) = true).
    { apply existsb_exists. exists (k, r). split.
      - apply list_elem_of_In, elem_of_map_to_list. exact Er.
      - cbn [fst snd]. rewrite bool_decide_eq_true_2 by reflexivity. exact Ee. }
    congruence.
Qed.

(** X23: the sweep of the block-tip hook erases the expired requests and
    nothing else: an entry of the request table is gone when it was expired
    and is unchanged otherwise, so no entry left is expired, and no other
    part of the node state is touched. *)
Theorem UpdatedBlockTip_cleanup_spec (now : Z) (st : NodeState) :
  let st' := UpdatedBlockTip_cleanup now st in
  (forall k, mapQuorumDataRequests st' !! k
             = match mapQuorumDataRequests st !! k with
               | Some r => if IsExpired now r then None else Some r
               | None => None
               end)
  /\ (forall k r, mapQuorumDataRequests st' !! k = Some r -> IsExpired now r = false)
  /\ st' = set_mapQuorumDataRequests (mapQuorumDataRequests st') st.
Proof.
  cbv zeta. split; [intros k; apply UpdatedBlockTip_cleanup_lookup|]. split.
  - intros k r. rewrite UpdatedBlockTip_cleanup_lookup.
    destruct (mapQuorumDataRequests st !! k) as [r0|]; [|discriminate].
    destruct (IsExpired now r0) eqn:E; [discriminate|]. intros H. congruence.
  - unfold UpdatedBlockTip_cleanup. destruct st. reflexivity.
Qed.

(** X24: after the sweep, a request to a peer whose earlier request has
    expired is a fresh one: it carries what was asked for now, and it is what
    the table then holds for the peer. *)
Theorem RequestQuorumData_after_cleanup (now : Z) (from : CNode.t) (t : LLMQType)
    (pQuorumIndex : CBlockIndex) (nDataMask : Z) (proTxHash_ : uint256) (st : NodeState) :
  LLMQ_DATA_MESSAGES_VERSION <= CNode.nVersion from ->
  CNode.verifiedProRegTxHash from <> 0 \/ CNode.qwatch from = true ->
  is_Some (llmqs !! t) ->
  HasMinedCommitment (minedCommitments st) t (GetBlockHash pQuorumIndex) = true ->
  (forall stored,
     mapQuorumDataRequests st !! (CNode.verifiedProRegTxHash from, true) = Some stored ->
     IsExpired now stored = true) ->
  let request :=
    CQuorumDataRequest.make now t (GetBlockHash pQuorumIndex) nDataMask proTxHash_ in
  exists st',
    RequestQuorumData now (Some from) t (Some pQuorumIndex) nDataMask proTxHash_
                      (UpdatedBlockTip_cleanup now st)
    = Ok (true, st')
    /\ vSendMsg st' = vSendMsg st ++ [QGETDATA (CNode.id from) request]
    /\ mapQuorumDataRequests st' !! (CNode.verifiedProRegTxHash from, true) = Some request.
Proof.
  intros Hver Hpeer [p Ep] Hmined Hexp request.
  pose proof (UpdatedBlockTip_cleanup_lookup now st (CNode.verifiedProRegTxHash from, true))
    as Hclean.
  assert (Hnone : mapQuorumDataRequests (UpdatedBlockTip_cleanup now st)
                  !! (CNode.verifiedProRegTxHash from, true) = None).
  { rewrite Hclean.
    destruct (mapQuorumDataRequests st !! (CNode.verifiedProRegTxHash from, true))
      as [stored|] eqn:Es; [|reflexivity].
    rewrite (Hexp stored eq_refl). reflexivity. }
  unfold RequestQuorumData.
  apply Z.ltb_ge in Hver. rewrite Hver.
  assert (Hgate : uint256_IsNull (CNode.verifiedProRegTxHash from)
                  && negb (CNode.qwatch from) = false).
  { unfold uint256_IsNull. destruct Hpeer as [Hh|Hq].
    - apply Z.eqb_neq in Hh. rewrite Hh. reflexivity.
    - rewrite Hq, andb_false_r. reflexivity. }
  rewrite Hgate, Ep.
  destruct (GetQuorum_total t pQuorumIndex (UpdatedBlockTip_cleanup now st) p Ep)
    as (r & st1 & Hg & (_&_&_&_&Hreq&Hsend&_) & Hr).
  rewrite Hg. cbn [bind fst snd].
  destruct (proj2 Hr Hmined) as [a Ha]. rewrite Ha.
  rewrite Hreq, Hnone. eexists. split; [reflexivity|].
  cbn [vSendMsg set_vSendMsg mapQuorumDataRequests set_mapQuorumDataRequests].
  rewrite Hsend, lookup_insert_eq. split; reflexivity.
Qed.

End CleanupProperties.

(** X24 at the example: the request on record for masternode 12 (for the
    contributions) dates from time 1000 and the timeout is 300; at time 2000,
    after the sweep, a request for the vector is sent as such. *)
Lemma RequestQuorumData_after_cleanup_witness :
  exists st',
    RequestQuorumData (ext := Example.ext) 2000 (Some Example.peer12) 1 (Some Example.b1)
      1 11 (UpdatedBlockTip_cleanup (ext := Example.ext) 2000 Example.stBusy)
    = Ok (true, st')
    /\ vSendMsg st'
       = [QGETDATA 7 (CQuorumDataRequest.make 2000 1 101 1 11)].
Proof.
  destruct (RequestQuorumData_after_cleanup (ext := Example.ext) 2000 Example.peer12 1
              Example.b1 1 11 Example.stBusy)
    as (st' & H1 & H2 & _).
  - vm_compute. discriminate.
  - left. vm_compute. discriminate.
  - exists Example.params1. reflexivity.
  - reflexivity.
  - intros stored Hs. vm_compute in Hs. injection Hs as <-. reflexivity.
  - exists st'. split; [exact H1|exact H2].
Defined.

(** ** What a recovery asks for *)

(** X25: the data mask of a recovery never asks for what the quorum has. It
    asks for the verification vector only when the quorum has none, and
    always when the node is a valid member of such a quorum; it asks for the
    contributions exactly when the node is a valid member without a valid
    key share; and it asks for nothing when the node is no valid member and
    no vector sync is enabled for the type. *)
Theorem recovery_data_mask_spec (mapQuorumVvecSync : gmap Z QvvecSyncMode.t)
    (proTxHash_ : uint256) (fWeAreQuorumTypeMember : bool) (pQuorum : CQuorum) :
  let nDataMask :=
    recovery_data_mask mapQuorumVvecSync proTxHash_ fWeAreQuorumTypeMember pQuorum in
  (nDataMask = 0 \/ nDataMask = 1 \/ nDataMask = 2 \/ nDataMask = 3)
  /\ (Z.land nDataMask CQuorumDataRequest.QUORUM_VERIFICATION_VECTOR <> 0 ->
      quorumVvec pQuorum = None)
  /\ (Z.land nDataMask CQuorumDataRequest.ENCRYPTED_CONTRIBUTIONS <> 0 <->
      IsValidMember pQuorum proTxHash_ = true /\ sk_fValid (skShare pQuorum) = false)
  /\ (nDataMask = CQuorumDataRequest.ENCRYPTED_CONTRIBUTIONS ->
      is_Some (quorumVvec pQuorum))
  /\ (IsValidMember pQuorum proTxHash_ = true -> quorumVvec pQuorum = None ->
      Z.land nDataMask CQuorumDataRequest.QUORUM_VERIFICATION_VECTOR <> 0)
  /\ (IsValidMember pQuorum proTxHash_ = false ->
      mapQuorumVvecSync !! llmqType (qc pQuorum) = None ->
      nDataMask = 0).
Proof.
  cbv zeta. unfold recovery_data_mask, HasVerificationVector, GetSkShare.
  destruct (mapQuorumVvecSync !! llmqType (qc pQuorum)) as [[| |]|];
    [rewrite bool_decide_eq_true_2 by eauto..
    |rewrite bool_decide_eq_false_2 by (intros [? ?]; discriminate)];
    destruct (IsValidMember pQuorum proTxHash_); destruct fWeAreQuorumTypeMember;
    destruct (quorumVvec pQuorum) as [v|]; destruct (sk_fValid (skShare pQuorum));
    cbn; repeat split; intros; try discriminate; try congruence; try tauto; eauto;
    try (exfalso; tauto); intuition (try discriminate; try congruence).
Qed.

(** ** Quorum objects over time *)

Section EvolveProperties.
Context {ext : Externals}.

Lemma same_material_refl (q : CQuorum) : same_material q q.
Proof. unfold same_material. auto. Qed.

Lemma same_material_trans (a b c : CQuorum) :
  same_material a b -> same_material b c -> same_material a c.
Proof. unfold same_material. intros (?&?&?) (?&?&?). repeat split; congruence. Qed.

Lemma quorums_evolve_refl (st : NodeState) : quorums_evolve st st.
Proof. intros a q H. exists q. split; [exact H|]. split; [apply same_material_refl|auto]. Qed.

Lemma quorums_evolve_trans (a b c : NodeState) :
  quorums_evolve a b -> quorums_evolve b c -> quorums_evolve a c.
Proof.
  intros Hab Hbc i q Hq. destruct (Hab i q Hq) as (q1 & H1 & Hm1 & Hr1).
  destruct (Hbc i q1 H1) as (q2 & H2 & Hm2 & Hr2). exists q2.
  split; [exact H2|]. split; [eapply same_material_trans; eassumption|auto].
Qed.

Lemma quorums_evolve_prefix (st st' : NodeState) :
  quorums st `prefix_of` quorums st' -> quorums_evolve st st'.
Proof.
  intros Hpre a q Hq. exists q. split; [exact (prefix_lookup_Some _ _ _ _ Hq Hpre)|].
  split; [apply same_material_refl|auto].
Qed.

Lemma quorumIdentities_evolve (st st' : NodeState) (l : list nat) :
  quorums_evolve st st' ->
  Forall is_Some (quorumIdentities st l) ->
  quorumIdentities st' l = quorumIdentities st l.
Proof.
  intros He. induction l as [|a l IH]; intros Hs; [reflexivity|].
  cbn [quorumIdentities List.map] in *. apply Forall_cons in Hs as [Ha Hl].
  f_equal; [|apply IH; exact Hl].
  destruct (quorums st !! a) as [q|] eqn:Eq; [|destruct Ha; discriminate].
  destruct (He a q Eq) as (q' & -> & (Hid & _) & _). rewrite Hid. reflexivity.
Qed.

(** Consistency of the caches does not depend on the recovery flags. *)
Lemma caches_consistent_evolve (st st' : NodeState) :
  caches_consistent st ->
  mapBlockIndex st' = mapBlockIndex st ->
  minedCommitments st' = minedCommitments st ->
  mapQuorumsCache st' = mapQuorumsCache st ->
  scanQuorumsCache st' = scanQuorumsCache st ->
  quorums_evolve st st' ->
  caches_consistent st'.
Proof.
  intros (Hclosed & Hq & Hs) Hidx Hdb Hqc Hsc He. split; [|split].
  - intros b b' Hb Hprev. apply (canonical_same st st' _ Hidx).
    apply (Hclosed b b'); [|exact Hprev]. apply (canonical_same st st' _ Hidx). exact Hb.
  - intros t h a Hf. rewrite Hqc in Hf. rewrite Hdb.
    destruct (Hq t h a Hf) as (q & Hqa & Hc & Hh & Hi).
    destruct (He a q Hqa) as (q' & Hq' & (Hid & _) & _). exists q'.
    assert (Hp : pindexQuorum q' = pindexQuorum q).
    { apply (f_equal id_pindexQuorum) in Hid. exact Hid. }
    rewrite Hp, Hid. split; [exact Hq'|].
    split; [apply (canonical_same st st' _ Hidx); exact Hc|]. auto.
  - intros t h l Hf. rewrite Hsc in Hf.
    destruct (Hs t h l Hf) as (start & Hc & Hh & Hsome & Ha). exists start.
    rewrite Hdb, (quorumIdentities_evolve st st' l He Hsome).
    split; [apply (canonical_same st st' _ Hidx); exact Hc|]. auto.
Qed.

(** The data mask looks at the material of the quorum only. *)
Lemma recovery_data_mask_material (sync : gmap Z QvvecSyncMode.t) (me : uint256)
    (f : bool) (q q' : CQuorum) :
  same_material q q' ->
  recovery_data_mask sync me f q' = recovery_data_mask sync me f q.
Proof.
  intros (Hid & Hv & Hs).
  assert (Hqc : qc q' = qc q) by (apply (f_equal id_qc) in Hid; exact Hid).
  assert (Hm : members q' = members q) by (apply (f_equal id_members) in Hid; exact Hid).
  unfold recovery_data_mask, IsValidMember, HasVerificationVector, GetSkShare.
  rewrite Hqc, Hm, Hv, Hs. reflexivity.
Qed.

End EvolveProperties.

(** ** Starting recoveries *)

Section TriggerProperties.
Context {ext : Externals}.
Variable sync : gmap Z QvvecSyncMode.t.

Lemma scanned_quorum_material (db : list (CFinalCommitment * Z)) (t : LLMQType)
    (n : nat) (pIndex : CBlockIndex) (q q' : CQuorum) :
  same_material q q' ->
  scanned_quorum db t n pIndex q -> scanned_quorum db t n pIndex q'.
Proof.
  intros (Hid & _) [Hin Hm]. unfold scanned_quorum.
  assert (Hp : pindexQuorum q' = pindexQuorum q)
    by (apply (f_equal id_pindexQuorum) in Hid; exact Hid).
  rewrite Hp, Hid. auto.
Qed.

Lemma task_justified_evolve (me : uint256) (db : list (CFinalCommitment * Z))
    (st0 st st' : NodeState) (pIndex : CBlockIndex) (task : RecoveryTask) :
  quorums_evolve st st' ->
  task_justified sync me db st0 st pIndex task ->
  task_justified sync me db st0 st' pIndex task.
Proof.
  intros He (Hp & Hm & H0 & q & t & p & Hq & Hr & Hcfg & Hscan & Hmask).
  destruct (He _ q Hq) as (q' & Hq' & Hmat & Hrun).
  split; [exact Hp|]. split; [exact Hm|]. split; [exact H0|].
  exists q', t, p. cbv zeta. split; [exact Hq'|]. split; [auto|].
  split; [exact Hcfg|]. split; [eapply scanned_quorum_material; eassumption|].
  rewrite (recovery_data_mask_material sync me _ q q' Hmat). exact Hmask.
Qed.

Lemma set_running_evolve (st : NodeState) (a : nat) (q : CQuorum) :
  quorums st !! a = Some q ->
  quorums_evolve st
    (set_quorums (<[a := set_fQuorumDataRecoveryThreadRunning true q]> (quorums st)) st).
Proof.
  intros Hq a' q' Hq'. cbn [quorums set_quorums].
  destruct (decide (a = a')) as [<-|Hne].
  - assert (q' = q) as -> by congruence.
    exists (set_fQuorumDataRecoveryThreadRunning true q).
    split; [apply list_lookup_insert_eq; eapply lookup_lt_Some; exact Hq|].
    split; [unfold same_material; auto|reflexivity].
  - exists q'. rewrite list_lookup_insert_ne by exact Hne.
    split; [exact Hq'|]. split; [apply same_material_refl|auto].
Qed.

(** The inner loop of [TriggerQuorumDataRecoveryThreads] over the quorums
    scanned for one type, with the type-member flag of that scan: it
    returns, it touches only the recovery flags, and the tasks it leaves are
    justified and for different quorums. *)
Lemma trigger_quorums_spec (pIndex : CBlockIndex) (me : uint256)
    (db : list (CFinalCommitment * Z)) (t : LLMQType) (p : LLMQParams)
    (st0 : NodeState) (vecQuorums : list nat) :
  let n := Z.to_nat (to_size_t (llmq_signingActiveQuorumCount p + 1)) in
  llmqs !! t = Some p ->
  forall (st : NodeState) (tasks : list RecoveryTask),
    Forall (fun a => exists q, quorums st !! a = Some q
                               /\ scanned_quorum db t n pIndex q) vecQuorums ->
    quorums_evolve st0 st ->
    Forall (task_justified sync me db st0 st pIndex) tasks ->
    NoDup (List.map task_pQuorum tasks) ->
    exists st' tasks',
      trigger_quorums sync pIndex me (weAreQuorumTypeMember db t n pIndex me)
                      vecQuorums st tasks
      = Ok (st', tasks')
      /\ st' = set_quorums (quorums st') st
      /\ quorums_evolve st st'
      /\ Forall (task_justified sync me db st0 st' pIndex) tasks'
      /\ NoDup (List.map task_pQuorum tasks').
Proof.
  intros n Hcfg. set (f := weAreQuorumTypeMember db t n pIndex me).
  induction vecQuorums as [|a rest IH]; intros st tasks Hvalid He0 Htasks Hnodup.
  - exists st, tasks. split; [reflexivity|]. split; [destruct st; reflexivity|].
    split; [apply quorums_evolve_refl|]. auto.
  - apply Forall_cons in Hvalid as [(q & Hq & Hscan) Hrest]. cbn [trigger_quorums].
    rewrite Hq.
    destruct (fQuorumDataRecoveryThreadRunning q) eqn:Erun;
      [apply IH; assumption|].
    destruct (Z.eqb_spec (recovery_data_mask sync me f q) 0) as [|Hmask];
      [apply IH; assumption|].
    unfold StartQuorumDataRecoveryThread. rewrite Hq, Erun. cbn [bind fst snd].
    set (q1 := set_fQuorumDataRecoveryThreadRunning true q).
    set (st1 := set_quorums (<[a := q1]> (quorums st)) st).
    pose proof (set_running_evolve st a q Hq) as He1. fold q1 st1 in He1.
    assert (Hq1 : quorums st1 !! a = Some q1).
    { subst st1. cbn [quorums set_quorums]. apply list_lookup_insert_eq.
      eapply lookup_lt_Some. exact Hq. }
    assert (Hmat1 : same_material q q1) by (unfold same_material; auto).
    destruct (IH st1 (tasks ++ [mkRecoveryTask a pIndex (recovery_data_mask sync me f q)]))
      as (st' & tasks' & Ht & Hst' & He' & Hj' & Hn').
    + apply Forall_forall. intros a' Ha'.
      destruct (proj1 (Forall_forall _ _) Hrest a' Ha') as (q' & Hq' & Hscan').
      destruct (He1 a' q' Hq') as (q'' & Hq'' & Hmat'' & _). exists q''.
      split; [exact Hq''|]. eapply scanned_quorum_material; eassumption.
    + eapply quorums_evolve_trans; eassumption.
    + apply Forall_app. split.
      * eapply Forall_impl; [exact Htasks|]. intros task Hj.
        eapply task_justified_evolve; eassumption.
      * constructor; [|constructor]. split; [reflexivity|]. split; [exact Hmask|].
        cbn [task_pQuorum task_nDataMaskIn]. split.
        -- intros q0 Hq0. destruct (He0 a q0 Hq0) as (q' & Hq' & _ & Hr).
           assert (q' = q) as -> by congruence.
           destruct (fQuorumDataRecoveryThreadRunning q0); [|reflexivity].
           rewrite Hr in Erun by reflexivity. discriminate.
        -- exists q1, t, p. cbv zeta. fold n. fold f. split; [exact Hq1|].
           split; [reflexivity|]. split; [exact Hcfg|].
           split; [eapply scanned_quorum_material; eassumption|].
           symmetry. apply recovery_data_mask_material. exact Hmat1.
    + rewrite List.map_app. cbn [List.map task_pQuorum].
      apply NoDup_app. split; [exact Hnodup|]. split; [|apply NoDup_singleton].
      intros x Hx Hx'. apply list_elem_of_In in Hx'. destruct Hx' as [<-|[]].
      apply list_elem_of_In, List.in_map_iff in Hx as (task & Ha & Hin).
      apply list_elem_of_In in Hin.
      destruct (proj1 (Forall_forall _ _) Htasks task Hin)
        as (_ & _ & _ & q' & t' & p' & Hq' & Hr' & _).
      rewrite Ha in Hq'. congruence.
    + exists st', tasks'. split; [exact Ht|]. split.
      * rewrite Hst' at 1. subst st1. destruct st. reflexivity.
      * split; [eapply quorums_evolve_trans; eassumption|]. auto.
Qed.

End TriggerProperties.

Section TriggerAll.
Context {ext : Externals}.
Variable sync : gmap Z QvvecSyncMode.t.

Lemma GetQuorums_frame (t : LLMQType) (p : LLMQParams) (l : list CBlockIndex) :
  llmqs !! t = Some p ->
  forall st r st',
    GetQuorums t l st = Ok (r, st') ->
    self st' = self st /\ mapQuorumDataRequests st' = mapQuorumDataRequests st.
Proof.
  intros Hp. induction l as [|idx rest IH]; intros st r st' H; cbn [GetQuorums] in H.
  - injection H as _ <-. split; reflexivity.
  - destruct (GetQuorum_total t idx st p Hp) as (r1 & st1 & Hg & (_&_&Hs&_&Hq&_) & _).
    rewrite Hg in H. cbn [bind fst snd] in H. destruct r1 as [a|]; [|discriminate].
    destruct (GetQuorums t rest st1) as [[r2 st2]|] eqn:E; [|discriminate].
    cbn [bind fst snd] in H. injection H as _ <-.
    destruct (IH st1 r2 st2 E) as [-> ->]. split; assumption.
Qed.

Lemma ScanQuorums_frame (t : LLMQType) (p : LLMQParams) (pindexStart : option CBlockIndex)
    (n : nat) (st : NodeState) (r : list nat) (st' : NodeState) :
  llmqs !! t = Some p ->
  ScanQuorums t pindexStart n st = Ok (r, st') ->
  self st' = self st /\ mapQuorumDataRequests st' = mapQuorumDataRequests st.
Proof.
  intros Hp.
  assert (Hscan : forall start n0 c vec idx k s r' s',
            scan_from t start n0 c vec idx k s = Ok (r', s') ->
            self s' = self s /\ mapQuorumDataRequests s' = mapQuorumDataRequests s).
  { intros start n0 c vec idx k s r' s'. unfold scan_from.
    destruct (GetQuorums t _ s) as [[l s1]|] eqn:E; [|discriminate].
    cbn [bind fst snd]. intros H. injection H as _ <-.
    destruct (GetQuorums_frame t p _ Hp _ _ _ E) as [<- <-].
    destruct (_ && _); split; reflexivity. }
  unfold ScanQuorums. destruct pindexStart as [start|];
    [|intros H; injection H as _ <-; split; reflexivity].
  destruct (n =? 0)%nat; [intros H; injection H as _ <-; split; reflexivity|].
  destruct (cache_get _ _) as [[vec|] cache'].
  - destruct (_ =? n)%nat; [intros H; injection H as _ <-; split; reflexivity|].
    destruct (n <? _)%nat; [intros H; injection H as _ <-; split; reflexivity|].
    destruct (last vec) as [back|].
    + cbn [quorums set_scanQuorumsCache]. destruct (quorums st !! back); [|discriminate].
      intros H. apply Hscan in H. exact H.
    + intros H. apply Hscan in H. exact H.
  - intros H. apply Hscan in H. exact H.
Qed.

Lemma any_valid_member_total (me : uint256) (vec : list nat) (st : NodeState) :
  Forall (fun a => is_Some (quorums st !! a)) vec ->
  is_Some (any_valid_member me vec st).
Proof.
  induction vec as [|a rest IH]; intros H; cbn [any_valid_member]; [eauto|].
  apply Forall_cons in H as [[q Hq] Hrest]. rewrite Hq.
  destruct (IsValidMember q me); [eauto|apply IH; exact Hrest].
Qed.

(** The pointers that [ScanQuorums] returns on consistent caches point to
    quorum objects. *)
Lemma scanned_pointers_valid (t : LLMQType) (p : LLMQParams) (start : CBlockIndex)
    (n : nat) (db : list (CFinalCommitment * Z)) (st1 : NodeState) (r : list nat) :
  llmqs !! t = Some p ->
  quorumIdentities st1 r = List.map (minedQuorum db t) (take n (minedAnchors db t start)) ->
  Forall (fun a => is_Some (quorums st1 !! a)) r.
Proof.
  intros Hp Hr.
  assert (Hsome : Forall is_Some (quorumIdentities st1 r)).
  { rewrite Hr. apply (minedAnchors_quorums _ _ p start _ Hp).
    intros b Hb. apply list_elem_of_In. apply (subseteq_take n).
    apply list_elem_of_In. exact Hb. }
  apply Forall_forall. intros a Ha. apply list_elem_of_lookup in Ha as [i Hi].
  pose proof (quorumIdentities_lookup st1 r i a Hi) as Hl.
  assert (His : is_Some (match quorums st1 !! a with
                         | Some q => Some (identity_of q)
                         | None => None
                         end)).
  { apply (proj1 (Forall_forall _ _) Hsome). apply list_elem_of_lookup. eauto. }
  destruct (quorums st1 !! a); [eauto|destruct His; discriminate].
Qed.

(** The flag that [ranges::any_of] computes, read off the identities of the
    quorums. *)
Lemma any_valid_member_identities (me : uint256) (vec : list nat) (st : NodeState)
    (f : bool) :
  any_valid_member me vec st = Some f ->
  f = existsb (fun o => match o with
                        | Some i =>
                            match find_member (id_members i) me 0 with
                            | Some k => bit (validMembers (id_qc i)) k
                            | None => false
                            end
                        | None => false
                        end)
              (quorumIdentities st vec).
Proof.
  induction vec as [|a rest IH]; cbn [any_valid_member quorumIdentities List.map existsb].
  - intros H. injection H as <-. reflexivity.
  - fold (quorumIdentities st rest).
    destruct (quorums st !! a) as [q|]; [|discriminate].
    unfold IsValidMember. cbn [identity_of id_members id_qc].
    destruct (match find_member (members q) me 0 with
              | Some i => bit (validMembers (qc q)) i
              | None => false
              end).
    + intros H. injection H as <-. reflexivity.
    + cbn [orb]. exact IH.
Qed.

Lemma existsb_map {A B : Type} (g : B -> bool) (h : A -> B) (l : list A) :
  existsb g (List.map h l) = existsb (fun x => g (h x)) l.
Proof. induction l as [|x l IH]; [reflexivity|]. cbn. rewrite IH. reflexivity. Qed.

(** The quorums that [ScanQuorums] returns on consistent caches are the
    mined quorums of the scanned anchors. *)
Lemma scanned_quorums (t : LLMQType) (p : LLMQParams) (start : CBlockIndex)
    (n : nat) (db : list (CFinalCommitment * Z)) (st1 : NodeState) (r : list nat) :
  llmqs !! t = Some p ->
  quorumIdentities st1 r = List.map (minedQuorum db t) (take n (minedAnchors db t start)) ->
  Forall (fun a => exists q, quorums st1 !! a = Some q
                             /\ scanned_quorum db t n start q) r.
Proof.
  intros Hp Hr. pose proof (scanned_pointers_valid _ _ _ _ _ _ _ Hp Hr) as Hvalid.
  apply Forall_forall. intros a Ha.
  destruct (proj1 (Forall_forall _ _) Hvalid a Ha) as [q Hq]. exists q.
  split; [exact Hq|].
  apply list_elem_of_lookup in Ha as [i Hi].
  pose proof (quorumIdentities_lookup st1 r i a Hi) as Hl. rewrite Hq, Hr in Hl.
  change (List.map ?g ?l) with (g <$> l) in Hl. rewrite list_lookup_fmap in Hl.
  destruct (take n (minedAnchors db t start) !! i) as [blk|] eqn:Eb; [|discriminate].
  cbn in Hl. injection Hl as Hl.
  pose proof (minedQuorum_anchor _ _ _ _ Hl) as Hanchor.
  cbn [identity_of id_pindexQuorum] in Hanchor. subst blk.
  split; [|exact Hl]. apply list_elem_of_In, list_elem_of_lookup. eauto.
Qed.

Lemma trigger_type_spec (pIndex : CBlockIndex) (llmq : LLMQType * LLMQParams)
    (st0 st : NodeState) (tasks : list RecoveryTask) :
  llmqs !! fst llmq = Some (snd llmq) ->
  trigger_invariant sync pIndex st0 st tasks ->
  exists st' tasks',
    trigger_type sync pIndex llmq st tasks = Ok (st', tasks')
    /\ trigger_invariant sync pIndex st0 st' tasks'.
Proof.
  intros Hp (Hinv & Hcan & Hself & He0 & Htasks & Hnodup & Hreq & Hdb).
  unfold trigger_type.
  set (n := Z.to_nat (to_size_t (llmq_signingActiveQuorumCount (snd llmq) + 1))).
  destruct (ScanQuorums_spec (fst llmq) (snd llmq) pIndex n st Hp Hinv Hcan)
    as (r & st1 & Hs & Hinv1 & Hidx1 & Hdb1 & Hpre1 & Hr).
  destruct (ScanQuorums_frame _ _ _ _ _ _ _ Hp Hs) as [Hself1 Hreq1].
  rewrite Hs. cbn [bind fst snd]. rewrite Hdb in Hr.
  pose proof (scanned_quorums _ _ _ _ _ _ _ Hp Hr) as Hscanned.
  pose proof (scanned_pointers_valid _ _ _ _ _ _ _ Hp Hr) as Hvalid.
  destruct (any_valid_member_total (activeProTxHash (self st1)) r st1 Hvalid) as [f Hf].
  rewrite Hf.
  assert (Hflag : f = weAreQuorumTypeMember (minedCommitments st0) (fst llmq) n pIndex
                        (activeProTxHash (self st0))).
  { rewrite (any_valid_member_identities _ _ _ _ Hf), Hr, existsb_map, Hself1, Hself.
    reflexivity. }
  rewrite Hself1, Hself, Hflag.
  pose proof (quorums_evolve_prefix st st1 Hpre1) as He1.
  destruct (trigger_quorums_spec sync pIndex (activeProTxHash (self st0))
              (minedCommitments st0) (fst llmq) (snd llmq) st0 r Hp st1 tasks Hscanned)
    as (st' & tasks' & Ht & Hst' & He' & Hj' & Hn').
  - eapply quorums_evolve_trans; eassumption.
  - eapply Forall_impl; [exact Htasks|]. intros task Hj.
    eapply task_justified_evolve; eassumption.
  - exact Hnodup.
  - exists st', tasks'. split; [exact Ht|].
    assert (Hf' : mapBlockIndex st' = mapBlockIndex st1
                  /\ minedCommitments st' = minedCommitments st1
                  /\ mapQuorumsCache st' = mapQuorumsCache st1
                  /\ scanQuorumsCache st' = scanQuorumsCache st1
                  /\ self st' = self st1
                  /\ mapQuorumDataRequests st' = mapQuorumDataRequests st1).
    { rewrite Hst'. simpl. tauto. }
    destruct Hf' as (F1 & F2 & F3 & F4 & F5 & F6).
    split; [apply (caches_consistent_evolve st1 st'); assumption|].
    split; [apply (canonical_same st1 st' _ F1); apply (canonical_same st st1 _ Hidx1);
            exact Hcan|].
    split; [congruence|].
    split; [eapply quorums_evolve_trans; [|exact He'];
            eapply quorums_evolve_trans; eassumption|].
    split; [exact Hj'|]. split; [exact Hn'|]. split; congruence.
Qed.

Lemma trigger_types_spec (pIndex : CBlockIndex) (st0 : NodeState)
    (types : list (LLMQType * LLMQParams)) :
  Forall (fun llmq => llmqs !! fst llmq = Some (snd llmq)) types ->
  forall st tasks,
    trigger_invariant sync pIndex st0 st tasks ->
    exists st' tasks',
      trigger_types sync pIndex types st tasks = Ok (st', tasks')
      /\ trigger_invariant sync pIndex st0 st' tasks'.
Proof.
  induction types as [|llmq rest IH]; intros Hall st tasks Hinv; cbn [trigger_types].
  - eauto.
  - apply Forall_cons in Hall as [Hp Hrest].
    destruct (trigger_type_spec pIndex llmq st0 st tasks Hp Hinv)
      as (st1 & tasks1 & H1 & Hinv1).
    rewrite H1. cbn [bind fst snd]. apply IH; assumption.
Qed.

Lemma llmqs_in_order_configured :
  Forall (fun llmq => llmqs !! fst llmq = Some (snd llmq)) llmqs_in_order.
Proof.
  apply Forall_forall. intros [t p] Hin. unfold llmqs_in_order in Hin.
  rewrite merge_sort_Permutation in Hin. apply elem_of_map_to_list in Hin. exact Hin.
Qed.

(** On consistent caches [TriggerQuorumDataRecoveryThreads] returns and
    leaves a state in which the outer loop could start again. *)
Lemma TriggerQuorumDataRecoveryThreads_total (QuorumDataRecoveryEnabled : bool)
    (pIndex : CBlockIndex) (st : NodeState) :
  caches_consistent st ->
  canonical st pIndex ->
  exists st' tasks,
    TriggerQuorumDataRecoveryThreads QuorumDataRecoveryEnabled sync (Some pIndex) st
    = Ok (st', tasks)
    /\ (fMasternodeMode (self st) = false \/ QuorumDataRecoveryEnabled = false ->
        st' = st /\ tasks = [])
    /\ trigger_invariant sync pIndex st st' tasks.
Proof.
  intros Hinv Hcan. unfold TriggerQuorumDataRecoveryThreads.
  assert (H0 : trigger_invariant sync pIndex st st []).
  { split; [exact Hinv|]. split; [exact Hcan|]. split; [reflexivity|].
    split; [apply quorums_evolve_refl|]. split; [constructor|].
    split; [constructor|]. split; reflexivity. }
  destruct (negb (fMasternodeMode (self st)) || negb QuorumDataRecoveryEnabled) eqn:Eoff.
  - exists st, []. split; [reflexivity|]. split; [auto|exact H0].
  - destruct (trigger_types_spec pIndex st llmqs_in_order llmqs_in_order_configured st [] H0)
      as (st' & tasks & Ht & Hinv').
    exists st', tasks. split; [exact Ht|]. split; [|exact Hinv'].
    apply orb_false_iff in Eoff as [E1 E2]. apply negb_false_iff in E1, E2.
    intros [H|H]; congruence.
Qed.

(** X26: [TriggerQuorumDataRecoveryThreads] on a node with consistent caches,
    for a block of the index: it returns; it does nothing unless the node is
    a masternode with recovery enabled; it starts at most one task per
    quorum, only for quorums without a running recovery thread among the
    [signingActiveQuorumCount + 1] most recent mined quorums of a configured
    type, only with a data mask that asks for something, which is the data
    mask of that quorum computed with the node counted as a member of the
    type exactly when it is a valid member of one of those quorums; and it
    changes no quorum object except for the flag of the recovery thread. *)
Theorem TriggerQuorumDataRecoveryThreads_spec (QuorumDataRecoveryEnabled : bool)
    (pIndex : CBlockIndex) (st : NodeState) :
  caches_consistent st ->
  canonical st pIndex ->
  exists st' tasks,
    TriggerQuorumDataRecoveryThreads QuorumDataRecoveryEnabled sync (Some pIndex) st
    = Ok (st', tasks)
    /\ (fMasternodeMode (self st) = false \/ QuorumDataRecoveryEnabled = false ->
        st' = st /\ tasks = [])
    /\ Forall (task_justified sync (activeProTxHash (self st)) (minedCommitments st)
                              st st' pIndex) tasks
    /\ NoDup (List.map task_pQuorum tasks)
    /\ quorums_evolve st st'
    /\ caches_consistent st'.
Proof.
  intros Hinv Hcan.
  destruct (TriggerQuorumDataRecoveryThreads_total QuorumDataRecoveryEnabled pIndex st
              Hinv Hcan)
    as (st' & tasks & Ht & Hoff & (Hinv' & _ & _ & He & Hj & Hn & _)).
  exists st', tasks. auto 10.
Qed.

End TriggerAll.

Lemma example_caches_consistent_outsider :
  caches_consistent (ext := Example.ext) Example.stOutsider.
Proof. exact example_caches_consistent. Qed.

(** X26 at the example: on the node that has seen two commitments mined, a
    masternode that is a member of both quorums and holds neither vector nor
    key share, the trigger for [b3] starts one task for each quorum, each
    asking for both kinds of data. On a masternode that is a member of
    neither, with the vector sync of the type enabled for type members only,
    it starts no task. *)
Lemma TriggerQuorumDataRecoveryThreads_spec_witness :
  (exists st' tasks,
     TriggerQuorumDataRecoveryThreads (ext := Example.ext) true ∅ (Some Example.b3)
                                      Example.stTwo
     = Ok (st', tasks)
     /\ List.map task_nDataMaskIn tasks = [3; 3]
     /\ NoDup (List.map task_pQuorum tasks)
     /\ caches_consistent (ext := Example.ext) st')
  /\ (exists st',
        TriggerQuorumDataRecoveryThreads (ext := Example.ext) true
          {[ 1 := QvvecSyncMode.OnlyIfTypeMember ]} (Some Example.b3) Example.stOutsider
        = Ok (st', [])
        /\ caches_consistent (ext := Example.ext) st').
Proof.
  split.
  - destruct (TriggerQuorumDataRecoveryThreads_spec (ext := Example.ext) ∅ true Example.b3
                Example.stTwo example_caches_consistent eq_refl)
      as (st' & tasks & Ht & _ & _ & Hn & _ & Hinv).
    exists st', tasks. split; [exact Ht|]. split; [|split; [exact Hn|exact Hinv]].
    assert (Hc : match TriggerQuorumDataRecoveryThreads (ext := Example.ext) true ∅
                         (Some Example.b3) Example.stTwo with
                 | Ok (_, l) => List.map task_nDataMaskIn l
                 | Stop _ _ => []
                 end = [3; 3]) by (vm_compute; reflexivity).
    rewrite Ht in Hc. exact Hc.
  - destruct (TriggerQuorumDataRecoveryThreads_spec (ext := Example.ext)
                {[ 1 := QvvecSyncMode.OnlyIfTypeMember ]} true Example.b3
                Example.stOutsider example_caches_consistent_outsider eq_refl)
      as (st' & tasks & Ht & _ & _ & _ & _ & Hinv).
    assert (Hc : match TriggerQuorumDataRecoveryThreads (ext := Example.ext) true
                         {[ 1 := QvvecSyncMode.OnlyIfTypeMember ]}
                         (Some Example.b3) Example.stOutsider with
                 | Ok (_, l) => l
                 | Stop _ _ => []
                 end = []) by (vm_compute; reflexivity).
    rewrite Ht in Hc. subst tasks. exists st'. split; [exact Ht|exact Hinv].
Defined.

(** ** Whom a recovery asks *)

Section OffsetProperties.
Context {ext : Externals}.

Lemma filter_length_Permutation {A : Type} (f : A -> bool) (l l' : list A) :
  l ≡ₚ l' -> length (List.filter f l) = length (List.filter f l').
Proof.
  induction 1 as [|x l l' _ IH|x y l|l l' l'' _ IH1 _ IH2]; simpl.
  - reflexivity.
  - destruct (f x); simpl; congruence.
  - destruct (f x), (f y); reflexivity.
  - congruence.
Qed.

Lemma first_index_sorted (x : Z) (l : list Z) (i : nat) :
  StronglySorted Z.le l -> NoDup l -> In x l ->
  first_index x l i = (i + length (List.filter (fun y => (y <? x)%Z) l))%nat.
Proof.
  revert i. induction l as [|y rest IH]; intros i Hs Hn Hin; [destruct Hin|].
  apply StronglySorted_inv in Hs as [Hs Hall]. apply NoDup_cons in Hn as [Hy Hn].
  cbn [first_index List.filter]. destruct (Z.eqb_spec x y) as [->|Hne].
  - rewrite Z.ltb_irrefl.
    assert (Hnil : List.filter (fun z => z <? y) rest = []).
    { clear -Hall. induction rest as [|z rest IH]; [reflexivity|].
      apply Forall_cons in Hall as [Hz Hall]. cbn [List.filter].
      destruct (Z.ltb_spec z y); [lia|apply IH; exact Hall]. }
    rewrite Hnil. simpl. lia.
  - destruct Hin as [Heq|Hin]; [congruence|].
    assert (Hlt : y < x).
    { pose proof (proj1 (Forall_forall _ _) Hall x (proj2 (list_elem_of_In _ _) Hin)). lia. }
    apply Z.ltb_lt in Hlt. rewrite Hlt. cbn [length].
    rewrite (IH (S i) Hs Hn Hin). lia.
Qed.

Lemma first_index_absent (x : Z) (l : list Z) (i : nat) :
  ~ In x l -> first_index x l i = 0%nat.
Proof.
  revert i. induction l as [|y rest IH]; intros i Hin; [reflexivity|].
  cbn [first_index]. destruct (Z.eqb_spec x y) as [->|Hne].
  - exfalso. apply Hin. left. reflexivity.
  - apply IH. intros H. apply Hin. right. exact H.
Qed.

(** X27: the start offset of a recovery is the rank of the node among the valid
    masternodes, taken modulo the size of the quorum. *)
Theorem GetQuorumRecoveryStartOffset_is_the_rank (GetValidMNs : CBlockIndex -> list uint256)
    (pQuorum : CQuorum) (pIndex : CBlockIndex) (me : ActiveMasternodeInfo) :
  NoDup (GetValidMNs pIndex) ->
  let size := length (validMembers (qc pQuorum)) in
  let smaller :=
    length (List.filter (fun h => h <? activeProTxHash me) (GetValidMNs pIndex)) in
  match GetQuorumRecoveryStartOffset GetValidMNs pQuorum pIndex me with
  | None => size = 0%nat
  | Some nMyStartOffset =>
      (0 < size)%nat
      /\ (nMyStartOffset < size)%nat
      /\ (In (activeProTxHash me) (GetValidMNs pIndex) ->
          nMyStartOffset = (smaller mod size)%nat)
      /\ (~ In (activeProTxHash me) (GetValidMNs pIndex) -> nMyStartOffset = 0%nat)
  end.
Proof.
  intros Hnd size smaller. unfold GetQuorumRecoveryStartOffset. fold size.
  destruct size as [|n] eqn:Esize; [reflexivity|].
  split; [lia|]. split; [apply Nat.mod_upper_bound; lia|].
  pose proof (merge_sort_Permutation Z.le (GetValidMNs pIndex)) as Hperm.
  split.
  - intros Hin. rewrite first_index_sorted.
    + cbn [Nat.add]. rewrite (filter_length_Permutation _ _ _ Hperm). reflexivity.
    + apply StronglySorted_merge_sort; apply _.
    + rewrite Hperm. exact Hnd.
    + apply list_elem_of_In. rewrite Hperm. apply list_elem_of_In. exact Hin.
  - intros Hout. rewrite first_index_absent; [apply Nat.Div0.mod_0_l|].
    intros H. apply Hout. apply list_elem_of_In. rewrite <- Hperm.
    apply list_elem_of_In. exact H.
Qed.

Lemma rotation_lookup {A : Type} (l : list A) (r i : nat) :
  (r < length l)%nat -> (i < length l)%nat ->
  (drop r l ++ take r l) !! i = l !! ((r + i) mod length l)%nat.
Proof.
  intros Hr Hi. destruct (le_lt_dec (length l - r) i) as [Hge|Hlt].
  - rewrite lookup_app_r by (rewrite length_drop; lia).
    rewrite length_drop, lookup_take_lt by lia.
    f_equal. symmetry.
    replace (r + i)%nat with ((i - (length l - r)) + 1 * length l)%nat by lia.
    rewrite Nat.Div0.mod_add. apply Nat.mod_small. lia.
  - rewrite lookup_app_l by (rewrite length_drop; lia).
    rewrite lookup_drop. f_equal. symmetry. apply Nat.mod_small. lia.
Qed.

(** X28: a recovery turns to the valid members of the quorum other than the
    node itself, to each once: the members of its tries are the sorted list
    of those members, read from the start offset on and around. After as
    many tries as there are such members it gives up. *)
Theorem recovery_turns_to_each_member_once (pQuorum : CQuorum) (me : ActiveMasternodeInfo)
    (nMyStartOffset : nat) :
  let vecMemberHashes := recovery_member_hashes pQuorum me in
  let size := length vecMemberHashes in
  (forall h, In h vecMemberHashes <->
             IsValidMember pQuorum h = true /\ h <> activeProTxHash me)
  /\ Sorted Z.le vecMemberHashes
  /\ List.map (recovery_next_member vecMemberHashes nMyStartOffset) (seq 0 size)
     = List.map Some (drop (nMyStartOffset mod size) vecMemberHashes
                      ++ take (nMyStartOffset mod size) vecMemberHashes)
  /\ (forall nTries, (size <= nTries)%nat ->
        recovery_next_member vecMemberHashes nMyStartOffset nTries = None).
Proof.
  intros vec size. split; [|split; [|split]].
  - intros h. subst vec. unfold recovery_member_hashes.
    rewrite <- list_elem_of_In, merge_sort_Permutation, list_elem_of_In.
    rewrite List.in_map_iff. split.
    + intros (m & <- & Hm). apply List.filter_In in Hm as [_ Hm].
      apply andb_true_iff in Hm as [Hv Hne]. apply negb_true_iff, Z.eqb_neq in Hne. auto.
    + intros [Hv Hne]. unfold IsValidMember in Hv.
      destruct (find_member (members pQuorum) h 0) as [i|] eqn:Ef; [|discriminate].
      destruct (find_member_Some _ _ _ _ Ef) as (j & m & -> & Hl & Hh & _).
      exists m. split; [exact Hh|]. apply List.filter_In. split.
      * apply list_elem_of_In, list_elem_of_lookup. eauto.
      * rewrite Hh. unfold IsValidMember. rewrite Ef, Hv.
        apply Z.eqb_neq in Hne. rewrite Hne. reflexivity.
  - apply Sorted_merge_sort. apply _.
  - apply list_eq. intros i.
    change (List.map ?f ?l) with (f <$> l). rewrite !list_lookup_fmap.
    destruct (le_lt_dec size i) as [Hge|Hlt].
    + rewrite lookup_seq_ge by lia. rewrite (lookup_ge_None_2 (drop _ _ ++ take _ _)).
      * reflexivity.
      * rewrite length_app, length_drop, length_take. fold size. lia.
    + rewrite lookup_seq_lt by lia. cbn [fmap option_fmap option_map Nat.add].
      unfold recovery_next_member. fold size.
      destruct (Nat.leb_spec size i) as [|_]; [lia|].
      assert (Hr : (nMyStartOffset mod size < size)%nat)
        by (apply Nat.mod_upper_bound; lia).
      rewrite rotation_lookup by (fold size; lia). fold size.
      rewrite Nat.Div0.add_mod_idemp_l.
      destruct (vec !! ((nMyStartOffset + i) mod size)%nat) eqn:E; [reflexivity|].
      apply lookup_ge_None in E. fold size in E.
      pose proof (Nat.mod_upper_bound (nMyStartOffset + i) size). lia.
  - intros nTries Hn. unfold recovery_next_member. fold size.
    destruct (Nat.leb_spec size nTries); [reflexivity|lia].
Qed.

End OffsetProperties.

(** X27 at the example: among the valid masternodes 12, 5, 11 and 3 the node
    11 has rank 2, and the quorum of [qcA] has three member bits: the start
    offset is 2. *)
Lemma GetQuorumRecoveryStartOffset_is_the_rank_witness :
  exists nMyStartOffset,
    GetQuorumRecoveryStartOffset (fun _ => [12; 5; 11; 3]) Example.quorumA Example.b3
                                 Example.me
    = Some nMyStartOffset
    /\ (nMyStartOffset < 3)%nat
    /\ nMyStartOffset = 2%nat.
Proof.
  assert (Hnd : NoDup [12; 5; 11; 3]).
  { repeat (constructor;
              [intros Hx;
               repeat (apply elem_of_cons in Hx as [Hx|Hx]; [discriminate Hx|]);
               apply elem_of_nil in Hx; exact Hx|]).
    constructor. }
  generalize (GetQuorumRecoveryStartOffset_is_the_rank (fun _ => [12; 5; 11; 3])
                Example.quorumA Example.b3 Example.me Hnd).
  cbv zeta.
  destruct (GetQuorumRecoveryStartOffset (fun _ => [12; 5; 11; 3]) Example.quorumA
              Example.b3 Example.me) as [off|].
  - intros (_ & Hlt & Hin & _). exists off. split; [reflexivity|]. split; [exact Hlt|].
    rewrite Hin; [reflexivity|]. right. right. left. reflexivity.
  - intros H. vm_compute in H. discriminate H.
Defined.

(** ** The block-tip hook *)

Section BlockTipProperties.
Context {ext : Externals}.
Variable CConnman : Type.
Variable GetMasternodeQuorums : CConnman -> LLMQType -> gset Z.
Variable RemoveMasternodeQuorumNodes : CConnman -> LLMQType -> uint256 -> CConnman.
Variable EnsureQuorumConnections_of :
  CConnman -> LLMQType -> CBlockIndex -> uint256 -> bool * CConnman.
Variable keepOldConnections : LLMQParams -> Z.
Variable dkgInterval : LLMQParams -> Z.
Variable QuorumDataRecoveryEnabled : bool.
Variable sync : gmap Z QvvecSyncMode.t.

Lemma ensure_connections_spec (t : LLMQType) (del : gset Z) (lastQuorums : list nat)
    (st : NodeState) :
  Forall (fun a => is_Some (quorums st !! a)) lastQuorums ->
  forall connman removed,
  exists connman' added,
    ensure_connections CConnman RemoveMasternodeQuorumNodes EnsureQuorumConnections_of
      t del lastQuorums st connman removed
    = Ok (connman', removed ++ added)
    /\ forall t' h,
         In (t', h) added ->
         t' = t /\ h ∈ del
         /\ exists a q, In a lastQuorums /\ quorums st !! a = Some q
                        /\ quorumHash (qc q) = h.
Proof.
  induction lastQuorums as [|a rest IH]; intros Hvalid connman removed.
  - exists connman, []. rewrite app_nil_r. split; [reflexivity|]. intros ? ? [].
  - apply Forall_cons in Hvalid as [[q Hq] Hrest]. cbn [ensure_connections]. rewrite Hq.
    destruct (EnsureQuorumConnections_of connman t (pindexQuorum q)
                (activeProTxHash (self st))) as [ensured connman1].
    assert (Hweak : forall c r,
              (exists connman' added,
                 ensure_connections CConnman RemoveMasternodeQuorumNodes
                   EnsureQuorumConnections_of t del rest st c r
                 = Ok (connman', r ++ added)
                 /\ forall t' h,
                      In (t', h) added ->
                      t' = t /\ h ∈ del
                      /\ exists a' q', In a' (a :: rest) /\ quorums st !! a' = Some q'
                                       /\ quorumHash (qc q') = h)).
    { intros c r. destruct (IH Hrest c r) as (c' & added & He & Hadd).
      exists c', added. split; [exact He|]. intros t' h Hin.
      destruct (Hadd t' h Hin) as (? & ? & a' & q' & ? & ? & ?).
      split; [assumption|]. split; [assumption|]. exists a', q'.
      split; [right; assumption|]. auto. }
    destruct ensured; [apply Hweak|].
    destruct (bool_decide (quorumHash (qc q) ∈ del)) eqn:Ed; [|apply Hweak].
    apply bool_decide_eq_true in Ed.
    destruct (Hweak (RemoveMasternodeQuorumNodes connman1 t (quorumHash (qc q)))
                    (removed ++ [(t, quorumHash (qc q))]))
      as (c' & added & He & Hadd).
    exists c', ((t, quorumHash (qc q)) :: added). rewrite He.
    split; [rewrite <- app_assoc; reflexivity|].
    intros t' h [Heq|Hin]; [|apply Hadd; exact Hin].
    injection Heq as <- <-. split; [reflexivity|]. split; [exact Ed|].
    exists a, q. split; [left; reflexivity|]. auto.
Qed.

(** For a configured type whose DKG round in progress has its block,
    [EnsureQuorumConnections] returns; the node state changes as by
    [ScanQuorums], and every removal it adds is justified and was a quorum
    the connection manager held connections for. *)
Lemma EnsureQuorumConnections_total (t : LLMQType) (p : LLMQParams)
    (pindexNew : CBlockIndex) (st : NodeState) (connman : CConnman)
    (removed : list (LLMQType * uint256)) (b : CBlockIndex) :
  llmqs !! t = Some p ->
  caches_consistent st ->
  canonical st pindexNew ->
  dkgInterval p <> 0 ->
  GetAncestor pindexNew (curDkgHeight_of dkgInterval p pindexNew) = Some b ->
  exists st' connman' added,
    EnsureQuorumConnections CConnman GetMasternodeQuorums RemoveMasternodeQuorumNodes
      EnsureQuorumConnections_of keepOldConnections dkgInterval t pindexNew st connman
      removed
    = Some (Ok (st', connman', removed ++ added))
    /\ caches_consistent st'
    /\ mapBlockIndex st' = mapBlockIndex st
    /\ minedCommitments st' = minedCommitments st
    /\ quorums st `prefix_of` quorums st'
    /\ self st' = self st
    /\ mapQuorumDataRequests st' = mapQuorumDataRequests st
    /\ Forall (fun r =>
                 fst r = t
                 /\ snd r ∈ GetMasternodeQuorums connman t
                 /\ removal_justified keepOldConnections dkgInterval
                      (minedCommitments st) pindexNew r) added.
Proof.
  intros Hp Hinv Hcan Hint Hanc. unfold EnsureQuorumConnections. rewrite Hp.
  set (n := Z.to_nat (to_size_t (keepOldConnections p))).
  destruct (ScanQuorums_spec t p pindexNew n st Hp Hinv Hcan)
    as (r & st1 & Hs & Hinv1 & Hidx1 & Hdb1 & Hpre1 & Hr).
  destruct (ScanQuorums_frame _ _ _ _ _ _ _ Hp Hs) as [Hself1 Hreq1].
  rewrite Hs.
  assert (Hh : 0 <= nHeight pindexNew).
  { unfold GetAncestor, curDkgHeight_of in Hanc.
    destruct (Z.ltb_spec (nHeight pindexNew)
                (nHeight pindexNew - Z.rem (nHeight pindexNew) (dkgInterval p)));
      [discriminate|].
    destruct (Z.ltb_spec
                (nHeight pindexNew - Z.rem (nHeight pindexNew) (dkgInterval p)) 0);
      [discriminate|]. lia. }
  apply Z.eqb_neq in Hint. rewrite Hint.
  assert (Hmin : (nHeight pindexNew =? - 2 ^ 31) = false) by (apply Z.eqb_neq; lia).
  rewrite Hmin. cbn [orb andb].
  unfold curDkgHeight_of in Hanc. rewrite Hanc.
  pose proof (scanned_pointers_valid _ _ _ _ _ _ _ Hp Hr) as Hvalid.
  destruct (ensure_connections_spec t
              (GetMasternodeQuorums connman t ∖ {[GetBlockHash b]}) r st1 Hvalid
              connman removed)
    as (connman' & added & He & Hadd).
  rewrite He. exists st1, connman', added. split; [reflexivity|].
  repeat (split; [assumption|]).
  apply Forall_forall. intros [t' h] Hin. apply list_elem_of_In in Hin.
  destruct (Hadd t' h Hin) as (-> & Hdel & a & q & Ha & Hq & Hhash).
  apply elem_of_difference in Hdel as [Hheld Hcur].
  cbn [fst snd]. split; [reflexivity|]. split; [exact Hheld|].
  exists p, b. cbn [fst snd]. split; [exact Hp|]. split; [exact Hanc|].
  split; [intros ->; apply Hcur; apply elem_of_singleton; reflexivity|].
  apply list_elem_of_In, list_elem_of_lookup in Ha as [i Hi].
  pose proof (quorumIdentities_lookup st1 r i a Hi) as Hl. rewrite Hq, Hr in Hl.
  change (List.map ?f ?l) with (f <$> l) in Hl. rewrite list_lookup_fmap in Hl.
  destruct (take n (minedAnchors (minedCommitments st) t pindexNew) !! i) as [blk|] eqn:Eb;
    [|discriminate].
  cbn in Hl. injection Hl as Hl. exists blk. split.
  - apply list_elem_of_In, list_elem_of_lookup. eauto.
  - unfold minedQuorum in Hl.
    destruct (GetMinedCommitment (minedCommitments st) t (GetBlockHash blk)) as [e|] eqn:Ee;
      [|discriminate].
    rewrite Hp in Hl. injection Hl as _ Hqc _ _ _.
    apply GetMinedCommitment_Some in Ee as (_ & Hqh & _). congruence.
Qed.

(** X29: [EnsureQuorumConnections] never removes the connections of the quorum
    of the DKG round in progress. For a configured type, on consistent
    caches, it returns, and every removal it asks for is for its own type,
    for a quorum the connection manager held connections for, which is one
    of the [keepOldConnections] most recent mined quorums and not the one of
    the round in progress. *)
Theorem EnsureQuorumConnections_keeps_the_current_round (t : LLMQType) (p : LLMQParams)
    (pindexNew : CBlockIndex) (st : NodeState) (connman : CConnman)
    (removed : list (LLMQType * uint256)) (b : CBlockIndex) :
  llmqs !! t = Some p ->
  caches_consistent st ->
  canonical st pindexNew ->
  dkgInterval p <> 0 ->
  GetAncestor pindexNew
    (nHeight pindexNew - Z.rem (nHeight pindexNew) (dkgInterval p)) = Some b ->
  exists st' connman' added,
    EnsureQuorumConnections CConnman GetMasternodeQuorums RemoveMasternodeQuorumNodes
      EnsureQuorumConnections_of keepOldConnections dkgInterval t pindexNew st connman
      removed
    = Some (Ok (st', connman', removed ++ added))
    /\ forall t' h,
         In (t', h) added ->
         t' = t
         /\ h <> GetBlockHash b
         /\ h ∈ GetMasternodeQuorums connman t
         /\ exists blk,
              In blk (take (Z.to_nat (to_size_t (keepOldConnections p)))
                           (minedAnchors (minedCommitments st) t pindexNew))
              /\ GetBlockHash blk = h.
Proof.
  intros Hp Hinv Hcan Hint Hanc.
  destruct (EnsureQuorumConnections_total t p pindexNew st connman removed b Hp Hinv Hcan Hint Hanc)
    as (st' & connman' & added & He & _ & _ & _ & _ & _ & _ & Hadd).
  exists st', connman', added. split; [exact He|]. intros t' h Hin.
  apply list_elem_of_In in Hin.
  destruct (proj1 (Forall_forall _ _) Hadd _ Hin)
    as (Ht & Hheld & p' & b' & Hp' & Hanc' & Hne & blk & Hblk & Hh).
  cbn [fst snd] in *. subst t'.
  assert (p' = p) as -> by congruence.
  unfold curDkgHeight_of in Hanc'. assert (b' = b) as -> by congruence.
  split; [reflexivity|]. split; [exact Hne|]. split; [exact Hheld|]. eauto.
Qed.

Lemma ensure_types_spec (pindexNew : CBlockIndex) (types : list (LLMQType * LLMQParams)) :
  Forall (fun llmq => llmqs !! fst llmq = Some (snd llmq)) types ->
  (forall t p, llmqs !! t = Some p ->
     dkgInterval p <> 0
     /\ is_Some (GetAncestor pindexNew (curDkgHeight_of dkgInterval p pindexNew))) ->
  forall st connman removed,
    caches_consistent st ->
    canonical st pindexNew ->
    exists st' connman' added,
      ensure_types CConnman GetMasternodeQuorums RemoveMasternodeQuorumNodes
        EnsureQuorumConnections_of keepOldConnections dkgInterval pindexNew types st
        connman removed
      = Some (Ok (st', connman', removed ++ added))
      /\ caches_consistent st'
      /\ mapBlockIndex st' = mapBlockIndex st
      /\ minedCommitments st' = minedCommitments st
      /\ quorums st `prefix_of` quorums st'
      /\ self st' = self st
      /\ mapQuorumDataRequests st' = mapQuorumDataRequests st
      /\ Forall (removal_justified keepOldConnections dkgInterval
                   (minedCommitments st) pindexNew) added.
Proof.
  intros Hall Hround. induction types as [|[t p] rest IH];
    intros st connman removed Hinv Hcan; cbn [ensure_types].
  - exists st, connman, []. rewrite app_nil_r. split; [reflexivity|].
    repeat (split; [first [assumption|reflexivity]|]). constructor.
  - apply Forall_cons in Hall as [Hp Hrest]. cbn [fst snd] in Hp |- *.
    destruct (Hround t p Hp) as [Hint [b Hanc]].
    destruct (EnsureQuorumConnections_total t p pindexNew st connman removed b Hp Hinv Hcan Hint Hanc)
      as (st1 & connman1 & added1 & He & Hinv1 & Hidx1 & Hdb1 & Hpre1 & Hself1 & Hreq1
          & Hadd1).
    rewrite He.
    destruct (IH Hrest st1 connman1 (removed ++ added1) Hinv1
                (proj2 (canonical_same st st1 _ Hidx1) Hcan))
      as (st2 & connman2 & added2 & He2 & Hinv2 & Hidx2 & Hdb2 & Hpre2 & Hself2 & Hreq2
          & Hadd2).
    exists st2, connman2, (added1 ++ added2). rewrite He2, app_assoc.
    split; [reflexivity|]. split; [exact Hinv2|].
    split; [congruence|]. split; [congruence|].
    split; [etrans; eassumption|]. split; [congruence|]. split; [congruence|].
    apply Forall_app. split.
    + eapply Forall_impl; [exact Hadd1|]. intros r (_ & _ & H). exact H.
    + rewrite Hdb1 in Hadd2. exact Hadd2.
Qed.

Lemma task_justified_base (me : uint256) (db : list (CFinalCommitment * Z))
    (st0 st1 st : NodeState) (pIndex : CBlockIndex) (task : RecoveryTask) :
  quorums_evolve st0 st1 ->
  task_justified sync me db st1 st pIndex task ->
  task_justified sync me db st0 st pIndex task.
Proof.
  intros He (Hp & Hm & H1 & Hq). split; [exact Hp|]. split; [exact Hm|].
  split; [|exact Hq]. intros q0 Hq0.
  destruct (He _ q0 Hq0) as (q1 & Hq1 & _ & Hrun).
  specialize (H1 q1 Hq1).
  destruct (fQuorumDataRecoveryThreadRunning q0); [|reflexivity].
  rewrite Hrun in H1 by reflexivity. discriminate.
Qed.

(** X30: the block-tip hook as a whole. Before the chain is synced it does
    nothing. After, on consistent caches and for a block of the index, with
    every configured type having a DKG interval and the block of its round
    in progress, it returns: no expired request is left and the others are
    untouched; every removal of quorum connections is for one of the
    [keepOldConnections] most recent mined quorums of its type and not for
    the quorum of the round in progress; every recovery task started is for
    a quorum without a running recovery thread among the
    [signingActiveQuorumCount + 1] most recent mined quorums of a configured
    type, with the non-zero data mask of that quorum, computed with the node
    counted as a member of the type exactly when it is a valid member of one
    of those quorums, and at most one task is started for a quorum; no
    quorum object changes except for the flag of the recovery thread; and
    the caches are consistent again. *)
Theorem UpdatedBlockTip_spec (IsBlockchainSynced : bool) (now : Z)
    (pindexNew : CBlockIndex) (st : NodeState) (connman : CConnman) :
  caches_consistent st ->
  canonical st pindexNew ->
  (forall t p, llmqs !! t = Some p ->
     dkgInterval p <> 0
     /\ is_Some (GetAncestor pindexNew
                   (nHeight pindexNew - Z.rem (nHeight pindexNew) (dkgInterval p)))) ->
  exists st' connman' removed tasks,
    UpdatedBlockTip CConnman GetMasternodeQuorums RemoveMasternodeQuorumNodes
      EnsureQuorumConnections_of keepOldConnections dkgInterval
      QuorumDataRecoveryEnabled sync IsBlockchainSynced now pindexNew st connman
    = Some (Ok (st', connman', removed, tasks))
    /\ (IsBlockchainSynced = false ->
        st' = st /\ connman' = connman /\ removed = [] /\ tasks = [])
    /\ (IsBlockchainSynced = true ->
        forall k, mapQuorumDataRequests st' !! k
                  = match mapQuorumDataRequests st !! k with
                    | Some r => if IsExpired now r then None else Some r
                    | None => None
                    end)
    /\ Forall (removal_justified keepOldConnections dkgInterval
                 (minedCommitments st) pindexNew) removed
    /\ Forall (task_justified sync (activeProTxHash (self st)) (minedCommitments st)
                              st st' pindexNew) tasks
    /\ NoDup (List.map task_pQuorum tasks)
    /\ quorums_evolve st st'
    /\ caches_consistent st'.
Proof.
  intros Hinv Hcan Hround. unfold UpdatedBlockTip.
  destruct IsBlockchainSynced; cbn [negb].
  2:{ exists st, connman, [], []. split; [reflexivity|]. split; [auto|].
      split; [discriminate|]. split; [constructor|]. split; [constructor|].
      split; [constructor|]. split; [apply quorums_evolve_refl|exact Hinv]. }
  destruct (ensure_types_spec pindexNew llmqs_in_order llmqs_in_order_configured Hround
              st connman [] Hinv Hcan)
    as (st1 & connman1 & removed & He & Hinv1 & Hidx1 & Hdb1 & Hpre1 & Hself1 & Hreq1
        & Hrem).
  rewrite He. cbn [app].
  set (st2 := UpdatedBlockTip_cleanup now st1).
  assert (Hst2 : st2 = set_mapQuorumDataRequests (mapQuorumDataRequests st2) st1).
  { subst st2. unfold UpdatedBlockTip_cleanup. destruct st1. reflexivity. }
  assert (F : mapBlockIndex st2 = mapBlockIndex st1
              /\ minedCommitments st2 = minedCommitments st1
              /\ mapQuorumsCache st2 = mapQuorumsCache st1
              /\ scanQuorumsCache st2 = scanQuorumsCache st1
              /\ self st2 = self st1
              /\ quorums st2 = quorums st1).
  { rewrite Hst2. simpl. tauto. }
  destruct F as (F1 & F2 & F3 & F4 & F5 & F6).
  assert (He12 : quorums_evolve st1 st2).
  { apply quorums_evolve_prefix. rewrite F6. reflexivity. }
  assert (Hinv2 : caches_consistent st2).
  { apply (caches_consistent_evolve st1 st2); assumption. }
  assert (Hcan2 : canonical st2 pindexNew).
  { apply (canonical_same st1 st2 _ F1). apply (canonical_same st st1 _ Hidx1).
    exact Hcan. }
  destruct (TriggerQuorumDataRecoveryThreads_total sync QuorumDataRecoveryEnabled
              pindexNew st2 Hinv2 Hcan2)
    as (st3 & tasks & Ht & _ & (Hinv3 & _ & Hself3 & He23 & Hj & Hn & Hreq3 & _)).
  rewrite Ht. exists st3, connman1, removed, tasks. split; [reflexivity|].
  split; [discriminate|].
  assert (He02 : quorums_evolve st st2).
  { eapply quorums_evolve_trans; [apply quorums_evolve_prefix; exact Hpre1|exact He12]. }
  split.
  { intros _ k. rewrite Hreq3. subst st2. rewrite UpdatedBlockTip_cleanup_lookup.
    rewrite Hreq1. reflexivity. }
  split; [exact Hrem|]. split.
  { rewrite F5, Hself1, F2, Hdb1 in Hj. eapply Forall_impl; [exact Hj|]. intros task H.
    eapply task_justified_base; eassumption. }
  split; [exact Hn|]. split; [|exact Hinv3].
  eapply quorums_evolve_trans; eassumption.
Qed.

End BlockTipProperties.

(** X29 at the example: the connection manager holds connections for the
    quorums of the anchors [b1] and [b2], none of which is still wanted. At
    [b3], with a DKG interval of 2, the round in progress is that of [b2]:
    only the connections of the quorum of [b1] are removed. *)
Lemma EnsureQuorumConnections_keeps_the_current_round_witness :
  exists st' connman' added,
    EnsureQuorumConnections (ext := Example.ext) (gset Z)
      (fun connman _ => connman) (fun connman _ h => connman ∖ {[h]})
      (fun connman _ _ _ => (false, connman)) (fun _ => 2) (fun _ => 2)
      1 Example.b3 Example.stTwo {[101; 102]} []
    = Some (Ok (st', connman', [] ++ added))
    /\ added = [(1, 101)]
    /\ forall t' h, In (t', h) added -> h <> 102.
Proof.
  destruct (EnsureQuorumConnections_keeps_the_current_round (ext := Example.ext) (gset Z)
              (fun connman _ => connman) (fun connman _ h => connman ∖ {[h]})
              (fun connman _ _ _ => (false, connman)) (fun _ => 2) (fun _ => 2)
              1 Example.params1 Example.b3 Example.stTwo {[101; 102]} [] Example.b2
              eq_refl example_caches_consistent eq_refl ltac:(discriminate) eq_refl)
    as (st' & connman' & added & He & Hadd).
  exists st', connman', added. split; [exact He|]. split.
  - assert (Hc : match EnsureQuorumConnections (ext := Example.ext) (gset Z)
                         (fun connman _ => connman) (fun connman _ h => connman ∖ {[h]})
                         (fun connman _ _ _ => (false, connman)) (fun _ => 2) (fun _ => 2)
                         1 Example.b3 Example.stTwo {[101; 102]} [] with
                 | Some (Ok (_, _, l)) => l
                 | _ => []
                 end = [(1, 101)]) by (vm_compute; reflexivity).
    rewrite He in Hc. exact Hc.
  - intros t' h Hin. destruct (Hadd t' h Hin) as (_ & Hne & _). exact Hne.
Defined.

(** X30 at the example: the same node and connection manager at time 2000,
    synced, with recovery enabled. The hook removes only the connections of
    the quorum of [b1] and starts a recovery task for each of the two
    quorums. On a masternode that is a member of neither quorum, with the
    vector sync of the type enabled for type members only, it removes the
    same connections and starts no task. *)
Lemma UpdatedBlockTip_spec_witness :
  (exists st' connman' removed tasks,
     UpdatedBlockTip (ext := Example.ext) (gset Z)
       (fun connman _ => connman) (fun connman _ h => connman ∖ {[h]})
       (fun connman _ _ _ => (false, connman)) (fun _ => 2) (fun _ => 2)
       true ∅ true 2000 Example.b3 Example.stTwo {[101; 102]}
     = Some (Ok (st', connman', removed, tasks))
     /\ removed = [(1, 101)]
     /\ List.map task_nDataMaskIn tasks = [3; 3]
     /\ NoDup (List.map task_pQuorum tasks)
     /\ caches_consistent (ext := Example.ext) st')
  /\ (exists st' connman',
        UpdatedBlockTip (ext := Example.ext) (gset Z)
          (fun connman _ => connman) (fun connman _ h => connman ∖ {[h]})
          (fun connman _ _ _ => (false, connman)) (fun _ => 2) (fun _ => 2)
          true {[ 1 := QvvecSyncMode.OnlyIfTypeMember ]} true 2000 Example.b3
          Example.stOutsider {[101; 102]}
        = Some (Ok (st', connman', [(1, 101)], []))).
Proof.
  assert (Hround : forall t p,
            llmqs (Externals := Example.ext) !! t = Some p ->
            (fun _ : LLMQParams => 2) p <> 0
            /\ is_Some (GetAncestor Example.b3
                          (nHeight Example.b3
                           - Z.rem (nHeight Example.b3) ((fun _ : LLMQParams => 2) p)))).
  { intros t p H.
    change (({[1 := Example.params1]} : gmap Z LLMQParams) !! t = Some p) in H.
    apply lookup_singleton_Some in H as [<- <-].
    split; [discriminate|]. exists Example.b2. reflexivity. }
  split.
  - destruct (UpdatedBlockTip_spec (ext := Example.ext) (gset Z)
                (fun connman _ => connman) (fun connman _ h => connman ∖ {[h]})
                (fun connman _ _ _ => (false, connman)) (fun _ => 2) (fun _ => 2)
                true ∅ true 2000 Example.b3 Example.stTwo {[101; 102]}
                example_caches_consistent eq_refl Hround)
      as (st' & connman' & removed & tasks & He & _ & _ & _ & _ & Hn & _ & Hinv).
    exists st', connman', removed, tasks. split; [exact He|].
    assert (Hc : match UpdatedBlockTip (ext := Example.ext) (gset Z)
                         (fun connman _ => connman) (fun connman _ h => connman ∖ {[h]})
                         (fun connman _ _ _ => (false, connman)) (fun _ => 2) (fun _ => 2)
                         true ∅ true 2000 Example.b3 Example.stTwo {[101; 102]} with
                 | Some (Ok (_, _, l, ts)) => (l, List.map task_nDataMaskIn ts)
                 | _ => ([], [])
                 end = ([(1, 101)], [3; 3])) by (vm_compute; reflexivity).
    rewrite He in Hc. injection Hc as Hr Hm.
    split; [exact Hr|]. split; [exact Hm|]. split; [exact Hn|exact Hinv].
  - destruct (UpdatedBlockTip_spec (ext := Example.ext) (gset Z)
                (fun connman _ => connman) (fun connman _ h => connman ∖ {[h]})
                (fun connman _ _ _ => (false, connman)) (fun _ => 2) (fun _ => 2)
                true {[ 1 := QvvecSyncMode.OnlyIfTypeMember ]} true 2000 Example.b3
                Example.stOutsider {[101; 102]}
                example_caches_consistent_outsider eq_refl Hround)
      as (st' & connman' & removed & tasks & He & _).
    assert (Hc : match UpdatedBlockTip (ext := Example.ext) (gset Z)
                         (fun connman _ => connman) (fun connman _ h => connman ∖ {[h]})
                         (fun connman _ _ _ => (false, connman)) (fun _ => 2) (fun _ => 2)
                         true {[ 1 := QvvecSyncMode.OnlyIfTypeMember ]} true 2000
                         Example.b3 Example.stOutsider {[101; 102]} with
                 | Some (Ok (_, _, l, ts)) => (l, ts)
                 | _ => ([], [])
                 end = ([(1, 101)], [])) by (vm_compute; reflexivity).
    rewrite He in Hc. injection Hc as -> ->. exists st', connman'. exact He.
Defined.
